(** * PlanetStore gateway: erasure-coded write/read pipeline

    A shallow embedding of the gateway of PlanetStore (gateway/ec.py,
    gateway/config.py, gateway/metadata.py, gateway/quota_manager.py,
    gateway/gc_service.py, gateway/s3_api.py, gateway/main.py,
    gateway/multipart.py and gateway/rate_limiter.py) and of the path
    sanitiser of storage_node/main.py, and the properties of its
    specification.

    Bytes are [Byte.byte], Python [bytes] are [list byte], SQL tables are
    lists of rows (or finite maps where the table has a key), Python
    exceptions are values of [exn] carried by [result]. *)

From Stdlib Require Import List Arith Lia Bool Ring ZArith.
From Stdlib Require Import Sorted.
From Stdlib Require Import Strings.Byte.
From stdpp Require Import gmap strings list pretty.
Import ListNotations.

Local Open Scope nat_scope.

(** ** Python exceptions and results *)

Inductive exn : Type :=
| NameError (name : string)
| AttributeError (attr : string)
| IndexError
| ValueError (msg : string)
| ZfecError
| HTTPException (status_code : nat) (headers : list (string * string)).

Inductive result (A : Type) : Type :=
| Ok (a : A)
| Raise (e : exn).
Arguments Ok {A} a.
Arguments Raise {A} e.

#[global] Instance result_ret : MRet result := fun A a => Ok a.
#[global] Instance result_bind : MBind result :=
  fun A B k r => match r with Ok a => k a | Raise e => Raise e end.

Definition is_ok {A} (r : result A) : bool :=
  match r with Ok _ => true | Raise _ => false end.

(** ** The field GF(2^8) of the codec *)

Module GF256.

Abbreviation gf := byte (only parsing).

Definition bits : Type :=
  (bool * (bool * (bool * (bool * (bool * (bool * (bool * bool)))))))%type.

Definition xor_bits (a b : bits) : bits :=
  let '(a0, (a1, (a2, (a3, (a4, (a5, (a6, a7))))))) := a in
  let '(b0, (b1, (b2, (b3, (b4, (b5, (b6, b7))))))) := b in
  (xorb a0 b0, (xorb a1 b1, (xorb a2 b2, (xorb a3 b3,
  (xorb a4 b4, (xorb a5 b5, (xorb a6 b6, xorb a7 b7))))))).

(** Multiplication by the generator [x] modulo the primitive polynomial
    x^8 + x^4 + x^3 + x^2 + 1 (the string "101110001" of fec.c). *)
Definition xtime_bits (a : bits) : bits :=
  let '(a0, (a1, (a2, (a3, (a4, (a5, (a6, a7))))))) := a in
  (a7, (a0, (xorb a1 a7, (xorb a2 a7, (xorb a3 a7, (a4, (a5, a6))))))).

Definition gf_add (a b : gf) : gf := of_bits (xor_bits (to_bits a) (to_bits b)).
Definition xtime (a : gf) : gf := of_bits (xtime_bits (to_bits a)).

Definition gf0 : gf := x00.
Definition gf1 : gf := x01.

Definition is_zero (a : gf) : bool := Byte.eqb a x00.

Fixpoint powers (n : nat) (a : gf) : list gf :=
  match n with
  | O => []
  | S n' => a :: powers n' (xtime a)
  end.

(** gf_exp[i] for 0 <= i < 255 *)
Definition gf_exp_table : list gf := Eval vm_compute in powers 255 x01.

Fixpoint index_of (a : gf) (l : list gf) : nat :=
  match l with
  | [] => 0
  | b :: l' => if Byte.eqb a b then 0 else S (index_of a l')
  end.

Definition all_bytes : list byte :=
  Eval vm_compute in
    flat_map (fun n => match Byte.of_nat n with Some b => [b] | None => [] end)
             (seq 0 256).

(** gf_log[a]; gf_log[0] = 255 as in fec.c *)
Definition gf_log_table : list nat :=
  Eval vm_compute in map (fun a => index_of a gf_exp_table) all_bytes.

Definition modnn (x : nat) : nat := x mod 255.
Definition gf_exp (i : nat) : gf := nth (modnn i) gf_exp_table x00.
Definition gf_log (a : gf) : nat := nth (Byte.to_nat a) gf_log_table 255.

(** gf_mul_table[a][b] *)
Definition gf_mul (a b : gf) : gf :=
  if is_zero a || is_zero b then x00 else gf_exp (gf_log a + gf_log b).

(** inverse[a] *)
Definition gf_inv (a : gf) : gf :=
  if is_zero a then x00 else gf_exp (255 - gf_log a).

End GF256.

(** ** The zfec codec used by ec.py

    Modelled from the spec: the [zfec] package that gateway/ec.py imports is
    not part of the repository.  The spec asks for M - K parity blocks such
    that any K of the M blocks reconstruct the K data blocks; the model is the
    systematic Reed-Solomon code over GF(2^8) of that package: the encoding
    matrix is a Vandermonde matrix made systematic, [encode] returns the K
    input blocks followed by the check blocks, and [decode] puts the primary
    blocks at their positions, inverts the K x K matrix of the rows it was
    given and recomputes the missing primary blocks. *)

Module Zfec.
Import GF256.

Abbreviation block := (list byte) (only parsing).
Abbreviation matrix := (list (list byte)) (only parsing).

Definition identity_row (k i : nat) : list gf :=
  map (fun j => if Nat.eqb i j then gf1 else gf0) (seq 0 k).

Definition vdm_row (k row : nat) : list gf :=
  match row with
  | O => identity_row k 0
  | S r => map (fun col => gf_exp (r * col)) (seq 0 k)
  end.

Definition dot (u v : list gf) : gf :=
  fold_left (fun acc cx => gf_add acc (gf_mul (fst cx) (snd cx))) (combine u v) gf0.

Definition column (j : nat) (m : matrix) : list gf :=
  map (fun row => nth j row gf0) m.

(** c = a * b, with b of width [w] *)
Definition matmul (w : nat) (a b : matrix) : matrix :=
  map (fun arow => map (fun j => dot arow (column j b)) (seq 0 w)) a.

(** dst[i] ^= c * src[i] *)
Definition addmul (dst src : list gf) (c : gf) : list gf :=
  zip_with (fun d s => gf_add d (gf_mul c s)) dst src.

Definition swap_rows {A} (i j : nat) (m : list A) : list A :=
  match m !! i, m !! j with
  | Some a, Some b => <[i := b]> (<[j := a]> m)
  | _, _ => m
  end.

Definition pivot_row (col : nat) (m : matrix) : option nat :=
  find (fun r => negb (is_zero (nth col (nth r m []) gf0)))
       (seq col (length m - col)).

Definition eliminate (col : nat) (m : matrix) : option matrix :=
  match pivot_row col m with
  | None => None
  | Some r =>
      let m1 := swap_rows col r m in
      let prow := nth col m1 [] in
      let prow' := map (gf_mul (gf_inv (nth col prow gf0))) prow in
      Some (imap (fun i row =>
                    if Nat.eqb i col then prow'
                    else addmul row prow' (nth col row gf0)) m1)
  end.

Fixpoint gauss (cols : list nat) (m : matrix) : option matrix :=
  match cols with
  | [] => Some m
  | c :: cs =>
      match eliminate c m with
      | None => None
      | Some m' => gauss cs m'
      end
  end.

(** Gauss-Jordan inversion of a k x k matrix; [None] when singular. *)
Definition invert_mat (k : nat) (m : matrix) : option matrix :=
  let aug := imap (fun i row => row ++ identity_row k i) m in
  option_map (map (skipn k)) (gauss (seq 0 k) aug).

Record fec : Type := { fec_k : nat; fec_n : nat; enc_matrix : matrix }.

(** fec_new(k, n) *)
Definition fec_new (k n : nat) : option fec :=
  let tmp_m := map (vdm_row k) (seq 0 n) in
  match invert_mat k (firstn k tmp_m) with
  | None => None
  | Some inv =>
      Some {| fec_k := k; fec_n := n;
              enc_matrix := map (identity_row k) (seq 0 k)
                              ++ matmul k (skipn k tmp_m) inv |}
  end.

Definition Encoder (k m : nat) : result fec :=
  match fec_new k m with
  | Some code => Ok code
  | None => Raise ZfecError
  end.

Definition Decoder (k m : nat) : result fec := Encoder k m.

Definition same_length (blocks : list block) : bool :=
  match blocks with
  | [] => true
  | b :: bs => forallb (fun b' => length b' =? length b) bs
  end.

(** sum of coeffs[j] * pkts[j] over a zeroed buffer of [sz] bytes *)
Definition lincomb (sz : nat) (coeffs : list gf) (pkts : list block) : block :=
  fold_left (fun acc cp => addmul acc (snd cp) (fst cp))
            (combine coeffs pkts) (repeat gf0 sz).

(** Encoder.encode(blocks): all [fec_n] shares, primary blocks first. *)
Definition encode (code : fec) (blocks : list block) : result (list block) :=
  if negb (length blocks =? fec_k code) then Raise ZfecError
  else if negb (same_length blocks) then Raise ZfecError
  else
    let sz := length (hd [] blocks) in
    Ok (blocks ++ map (fun p => lincomb sz p blocks)
                      (skipn (fec_k code) (enc_matrix code))).

(** Move each primary block [c < k] to position [c]; secondary blocks fill
    the remaining positions.  A share id met twice is an error. *)
Fixpoint arrange {A} (fuel k i : nat) (l : list (nat * A)) : option (list (nat * A)) :=
  match fuel with
  | O => None
  | S fuel' =>
      if k <=? i then Some l
      else
        match l !! i with
        | None => None
        | Some (c, b) =>
            if (k <=? c) || (c =? i) then arrange fuel' k (S i) l
            else
              match l !! c with
              | None => None
              | Some (c', b') =>
                  if c' =? c then None
                  else arrange fuel' k i (<[i := (c', b')]> (<[c := (c, b)]> l))
              end
        end
  end.

Definition build_decode_matrix (code : fec) (index : list nat) : matrix :=
  imap (fun i c => if c <? fec_k code then identity_row (fec_k code) i
                   else nth c (enc_matrix code) []) index.

(** Decoder.decode(blocks, sharenums): the k primary blocks in order. *)
Definition decode (code : fec) (blocks : list block) (sharenums : list nat)
  : result (list block) :=
  let k := fec_k code in
  if negb ((length blocks =? k) && (length sharenums =? k)) then Raise ZfecError
  else if negb (forallb (fun c => c <? fec_n code) sharenums) then Raise ZfecError
  else if negb (same_length blocks) then Raise ZfecError
  else
    match arrange (2 * k + 1) k 0 (combine sharenums blocks) with
    | None => Raise ZfecError
    | Some arranged =>
        let index := map fst arranged in
        let inpkts := map snd arranged in
        let sz := length (hd [] inpkts) in
        match invert_mat k (build_decode_matrix code index) with
        | None => Raise ZfecError
        | Some m_dec =>
            Ok (imap (fun row cb =>
                        if fst cb <? k then snd cb
                        else lincomb sz (nth row m_dec []) inpkts) arranged)
        end
    end.

End Zfec.

(** ** gateway/ec.py *)

Module Ec.

Definition K : nat := 4.
Definition M : nat := 6.

(** math.ceil(n / k); the float division of the source is exact for every
    length a [bytes] object can have. *)
Definition ceil_div (n k : nat) : nat := (n + k - 1) / k.

(** data[start:end_] for 0 <= start <= end_ *)
Definition slice {A} (l : list A) (start end_ : nat) : list A :=
  firstn (end_ - start) (skipn start l).

Definition encode_data (data : list byte) : result (list (list byte)) :=
  let chunk_size := ceil_div (length data) K in
  let padded_size := chunk_size * K in
  let padded_data := data ++ repeat x00 (padded_size - length data) in
  let blocks :=
    map (fun i => let start := i * chunk_size in
                  let end_ := start + chunk_size in
                  slice padded_data start end_) (seq 0 K) in
  encoder ← Zfec.Encoder K M;
  Zfec.encode encoder blocks.

Definition decode_data (shards : list (list byte)) (shard_nums : list nat)
           (original_size : nat) : result (list byte) :=
  if length shards <? K then
    Raise (ValueError "Need at least 4 shards to recover data")
  else
    decoder ← Zfec.Decoder K M;
    recovered_blocks ← Zfec.decode decoder (firstn K shards) (firstn K shard_nums);
    let full_data := concat recovered_blocks in
    mret (firstn original_size full_data).

End Ec.

(** ** Python dictionaries that are iterated: insertion-ordered *)

Module Dict.

Definition dict (V : Type) : Type := list (string * V).

Fixpoint set {V} (d : dict V) (k : string) (v : V) : dict V :=
  match d with
  | [] => [(k, v)]
  | (k', v') :: d' =>
      if String.eqb k k' then (k', v) :: d' else (k', v') :: set d' k v
  end.

Definition get {V} (d : dict V) (k : string) : option V :=
  option_map snd (find (fun kv => String.eqb k (fst kv)) d).

Definition contains {V} (d : dict V) (k : string) : bool :=
  match get d k with Some _ => true | None => false end.

Definition values {V} (d : dict V) : list V := map snd d.

End Dict.

(** ** gateway/config.py *)

Module Config.

Record NodeInfo : Type := { node_id : string; base_url : string }.

(** Attribute access on the pydantic model: the declared fields only. *)
Definition getattr (n : NodeInfo) (attr : string) : result string :=
  if String.eqb attr "node_id" then Ok (node_id n)
  else if String.eqb attr "base_url" then Ok (base_url n)
  else Raise (AttributeError attr).

Definition NodeInfo_eqb (a b : NodeInfo) : bool :=
  String.eqb (node_id a) (node_id b) && String.eqb (base_url a) (base_url b).

(** NODES = {n.node_id: n for n in NODES_LIST} *)
Definition NODES_of (NODES_LIST : list NodeInfo) : Dict.dict NodeInfo :=
  fold_left (fun d n => Dict.set d (node_id n) n) NODES_LIST [].

Definition REGIONS : Dict.dict (list string) :=
  [ ("us-east", ["node1"; "node2"]);
    ("eu-west", ["node3"; "node4"]);
    ("ap-south", ["node5"; "node6"]) ]%string.

(** Truth value of an optional string: None and the empty string are false. *)
Definition truthy (s : option string) : bool :=
  match s with
  | None => false
  | Some s' => negb (String.eqb s' "")
  end.

Definition str_in (x : string) (l : list string) : bool :=
  existsb (String.eqb x) l.

Section Registry.
(** The registry parsed from STORAGE_NODES at start-up. *)
Variable NODES_LIST : list NodeInfo.

Definition NODES : Dict.dict NodeInfo := NODES_of NODES_LIST.

(** preferred_region is set and names a region of REGIONS *)
Definition known_region (preferred_region : option string) : bool :=
  truthy preferred_region && Dict.contains REGIONS (default "" preferred_region).

(** [NODES[nid] for nid in preferred_node_ids if nid in NODES] *)
Definition preferred_nodes_of (preferred_node_ids : list string) : list NodeInfo :=
  omap (fun nid => Dict.get NODES nid) preferred_node_ids.

(** [n for n in NODES_LIST if n.node_id not in preferred_node_ids] *)
Definition other_nodes_of (preferred_node_ids : list string) : list NodeInfo :=
  List.filter (fun n => negb (str_in (node_id n) preferred_node_ids)) NODES_LIST.

Definition get_nodes_for_shards (count : nat) (preferred_region : option string)
  : result (list NodeInfo) :=
  if length NODES_LIST <? count then Raise (HTTPException 500 [])
  else if negb (known_region preferred_region) then
    (* No region preference, use all nodes *)
    Ok (firstn count NODES_LIST)
  else
    (* Get nodes from preferred region *)
    let preferred_node_ids :=
      default [] (Dict.get REGIONS (default "" preferred_region)) in
    let preferred_nodes := preferred_nodes_of preferred_node_ids in
    (* If we have enough in preferred region, use them *)
    if count <=? length preferred_nodes then Ok (firstn count preferred_nodes)
    else
      (* Otherwise, fill with nodes from other regions *)
      let other_nodes := other_nodes_of preferred_node_ids in
      Ok (preferred_nodes ++ firstn (count - length preferred_nodes) other_nodes).
End Registry.

End Config.

(** ** gateway/metadata.py and the tables reached through raw SQL *)

Module Metadata.

(** One record of a shard layout.  The [shards] columns hold the list as
    JSON text; [json.loads (json.dumps l) = l] for these records, and the
    model keeps the list. *)
Record ShardMeta : Type :=
  { index : nat; sm_node_id : string; shard_key : string }.

Record Bucket : Type := { name : string; versioning_enabled : bool }.

Record Object : Type :=
  { id : nat;
    bucket_name : string;
    object_key : string;
    version_id : string;
    is_latest : bool;
    size_bytes : nat;
    shards : list ShardMeta;
    created_at : nat;
    content_hash : option string }.

Record ContentRow : Type :=
  { cr_size_bytes : nat; cr_shards : list ShardMeta; refcount : Z }.

Record Quota : Type := { max_size_bytes : Z; max_objects : Z }.

Record DB : Type :=
  { buckets : list Bucket;
    objects : list Object;
    content_store : gmap string ContentRow;
    bucket_quotas : gmap string Quota;
    next_id : nat }.

Definition set_objects (db : DB) (objs : list Object) : DB :=
  {| buckets := buckets db; objects := objs; content_store := content_store db;
     bucket_quotas := bucket_quotas db; next_id := next_id db |}.

Definition set_content_store (db : DB) (cs : gmap string ContentRow) : DB :=
  {| buckets := buckets db; objects := objects db; content_store := cs;
     bucket_quotas := bucket_quotas db; next_id := next_id db |}.

Definition set_latest (o : Object) (b : bool) : Object :=
  {| id := id o; bucket_name := bucket_name o; object_key := object_key o;
     version_id := version_id o; is_latest := b; size_bytes := size_bytes o;
     shards := shards o; created_at := created_at o;
     content_hash := content_hash o |}.

Definition set_content_hash (o : Object) (h : string) : Object :=
  {| id := id o; bucket_name := bucket_name o; object_key := object_key o;
     version_id := version_id o; is_latest := is_latest o;
     size_bytes := size_bytes o; shards := shards o; created_at := created_at o;
     content_hash := Some h |}.

(** filter_by(bucket_name=bucket, object_key=key) *)
Definition same_key (bucket key : string) (o : Object) : bool :=
  String.eqb (bucket_name o) bucket && String.eqb (object_key o) key.

(** filter_by(bucket_name=bucket, object_key=key, is_latest=True) *)
Definition is_latest_of (bucket key : string) (o : Object) : bool :=
  same_key bucket key o && is_latest o.

(** The first row of [l] that satisfies [p] is replaced by its image. *)
Fixpoint update_first {A} (p : A -> bool) (f : A -> A) (l : list A) : list A :=
  match l with
  | [] => []
  | x :: l' => if p x then f x :: l' else x :: update_first p f l'
  end.

(** db.delete of the first row that satisfies [p] *)
Fixpoint delete_first {A} (p : A -> bool) (l : list A) : list A :=
  match l with
  | [] => []
  | x :: l' => if p x then l' else x :: delete_first p l'
  end.

Definition get_bucket (db : DB) (name_ : string) : option Bucket :=
  find (fun b => String.eqb (name b) name_) (buckets db).

Definition create_bucket (db : DB) (name_ : string) (versioning : bool) : DB * Bucket :=
  let bucket := {| name := name_; versioning_enabled := versioning |} in
  ({| buckets := buckets db ++ [bucket]; objects := objects db;
      content_store := content_store db; bucket_quotas := bucket_quotas db;
      next_id := next_id db |}, bucket).

(** put_object_metadata: one session, one commit.  [ver_id] is the
    str(uuid.uuid4()) drawn inside, [now] the server clock of created_at. *)
Definition put_object_metadata (db : DB) (ver_id : string) (now : nat)
           (bucket key : string) (size : nat) (shards_ : list ShardMeta)
  : DB * Object :=
  (* 1. Mark existing latest as not latest *)
  let objs := update_first (is_latest_of bucket key)
                           (fun existing => set_latest existing false)
                           (objects db) in
  (* 2. Create new object version *)
  let obj := {| id := next_id db; bucket_name := bucket; object_key := key;
                version_id := ver_id; is_latest := true; size_bytes := size;
                shards := shards_; created_at := now; content_hash := None |} in
  ({| buckets := buckets db; objects := objs ++ [obj];
      content_store := content_store db; bucket_quotas := bucket_quotas db;
      next_id := S (next_id db) |}, obj).

Definition get_object_metadata (db : DB) (bucket key : string)
           (version_id_ : option string) : option Object :=
  if Config.truthy version_id_ then
    find (fun o => same_key bucket key o
                   && String.eqb (version_id o) (default "" version_id_))
         (objects db)
  else find (is_latest_of bucket key) (objects db).

Definition list_objects (db : DB) (bucket : string) : list Object :=
  List.filter (fun o => String.eqb (bucket_name o) bucket && is_latest o) (objects db).

Definition delete_object_metadata (db : DB) (bucket key : string) : DB * bool :=
  match find (is_latest_of bucket key) (objects db) with
  | Some _ => (set_objects db (delete_first (is_latest_of bucket key) (objects db)), true)
  | None => (db, false)
  end.

(** UPDATE objects SET content_hash = :hash WHERE id = :obj_id *)
Definition update_content_hash (db : DB) (obj_id : nat) (h : string) : DB :=
  set_objects db
    (map (fun o => if id o =? obj_id then set_content_hash o h else o) (objects db)).

(** SELECT content_hash, shards FROM content_store WHERE content_hash = :hash *)
Definition select_content (db : DB) (h : string) : option ContentRow :=
  content_store db !! h.

(** UPDATE content_store SET refcount = refcount + 1 WHERE content_hash = :hash *)
Definition incr_refcount (db : DB) (h : string) : DB :=
  set_content_store db
    (alter (fun r => {| cr_size_bytes := cr_size_bytes r; cr_shards := cr_shards r;
                        refcount := (refcount r + 1)%Z |}) h (content_store db)).

(** INSERT INTO content_store (...) VALUES (:hash, :size, :shards, 1) *)
Definition insert_content (db : DB) (h : string) (size : nat)
           (shards_ : list ShardMeta) : DB :=
  set_content_store db
    (<[h := {| cr_size_bytes := size; cr_shards := shards_; refcount := 1%Z |}]>
       (content_store db)).

(** The is-latest invariant of the objects table. *)
Definition latest_count (bucket key : string) (objs : list Object) : nat :=
  length (List.filter (is_latest_of bucket key) objs).

Definition latest_inv (objs : list Object) : Prop :=
  forall bucket key, latest_count bucket key objs <= 1.

(** The invariant, checked on the keys that occur in the table. *)
Definition latest_inv_b (objs : list Object) : bool :=
  forallb (fun o => latest_count (bucket_name o) (object_key o) objs <=? 1) objs.

End Metadata.

(** ** The world the gateway runs in *)

Module World.
Import Config Metadata.

(** Requests sent to storage nodes, in the order the tasks are created. *)
Inductive NetReq : Type :=
| NetPut (node : NodeInfo) (bucket shard_key_ : string) (body : list byte)
| NetDelete (node : NodeInfo) (bucket shard_key_ : string).

Definition is_delete (r : NetReq) : bool :=
  match r with NetDelete _ _ _ => true | NetPut _ _ _ _ => false end.

(** manager.broadcast payloads *)
Inductive Event : Type :=
| UploadEvent (bucket key : string) (size : nat) (deduplicated : bool) (method : string)
| DeleteEvent (bucket key : string) (method : string).

(** What the gateway cannot decide: digests, random draws, node answers. *)
Record Env : Type :=
  { sha256_hex : list byte -> string;
    md5_hex : list byte -> string;
    (** str(uuid.uuid4()) at the n-th draw *)
    uuid4 : nat -> string;
    (** random.shuffle, if the name were bound *)
    shuffle : list NodeInfo -> list NodeInfo;
    (** status code of a PUT; [None] when requests.put raises *)
    put_status : NodeInfo -> string -> string -> list byte -> option nat;
    (** server clock *)
    now : nat }.

Record World : Type :=
  { w_db : DB;
    w_net : list NetReq;
    w_events : list Event;
    w_uuid : nat }.

Definition M (A : Type) : Type := World -> World * result A.

#[global] Instance M_ret : MRet M := fun A a w => (w, Ok a).
#[global] Instance M_bind : MBind M :=
  fun A B k m w =>
    match m w with
    | (w', Ok a) => k a w'
    | (w', Raise e) => (w', Raise e)
    end.

Definition raise {A} (e : exn) : M A := fun w => (w, Raise e).
Definition lift {A} (r : result A) : M A := fun w => (w, r).

Definition get_db : M DB := fun w => (w, Ok (w_db w)).

Definition set_db (db : DB) : M unit :=
  fun w => ({| w_db := db; w_net := w_net w; w_events := w_events w;
               w_uuid := w_uuid w |}, Ok tt).

Definition send (r : NetReq) : M unit :=
  fun w => ({| w_db := w_db w; w_net := w_net w ++ [r]; w_events := w_events w;
               w_uuid := w_uuid w |}, Ok tt).

Definition broadcast (e : Event) : M unit :=
  fun w => ({| w_db := w_db w; w_net := w_net w; w_events := w_events w ++ [e];
               w_uuid := w_uuid w |}, Ok tt).

Definition draw_uuid (env : Env) : M string :=
  fun w => ({| w_db := w_db w; w_net := w_net w; w_events := w_events w;
               w_uuid := S (w_uuid w) |}, Ok (uuid4 env (w_uuid w))).

(** run [f] on every element, in order *)
Fixpoint for_each {A B} (f : A -> M B) (l : list A) : M (list B) :=
  match l with
  | [] => mret []
  | x :: l' => y ← f x; ys ← for_each f l'; mret (y :: ys)
  end.

(** MetadataManager methods as transactions on the world *)
Definition get_bucket (name_ : string) : M (option Bucket) :=
  db ← get_db; mret (Metadata.get_bucket db name_).

Definition create_bucket (name_ : string) : M Bucket :=
  db ← get_db;
  let '(db', b) := Metadata.create_bucket db name_ false in
  _ ← set_db db'; mret b.

Definition put_object_metadata (env : Env) (bucket key : string) (size : nat)
           (shards_ : list ShardMeta) : M Object :=
  db ← get_db;
  ver_id ← draw_uuid env;
  let '(db', obj) := Metadata.put_object_metadata db ver_id (now env) bucket key size shards_ in
  _ ← set_db db'; mret obj.

Definition get_object_metadata (bucket key : string) (version_id_ : option string)
  : M (option Object) :=
  db ← get_db; mret (Metadata.get_object_metadata db bucket key version_id_).

Definition delete_object_metadata (bucket key : string) : M bool :=
  db ← get_db;
  let '(db', b) := Metadata.delete_object_metadata db bucket key in
  _ ← set_db db'; mret b.

End World.

(** ** gateway/quota_manager.py *)

Module QuotaManager.
Import Metadata World.

(** quota_manager = QuotaManager(default_max_size_gb=10.0, default_max_objects=10000) *)
Definition default_max_size_bytes : Z := 10 * 1024 * 1024 * 1024.
Definition default_max_objects : Z := 10000.

Record QuotaInfo : Type :=
  { current_objects : Z; current_size_bytes : Z;
    qi_max_objects : Z; qi_max_size_bytes : Z;
    objects_remaining : Z; bytes_remaining : Z }.

Definition get_quota (db : DB) (bucket : string) : Quota :=
  match bucket_quotas db !! bucket with
  | Some q => q
  | None => {| max_size_bytes := default_max_size_bytes;
               max_objects := default_max_objects |}
  end.

(** SELECT COUNT( * ), COALESCE(SUM(size_bytes), 0) FROM objects
    WHERE bucket_name = :bucket AND is_latest = true *)
Definition current_stats (db : DB) (bucket : string) : Z * Z :=
  let rows := list_objects db bucket in
  (Z.of_nat (length rows),
   fold_right Z.add 0%Z (map (fun o => Z.of_nat (size_bytes o)) rows)).

Definition check_quota_db (db : DB) (bucket : string) (additional_size : Z)
  : result QuotaInfo :=
  let '(current_objects_, current_size) := current_stats db bucket in
  let quota := get_quota db bucket in
  let new_size := (current_size + additional_size)%Z in
  let new_objects :=
    (current_objects_ + (if (0 <? additional_size)%Z then 1 else 0))%Z in
  if (max_size_bytes quota <? new_size)%Z then
    Raise (HTTPException 507
             [("X-Quota-Used", pretty new_size);
              ("X-Quota-Limit", pretty (max_size_bytes quota))]%string)
  else if (max_objects quota <? new_objects)%Z then
    Raise (HTTPException 507
             [("X-Quota-Used", pretty new_objects);
              ("X-Quota-Limit", pretty (max_objects quota))]%string)
  else
    Ok {| current_objects := current_objects_;
          current_size_bytes := current_size;
          qi_max_objects := max_objects quota;
          qi_max_size_bytes := max_size_bytes quota;
          objects_remaining := (max_objects quota - new_objects)%Z;
          bytes_remaining := (max_size_bytes quota - new_size)%Z |}.

Definition check_quota (bucket : string) (additional_size : Z) : M QuotaInfo :=
  db ← get_db; lift (check_quota_db db bucket additional_size).

End QuotaManager.

(** ** gateway/multipart.py *)

Module Multipart.
Import World.

(** Exceptions of the manager besides ValueError: the unique constraint on
    upload_id, and open() of a path that is not there. *)
Inductive outcome (A : Type) : Type :=
| Done (a : A)
| Failed (e : exn)
| IntegrityError
| FileNotFoundError (path_ : string).
Arguments Done {A} a.
Arguments Failed {A} e.
Arguments IntegrityError {A}.
Arguments FileNotFoundError {A} path_.

(** One entry of the JSON list in the parts column *)
Record Part : Type := { part_number : Z; size : nat; path : string }.

(** A row of multipart_uploads *)
Record MultipartUpload : Type :=
  { upload_id : string;
    mu_bucket_name : string;
    mu_object_key : string;
    parts : list Part }.

(** The table, the files under /tmp/multipart, and the uuids drawn so far *)
Record State : Type :=
  { multipart_uploads : list MultipartUpload;
    tmp_files : gmap string (list byte);
    uuids_drawn : nat }.

(** parts.sort(key=lambda x: x["part_number"]): list.sort is stable *)
Fixpoint insert_by {A} (key : A -> Z) (x : A) (l : list A) : list A :=
  match l with
  | [] => [x]
  | y :: l' => if (key x <=? key y)%Z then x :: y :: l' else y :: insert_by key x l'
  end.

Definition sort_by {A} (key : A -> Z) (l : list A) : list A :=
  fold_right (insert_by key) [] l.

(** filter_by(upload_id=upload_id) *)
Definition has_id (upload_id_ : string) (u : MultipartUpload) : bool :=
  String.eqb (upload_id u) upload_id_.

Definition find_upload (st : State) (upload_id_ : string) : option MultipartUpload :=
  find (has_id upload_id_) (multipart_uploads st).

Definition set_parts (u : MultipartUpload) (parts_ : list Part) : MultipartUpload :=
  {| upload_id := upload_id u; mu_bucket_name := mu_bucket_name u;
     mu_object_key := mu_object_key u; parts := parts_ |}.

(** part_path = f"/tmp/multipart/{upload_id}/part-{part_number}" *)
Definition part_path (upload_id_ : string) (part_number_ : Z) : string :=
  "/tmp/multipart/" +:+ upload_id_ +:+ "/part-" +:+ pretty part_number_.

Section Manager.
Variable env : Env.

Definition initiate_upload (bucket key : string) (st : State) : State * outcome string :=
  let upload_id_ := uuid4 env (uuids_drawn st) in
  match find_upload st upload_id_ with
  | Some _ =>
      ({| multipart_uploads := multipart_uploads st; tmp_files := tmp_files st;
          uuids_drawn := S (uuids_drawn st) |}, IntegrityError)
  | None =>
      let upload := {| upload_id := upload_id_; mu_bucket_name := bucket;
                       mu_object_key := key; parts := [] |} in
      ({| multipart_uploads := multipart_uploads st ++ [upload];
          tmp_files := tmp_files st;
          uuids_drawn := S (uuids_drawn st) |}, Done upload_id_)
  end.
End Manager.

Definition upload_part (upload_id_ : string) (part_number_ : Z) (data : list byte)
           (st : State) : State * outcome (Z * nat) :=
  match find_upload st upload_id_ with
  | None => (st, Failed (ValueError "Upload not found"))
  | Some upload =>
      (* Store part temporarily *)
      let part_path_ := part_path upload_id_ part_number_ in
      let files := <[part_path_ := data]> (tmp_files st) in
      (* Update parts list *)
      let parts_ := parts upload ++ [ {| part_number := part_number_;
                                         size := length data;
                                         path := part_path_ |} ] in
      ({| multipart_uploads :=
            Metadata.update_first (has_id upload_id_) (fun u => set_parts u parts_)
                                  (multipart_uploads st);
          tmp_files := files;
          uuids_drawn := uuids_drawn st |}, Done (part_number_, length data))
  end.

(** full_data += f.read() for every part, in order; the first path that is
    not there raises. *)
Fixpoint read_parts (files : gmap string (list byte)) (parts_ : list Part)
  : list byte + string :=
  match parts_ with
  | [] => inl []
  | part :: rest =>
      match files !! path part with
      | None => inr (path part)
      | Some data =>
          match read_parts files rest with
          | inl more => inl (data ++ more)
          | inr p => inr p
          end
      end
  end.

(** os.remove(part["path"]) for every part, errors ignored *)
Definition remove_parts (files : gmap string (list byte)) (parts_ : list Part)
  : gmap string (list byte) :=
  fold_left (fun fs part => delete (path part) fs) parts_ files.

Definition complete_upload (upload_id_ : string) (st : State)
  : State * outcome (list byte) :=
  match find_upload st upload_id_ with
  | None => (st, Failed (ValueError "Upload not found"))
  | Some upload =>
      let parts_ := sort_by part_number (parts upload) in
      (* Concatenate all parts *)
      match read_parts (tmp_files st) parts_ with
      | inr p => (st, FileNotFoundError p)
      | inl full_data =>
          (* Cleanup temp files, delete upload session *)
          ({| multipart_uploads :=
                Metadata.delete_first (has_id upload_id_) (multipart_uploads st);
              tmp_files := remove_parts (tmp_files st) parts_;
              uuids_drawn := uuids_drawn st |}, Done full_data)
      end
  end.

Definition abort_upload (upload_id_ : string) (st : State) : State * outcome unit :=
  match find_upload st upload_id_ with
  | None => (st, Done tt)
  | Some upload =>
      ({| multipart_uploads :=
            Metadata.delete_first (has_id upload_id_) (multipart_uploads st);
          tmp_files := remove_parts (tmp_files st) (parts upload);
          uuids_drawn := uuids_drawn st |}, Done tt)
  end.

(** upload_part for each (part_number, data) of [ps], in order *)
Definition upload_parts (upload_id_ : string) (ps : list (Z * list byte)) (st : State)
  : State :=
  fold_left (fun st p => fst (upload_part upload_id_ (fst p) (snd p) st)) ps st.

End Multipart.

(** ** gateway/main.py *)

Module Gateway.
Import Config Metadata World.

(** What the endpoints return. *)
Inductive Response : Type :=
| UploadOk (bucket key version_id_ : string) (deduplicated : bool)
           (content_hash_ : string) (shards_stored : option nat)
| MultipartOk (version_id_ : string) (size : nat)
| StatusOnly (status : string)
| HttpResponse (status_code : nat) (headers : list (string * string)).

(** Result dictionary of one upload task. *)
Record ShardResult : Type :=
  { success : bool; r_index : nat; r_node_id : string; r_shard_key : string }.

Definition to_meta (r : ShardResult) : ShardMeta :=
  {| index := r_index r; sm_node_id := r_node_id r; shard_key := r_shard_key r |}.

(** Names bound at module level in main.py: its imports and definitions. *)
Definition main_globals : list string :=
  [ "json"; "os"; "time"; "asyncio"; "List"; "Optional"; "Dict"; "requests";
    "FastAPI"; "UploadFile"; "File"; "HTTPException"; "Depends";
    "StreamingResponse"; "JSONResponse"; "CORSMiddleware"; "BaseModel";
    "MetadataManager"; "Object"; "Bucket"; "ec"; "NodeInfo"; "NODES";
    "NODES_LIST"; "get_nodes_for_shards"; "manager"; "GCScheduler";
    "_gc_scheduler"; "WebSocket"; "WebSocketDisconnect"; "logging"; "logger";
    "app"; "RateLimitMiddleware"; "rate_limiter"; "gc_scheduler_instance";
    "health_monitor_instance"; "startup_event"; "shutdown_event";
    "websocket_endpoint"; "s3_router"; "meta_mgr"; "authenticate_user";
    "create_user"; "create_access_token"; "Token"; "UserCreate";
    "get_current_user"; "update_last_login"; "OAuth2PasswordRequestForm";
    "timedelta"; "register"; "login"; "get_me"; "BucketCreate"; "BucketInfo";
    "ObjectInfoSchema"; "health"; "list_nodes"; "get_metrics"; "get_gc_status";
    "get_regions"; "get_node_health"; "get_bucket_quota"; "set_bucket_quota";
    "create_bucket"; "list_buckets"; "list_objects"; "upload_object";
    "download_object"; "delete_object"; "mp_manager"; "initiate_multipart";
    "upload_part"; "complete_multipart"; "abort_multipart"; "run_gc";
    "trigger_gc" ]%string.

(** Evaluating a global name of main.py *)
Definition global_lookup (name_ : string) : result unit :=
  if str_in name_ main_globals then Ok tt else Raise (NameError name_).

(** random.shuffle(l) *)
Definition random_shuffle (env : Env) (l : list NodeInfo) : result (list NodeInfo) :=
  _ ← global_lookup "random"; mret (shuffle env l).

(** [x for x in l if p x] where the condition may raise *)
Fixpoint filterM {A} (p : A -> result bool) (l : list A) : result (list A) :=
  match l with
  | [] => Ok []
  | x :: l' =>
      b ← p x; r ← filterM p l';
      mret (if b : bool then x :: r else r)
  end.

Fixpoint mapR {A B} (f : A -> result B) (l : list A) : result (list B) :=
  match l with
  | [] => Ok []
  | x :: l' => y ← f x; ys ← mapR f l'; mret (y :: ys)
  end.

(** l[i] *)
Definition getitem {A} (l : list A) (i : nat) : result A :=
  match l !! i with Some x => Ok x | None => Raise IndexError end.

Section Registry.
Variable env : Env.
Variable NODES_LIST : list NodeInfo.

(** The get_nodes_for_shards defined in main.py, which replaces the one
    imported from config. *)
Definition get_nodes_for_shards (count : nat) (preferred_region : option string)
  : result (list NodeInfo) :=
  let available_nodes := Dict.values (NODES NODES_LIST) in
  if length available_nodes <? count then Raise (HTTPException 500 [])
  else
    (* 1. Try to pick from preferred region first *)
    selected_nodes ←
      (if truthy preferred_region then
         region_nodes ←
           filterM (fun n => r ← getattr n "region";
                             mret (String.eqb r (default "" preferred_region)))
                   available_nodes;
         region_nodes ← random_shuffle env region_nodes;
         mret (firstn count region_nodes)
       else mret []);
    (* 2. Fill remaining slots with other nodes *)
    selected_nodes ←
      (if length selected_nodes <? count then
         let remaining_count := count - length selected_nodes in
         let other_nodes :=
           List.filter (fun n => negb (existsb (NodeInfo_eqb n) selected_nodes))
                       available_nodes in
         other_nodes ← random_shuffle env other_nodes;
         mret (selected_nodes ++ firstn remaining_count other_nodes)
       else mret selected_nodes);
    if length selected_nodes <? count then Raise (HTTPException 500 [])
    else mret selected_nodes.

(** shard_key = f"{key}.{b.name}.shard-{i}" *)
Definition shard_key_of (key bname : string) (i : nat) : string :=
  key +:+ "." +:+ bname +:+ ".shard-" +:+ pretty i.

(** The body shared by upload_shard (main.py) and upload_shard_real
    (s3_api.py): PUT the shard under [shard_key_], report success on 200. *)
Definition put_shard (bucket shard_key_ : string)
           (i : nat) (node : NodeInfo) (shard_val : list byte) : M ShardResult :=
  _ ← send (NetPut node bucket shard_key_ shard_val);
  mret {| success :=
            match put_status env node bucket shard_key_ shard_val with
            | Some code => code =? 200
            | None => false
            end;
          r_index := i; r_node_id := node_id node; r_shard_key := shard_key_ |}.

Definition upload_shard (bucket key : string) (b : Bucket)
           (i : nat) (node : NodeInfo) (shard_val : list byte) : M ShardResult :=
  let shard_key_ := shard_key_of key (name b) i in
  put_shard bucket shard_key_ i node shard_val.

(** tasks = [upload_shard(i, nodes[i], shards_data[i]) for i in range(total_shards)];
    results = await asyncio.gather( *tasks ) *)
Definition gather_uploads (task : nat -> NodeInfo -> list byte -> M ShardResult)
           (nodes : list NodeInfo) (shards_data : list (list byte))
           (total_shards : nat) : M (list ShardResult) :=
  args ← lift (mapR (fun i => n ← getitem nodes i; s ← getitem shards_data i;
                              mret (i, n, s))
                    (seq 0 total_shards));
  for_each (fun a => task (fst (fst a)) (snd (fst a)) (snd a)) args.

Definition ensure_bucket (bucket : string) : M Bucket :=
  ob ← World.get_bucket bucket;
  match ob with
  | Some b => mret b
  | None => World.create_bucket bucket
  end.

(** The dedup-hit block, the same in main.py and s3_api.py: bump the
    refcount (commit), put_object_metadata (its own session and commit),
    write content_hash on the new row (commit), broadcast. *)
Definition dedup_hit (bucket key : string) (size : nat) (content_hash_ : string)
           (existing_content : ContentRow) (method : string) : M Object :=
  db ← get_db;
  _ ← set_db (incr_refcount db content_hash_);
  obj ← World.put_object_metadata env bucket key size (cr_shards existing_content);
  db ← get_db;
  _ ← set_db (update_content_hash db (id obj) content_hash_);
  _ ← broadcast (UploadEvent bucket key size true method);
  mret obj.

(** Steps 7 and 8, the same in main.py and s3_api.py: insert the content
    row (commit), put_object_metadata, write content_hash, broadcast. *)
Definition store_new_content (bucket key : string) (size : nat)
           (content_hash_ : string) (shard_meta : list ShardMeta)
           (method : string) : M Object :=
  db ← get_db;
  _ ← set_db (insert_content db content_hash_ size shard_meta);
  obj ← World.put_object_metadata env bucket key size shard_meta;
  db ← get_db;
  _ ← set_db (update_content_hash db (id obj) content_hash_);
  _ ← broadcast (UploadEvent bucket key size false method);
  mret obj.

(** Steps 6 to 8 of upload_object, once the nodes are selected. *)
Definition distribute_and_commit (bucket key : string) (b : Bucket) (size : nat)
           (content_hash_ consistency : string) (shards_data : list (list byte))
           (nodes : list NodeInfo) : M Response :=
  let total_shards := length shards_data in
  (* 6. Distribute Shards (Parallel with Quorum) *)
  let quorum_size := if String.eqb consistency "strong" then 4 else total_shards in
  results ← gather_uploads (upload_shard bucket key b) nodes shards_data total_shards;
  (* Check quorum *)
  let successful := List.filter success results in
  if length successful <? quorum_size then raise (HTTPException 502 [])
  else
    let shard_meta := map to_meta successful in
    obj ← store_new_content bucket key size content_hash_ shard_meta "api";
    mret (UploadOk bucket key (version_id obj) false content_hash_
                   (Some (length shard_meta))).

Definition upload_object (bucket key : string) (file_bytes : list byte)
           (consistency : string) (region : option string) : M Response :=
  (* 1. Ensure bucket exists *)
  b ← ensure_bucket bucket;
  (* 2. Read file and calculate hash *)
  let size := length file_bytes in
  let content_hash_ := sha256_hex env file_bytes in
  (* 2.5 Check quota BEFORE processing *)
  quota_info ← QuotaManager.check_quota bucket (Z.of_nat size);
  (* 3. Check if content already exists *)
  db ← get_db;
  match select_content db content_hash_ with
  | Some existing_content =>
      obj ← dedup_hit bucket key size content_hash_ existing_content "api";
      mret (UploadOk bucket key (version_id obj) true content_hash_ None)
  | None =>
      (* 4. New content - Erasure Code *)
      shards_data ← lift (Ec.encode_data file_bytes);
      let total_shards := length shards_data in
      (* 5. Select Nodes (with region preference) *)
      nodes ← lift (get_nodes_for_shards total_shards region);
      distribute_and_commit bucket key b size content_hash_ consistency
                            shards_data nodes
  end.


(** requests.delete for every shard whose node is known; errors ignored *)
Definition delete_shards (bucket : string) (shard_meta : list ShardMeta) : M unit :=
  _ ← for_each
        (fun sm =>
           match Dict.get (NODES NODES_LIST) (sm_node_id sm) with
           | None => mret tt
           | Some node => send (NetDelete node bucket (shard_key sm))
           end) shard_meta;
  mret tt.

Definition delete_object (bucket key : string) : M Response :=
  obj ← World.get_object_metadata bucket key None;
  match obj with
  | None => mret (StatusOnly "not_found")
  | Some obj =>
      _ ← delete_shards bucket (shards obj);
      (* 3. Delete from DB *)
      _ ← World.delete_object_metadata bucket key;
      _ ← broadcast (DeleteEvent bucket key "api");
      mret (StatusOnly "deleted")
  end.
End Registry.

End Gateway.

(** ** gateway/s3_api.py *)

Module S3Api.
Import Config Metadata World Gateway.

Section Registry.
Variable env : Env.
Variable NODES_LIST : list NodeInfo.

(** shard_key = f"{key}/{upload_uuid}/{i}" *)
Definition shard_key_of (key upload_uuid : string) (i : nat) : string :=
  key +:+ "/" +:+ upload_uuid +:+ "/" +:+ pretty i.

Definition upload_shard_real (bucket key upload_uuid : string)
           (i : nat) (node : NodeInfo) (shard_val : list byte) : M ShardResult :=
  let shard_key_ := shard_key_of key upload_uuid i in
  put_shard env bucket shard_key_ i node shard_val.

(** the double-quote character *)
Definition dquote : string :=
  String (Ascii.Ascii false true false false false true false false) EmptyString.

(** headers={"ETag": f'"{etag}"'} *)
Definition etag_header (body : list byte) : list (string * string) :=
  [("ETag"%string, dquote +:+ md5_hex env body +:+ dquote)].

Definition put_object_s3 (bucket key : string) (body : list byte) : M Response :=
  (* 1. Ensure bucket exists *)
  ob ← World.get_bucket bucket;
  match ob with
  | None => mret (HttpResponse 404 [])
  | Some b =>
      let size := length body in
      let content_hash_ := sha256_hex env body in
      (* 3. Dedup Check *)
      db ← get_db;
      match select_content db content_hash_ with
      | Some existing_content =>
          obj ← dedup_hit env bucket key size content_hash_ existing_content "s3";
          mret (HttpResponse 200 (etag_header body))
      | None =>
          (* 4. EC Encode *)
          shards_data ← lift (Ec.encode_data body);
          let total_shards := length shards_data in
          (* 5. Distribute *)
          nodes ← lift (Config.get_nodes_for_shards NODES_LIST total_shards None);
          let quorum_size := 4 in
          upload_uuid ← draw_uuid env;
          results ← gather_uploads (upload_shard_real bucket key upload_uuid)
                                   nodes shards_data total_shards;
          let successful := List.filter success results in
          if length successful <? quorum_size then mret (HttpResponse 502 [])
          else
            (* 6. Store Content & Metadata *)
            let shard_meta := map to_meta successful in
            obj ← store_new_content env bucket key size content_hash_ shard_meta "s3";
            mret (HttpResponse 200 (etag_header body))
      end
  end.
End Registry.

End S3Api.

(** ** gateway/gc_service.py *)

Module GcService.
Import Config Metadata World Gateway.

Section Registry.
Variable env : Env.
Variable NODES_LIST : list NodeInfo.
(** RETENTION_DAYS, in the unit of the clock *)
Variable RETENTION : nat.

Definition is_old (cutoff : nat) (o : Object) : bool :=
  negb (is_latest o) && (created_at o <? cutoff).

(** cleanup_by_age: delete objects older than the retention period *)
Definition cleanup_by_age : M nat :=
  let cutoff := now env - RETENTION in
  db ← get_db;
  let old_objects := List.filter (is_old cutoff) (objects db) in
  _ ← for_each (fun obj => delete_shards NODES_LIST (bucket_name obj) (shards obj))
                 old_objects;
  _ ← set_db (set_objects db
                (List.filter
                   (fun o => negb (existsb (fun d => id d =? id o) old_objects))
                   (objects db)));
  mret (length old_objects).
End Registry.

End GcService.

(** ** Vectors and matrices over GF(2^8), for the proofs about the codec *)

Module LinAlg.
Import GF256 Zfec.

Fixpoint sum_prod (cs xs : list gf) : gf :=
  match cs, xs with
  | c :: cs', x :: xs' => gf_add (gf_mul c x) (sum_prod cs' xs')
  | _, _ => gf0
  end.

Definition vecmat (w : nat) (a : list gf) (r : matrix) : list gf :=
  map (fun j => sum_prod a (column j r)) (seq 0 w).

Fixpoint tuples (n : nat) (l : list nat) : list (list nat) :=
  match n with
  | O => [[]]
  | S n' => flat_map (fun x => map (cons x) (tuples n' l)) l
  end.

Definition list_gf_eqb (u v : list gf) : bool :=
  (length u =? length v) && forallb (fun p => Byte.eqb (fst p) (snd p)) (combine u v).

Definition decode_check (code : fec) (idxs : list nat) : bool :=
  let k := fec_k code in
  match arrange (2 * k + 1) k 0 (map (fun j => (j, j)) idxs) with
  | None => false
  | Some arr =>
      let index := map fst arr in
      (length arr =? k) &&
      forallb (fun cj => (fst cj =? snd cj) && (fst cj <? fec_n code)) arr &&
      match invert_mat k (build_decode_matrix code index) with
      | None => false
      | Some m_dec =>
          forallb (fun row =>
                     let c := nth row index 0 in
                     if c <? k then c =? row
                     else list_gf_eqb
                            (vecmat k (nth row m_dec [])
                                    (map (fun c => nth c (enc_matrix code) []) index))
                            (identity_row k row))
                  (seq 0 k)
      end
  end.
Definition on_snd {A B} (g : A -> B) (cb : nat * A) : nat * B :=
  (fst cb, g (snd cb)).

(** What [decode] does with the share ids alone: it refuses them when the
    arrangement meets an id twice or the matrix of their rows is singular. *)
Definition decode_refused (code : fec) (idxs : list nat) : bool :=
  let k := fec_k code in
  match arrange (2 * k + 1) k 0 (map (fun j => (j, j)) idxs) with
  | None => true
  | Some arr =>
      match invert_mat k (build_decode_matrix code (map fst arr)) with
      | None => true
      | Some _ => false
      end
  end.

(** The code of ec.py: Encoder(4, 6) *)
Definition code_4_6 : fec :=
  Eval vm_compute in
    match fec_new 4 6 with
    | Some c => c
    | None => {| fec_k := 4; fec_n := 6; enc_matrix := [] |}
    end.
End LinAlg.


(** ** What a write leaves behind, in the words of the pipeline's steps

    These definitions describe outcomes; the theorems below compare them
    with what the functions of main.py and s3_api.py compute. *)

Module PipelineSpec.
Import Config Metadata World Gateway.

(** The argument triples (i, nodes[i], shards_data[i]) for i < n *)
Definition shard_tasks (nodes : list NodeInfo) (shards_data : list (list byte))
           (n : nat) : list (nat * NodeInfo * list byte) :=
  combine (combine (seq 0 n) (firstn n nodes)) (firstn n shards_data).

(** The PUT of one task, under the key [keyf i] *)
Definition put_request (bucket : string) (keyf : nat -> string)
           (a : nat * NodeInfo * list byte) : NetReq :=
  NetPut (snd (fst a)) bucket (keyf (fst (fst a))) (snd a).

(** The result dictionary of one task *)
Definition put_outcome (env : Env) (bucket : string) (keyf : nat -> string)
           (a : nat * NodeInfo * list byte) : ShardResult :=
  {| success :=
       match put_status env (snd (fst a)) bucket (keyf (fst (fst a))) (snd a) with
       | Some code => code =? 200
       | None => false
       end;
     r_index := fst (fst a); r_node_id := node_id (snd (fst a));
     r_shard_key := keyf (fst (fst a)) |}.

(** The world after the shards were sent: only PUT requests were added. *)
Definition sent_world (w : World) (reqs : list NetReq) (uuids_drawn : nat) : World :=
  {| w_db := w_db w; w_net := w_net w ++ reqs; w_events := w_events w;
     w_uuid := uuids_drawn + w_uuid w |}.

(** The version row a write inserts *)
Definition new_version (db : DB) (ver_id : string) (now_ : nat) (bucket key : string)
           (size : nat) (layout : list ShardMeta) (h : string) : Object :=
  {| id := next_id db; bucket_name := bucket; object_key := key;
     version_id := ver_id; is_latest := true; size_bytes := size;
     shards := layout; created_at := now_; content_hash := Some h |}.

(** The tables after a version of [bucket]/[key] was committed over the
    content store [cs]: the prior latest flipped, the new row appended,
    content_hash written on the row(s) with the new id. *)
Definition committed_db (db : DB) (cs : gmap string ContentRow) (ver_id : string)
           (now_ : nat) (bucket key : string) (size : nat)
           (layout : list ShardMeta) (h : string) : DB :=
  {| buckets := buckets db;
     objects :=
       map (fun o => if id o =? next_id db then set_content_hash o h else o)
           (update_first (is_latest_of bucket key) (fun o => set_latest o false)
                         (objects db))
       ++ [new_version db ver_id now_ bucket key size layout h];
     content_store := cs;
     bucket_quotas := bucket_quotas db;
     next_id := S (next_id db) |}.

(** Dedup hit: refcount + 1, a new version on the same layout, one uuid
    drawn, one event, no request to a storage node. *)
Definition dedup_hit_world (env : Env) (w : World) (bucket key : string) (size : nat)
           (h : string) (row : ContentRow) (method : string) : World :=
  {| w_db := committed_db (w_db w)
               (<[h := {| cr_size_bytes := cr_size_bytes row;
                          cr_shards := cr_shards row;
                          refcount := (refcount row + 1)%Z |}]>
                  (content_store (w_db w)))
               (uuid4 env (w_uuid w)) (now env) bucket key size (cr_shards row) h;
     w_net := w_net w;
     w_events := w_events w ++ [UploadEvent bucket key size true method];
     w_uuid := S (w_uuid w) |}.

(** Dedup miss, quorum met: a content row with refcount 1 and the layout of
    the successful shards, and a new version on that layout. *)
Definition stored_world (env : Env) (w : World) (bucket key : string) (size : nat)
           (h : string) (layout : list ShardMeta) (method : string) : World :=
  {| w_db := committed_db (w_db w)
               (<[h := {| cr_size_bytes := size; cr_shards := layout;
                          refcount := 1%Z |}]> (content_store (w_db w)))
               (uuid4 env (w_uuid w)) (now env) bucket key size layout h;
     w_net := w_net w;
     w_events := w_events w ++ [UploadEvent bucket key size false method];
     w_uuid := S (w_uuid w) |}.

(** The DELETE requests of delete_object and of GC for one layout *)
Definition delete_requests (NODES_LIST : list NodeInfo) (bucket : string)
           (layout : list ShardMeta) : list NetReq :=
  omap (fun sm => option_map (fun node => NetDelete node bucket (shard_key sm))
                             (Dict.get (NODES NODES_LIST) (sm_node_id sm)))
       layout.

End PipelineSpec.

(** ** Concrete inputs used by the examples *)

Module Examples.
Import Config Metadata World.

(** b"hello" *)
Definition hello : list byte := [x68; x65; x6c; x6c; x6f].

Definition hello_shards : list (list byte) :=
  Eval vm_compute in
    match Ec.encode_data hello with Ok l => l | Raise _ => [] end.

(** The default STORAGE_NODES of config.py *)
Definition nodes6 : list NodeInfo :=
  [ {| node_id := "node1"; base_url := "http://localhost:9001" |};
    {| node_id := "node2"; base_url := "http://localhost:9002" |};
    {| node_id := "node3"; base_url := "http://localhost:9003" |};
    {| node_id := "node4"; base_url := "http://localhost:9004" |};
    {| node_id := "node5"; base_url := "http://localhost:9005" |};
    {| node_id := "node6"; base_url := "http://localhost:9006" |} ]%string.

(** A stand-in for the digests: the decimal codes of the bytes. *)
Definition toy_digest (l : list byte) : string :=
  String.concat "." (map (fun b => pretty (Byte.to_nat b)) l).

(** An environment in which the nodes of [up] answer 200 and the others 500. *)
Definition env_with (up : list string) : Env :=
  {| sha256_hex := fun l => ("sha-" +:+ toy_digest l)%string;
     md5_hex := fun l => ("md5-" +:+ toy_digest l)%string;
     uuid4 := fun n => ("uuid-" +:+ pretty n)%string;
     shuffle := fun l => l;
     put_status := fun n _ _ _ => if str_in (node_id n) up then Some 200 else Some 500;
     now := 1000 |}.

Definition all_up : Env :=
  env_with ["node1"; "node2"; "node3"; "node4"; "node5"; "node6"]%string.

Definition three_up : Env := env_with ["node1"; "node2"; "node3"]%string.

Definition empty_db : DB :=
  {| buckets := []; objects := []; content_store := ∅; bucket_quotas := ∅;
     next_id := 1 |}.

Definition world_of (db : DB) : World :=
  {| w_db := db; w_net := []; w_events := []; w_uuid := 0 |}.

(** A store with the bucket "b" and nothing else. *)
Definition w_bucket : World :=
  Eval vm_compute in fst (World.create_bucket "b" (world_of empty_db)).

(** "hello" stored once under b/k through the S3 endpoint ... *)
Definition w_stored : World :=
  Eval vm_compute in fst (S3Api.put_object_s3 all_up nodes6 "b" "k" hello w_bucket).

(** ... and once more under b/k2 through the primary endpoint (a dedup hit). *)
Definition w_shared : World :=
  Eval vm_compute in fst (Gateway.upload_object all_up nodes6 "b" "k2" hello "strong" None w_stored).

(** ... and "hello" put again under b/k through the S3 endpoint: the first
    version of b/k is no longer the latest. *)
Definition w_rewritten : World :=
  Eval vm_compute in fst (S3Api.put_object_s3 all_up nodes6 "b" "k" hello w_shared).

(** Thirty days, and the same environment forty days later (the clock of
    the examples counts days). *)
Definition thirty_days : nat := 30.

Definition later : Env :=
  {| sha256_hex := sha256_hex all_up; md5_hex := md5_hex all_up;
     uuid4 := uuid4 all_up; shuffle := shuffle all_up;
     put_status := put_status all_up; now := 1000 + 40 |}.

(** The layout of "hello" written by the S3 endpoint with the first uuid. *)
Definition hello_layout : list ShardMeta :=
  [ {| index := 0; sm_node_id := "node1"; shard_key := "k/uuid-0/0" |};
    {| index := 1; sm_node_id := "node2"; shard_key := "k/uuid-0/1" |};
    {| index := 2; sm_node_id := "node3"; shard_key := "k/uuid-0/2" |};
    {| index := 3; sm_node_id := "node4"; shard_key := "k/uuid-0/3" |};
    {| index := 4; sm_node_id := "node5"; shard_key := "k/uuid-0/4" |};
    {| index := 5; sm_node_id := "node6"; shard_key := "k/uuid-0/5" |} ]%string.

(** A bucket "b2" limited to one object, which it already holds; the empty
    blob is in the content store (uploaded earlier to another bucket). *)
Definition db_quota : DB :=
  {| buckets := [ {| name := "b2"; versioning_enabled := false |} ];
     objects :=
       [ {| id := 1; bucket_name := "b2"; object_key := "first";
            version_id := "v1"; is_latest := true; size_bytes := 5; shards := [];
            created_at := 900; content_hash := Some "sha-other"%string |} ];
     content_store :=
       {[ sha256_hex all_up [] :=
            {| cr_size_bytes := 0; cr_shards := []; refcount := 1%Z |} ]};
     bucket_quotas :=
       {[ "b2"%string := {| max_size_bytes := 1000%Z; max_objects := 1%Z |} ]};
     next_id := 2 |}.

Definition w_quota : World := world_of db_quota.

End Examples.

(** ** Reading objects back: download_object (main.py) and get_object_s3
       (s3_api.py) *)

Module Download.
Import Config Metadata World.

(** shard_meta.sort(key=lambda x: x["index"]): list.sort is stable *)
Fixpoint insert_by_index (sm : ShardMeta) (l : list ShardMeta) : list ShardMeta :=
  match l with
  | [] => [sm]
  | sm' :: l' =>
      if index sm <=? index sm' then sm :: sm' :: l'
      else sm' :: insert_by_index sm l'
  end.

Definition sort_by_index (l : list ShardMeta) : list ShardMeta :=
  fold_right insert_by_index [] l.

(** What get_object_s3 returns *)
Record S3Response : Type :=
  { status_code : nat;
    content : list byte;
    headers : list (string * string) }.

Section Registry.
Variable env : Env.
Variable NODES_LIST : list NodeInfo.
(** The body of a 200 answer to GET {base_url}/internal/objects/{bucket}/{shard_key};
    [None] for any other status and when requests.get raises. *)
Variable fetch : NodeInfo -> string -> string -> option (list byte).
(** created_at.strftime("%a, %d %b %Y %H:%M:%S GMT") *)
Variable http_date : nat -> string.

(** The loop of download_object: stop once K shards are in hand, skip the
    shards whose node is unknown or does not answer 200. *)
Fixpoint fetch_loop (bucket : string) (shard_meta : list ShardMeta)
         (retrieved_shards : list (list byte)) (retrieved_indices : list nat)
  : list (list byte) * list nat :=
  match shard_meta with
  | [] => (retrieved_shards, retrieved_indices)
  | sm :: rest =>
      if Ec.K <=? length retrieved_shards then (retrieved_shards, retrieved_indices)
      else
        match Dict.get (NODES NODES_LIST) (sm_node_id sm) with
        | None => fetch_loop bucket rest retrieved_shards retrieved_indices
        | Some node =>
            match fetch node bucket (shard_key sm) with
            | Some resp_content =>
                fetch_loop bucket rest (retrieved_shards ++ [resp_content])
                           (retrieved_indices ++ [index sm])
            | None => fetch_loop bucket rest retrieved_shards retrieved_indices
            end
        end
  end.

Definition download_object (bucket key : string) (version_id_ : option string)
  : M (list byte) :=
  (* 1. Get Metadata *)
  obj ← World.get_object_metadata bucket key version_id_;
  match obj with
  | None => raise (HTTPException 404 [])
  | Some obj =>
      (* 2. Fetch Shards *)
      let shard_meta := sort_by_index (shards obj) in
      let '(retrieved_shards, retrieved_indices) :=
        fetch_loop bucket shard_meta [] [] in
      if length retrieved_shards <? Ec.K then raise (HTTPException 502 [])
      else
        (* 3. Decode *)
        match Ec.decode_data retrieved_shards retrieved_indices (size_bytes obj) with
        | Ok original_data => mret original_data
        | Raise _ => raise (HTTPException 500 [])
        end
  end.

(** fetch_shard of get_object_s3 *)
Definition fetch_shard (bucket : string) (info : ShardMeta) : option (nat * list byte) :=
  match Dict.get (NODES NODES_LIST) (sm_node_id info) with
  | None => None
  | Some node =>
      match fetch node bucket (shard_key info) with
      | Some resp_content => Some (index info, resp_content)
      | None => None
      end
  end.

(** The nodes serve nothing but what the layout says: whatever is fetched
    for an entry of [l] under [bucket] is the shard of that index among
    [shards_data]. *)
Definition served_right (shards_data : list (list byte)) (bucket : string)
           (l : list ShardMeta) : Prop :=
  forall sm node c,
    In sm l -> Dict.get (NODES NODES_LIST) (sm_node_id sm) = Some node ->
    fetch node bucket (shard_key sm) = Some c -> c = nth (index sm) shards_data [].

(** for r in results: if r: append; if len(retrieved_shards) >= K: break *)
Fixpoint collect (results : list (option (nat * list byte)))
         (retrieved_shards : list (list byte)) (retrieved_indices : list nat)
  : list (list byte) * list nat :=
  match results with
  | [] => (retrieved_shards, retrieved_indices)
  | None :: rest => collect rest retrieved_shards retrieved_indices
  | Some r :: rest =>
      let retrieved_shards := retrieved_shards ++ [snd r] in
      let retrieved_indices := retrieved_indices ++ [fst r] in
      if 4 <=? length retrieved_shards then (retrieved_shards, retrieved_indices)
      else collect rest retrieved_shards retrieved_indices
  end.

(** get_object_s3.  The Object class of metadata.py declares no
    content_hash attribute, so hasattr(obj, 'content_hash') is false and
    the ETag is the MD5 digest of the decoded bytes. *)
Definition get_object_s3 (bucket key : string) : M S3Response :=
  obj ← World.get_object_metadata bucket key None;
  match obj with
  | None => mret {| status_code := 404; content := []; headers := [] |}
  | Some obj =>
      let shards_info := shards obj in
      let results := map (fetch_shard bucket) shards_info in
      let '(retrieved_shards, retrieved_indices) := collect results [] [] in
      if length retrieved_shards <? 4 then
        mret {| status_code := 502; content := []; headers := [] |}
      else
        original_data ← lift (Ec.decode_data retrieved_shards retrieved_indices
                                             (size_bytes obj));
        let etag := S3Api.dquote +:+ md5_hex env original_data +:+ S3Api.dquote in
        mret {| status_code := 200; content := original_data;
                headers := [ ("ETag", etag);
                             ("Content-Length", pretty (length original_data));
                             ("Last-Modified", http_date (created_at obj)) ]%string |}
  end.

(** head_object_s3: the same hasattr test leaves the ETag empty. *)
Definition head_object_s3 (bucket key : string) : M S3Response :=
  obj ← World.get_object_metadata bucket key None;
  match obj with
  | None => mret {| status_code := 404; content := []; headers := [] |}
  | Some obj =>
      mret {| status_code := 200; content := [];
              headers := [ ("ETag", "");
                           ("Content-Length", pretty (size_bytes obj));
                           ("Last-Modified", http_date (created_at obj));
                           ("Content-Type", "application/octet-stream") ]%string |}
  end.
End Registry.

End Download.

(** ** The row filters of get_object_metadata *)

Module Queries.
Import Config Metadata.

(** existing.is_latest = False *)
Definition unset_latest (o : Object) : Object := set_latest o false.

(** filter_by(bucket_name=bucket, object_key=key).filter_by(version_id=v) *)
Definition is_version_of (bucket key v : string) (o : Object) : bool :=
  same_key bucket key o && String.eqb (version_id o) v.

End Queries.

(** ** quota_manager.py: set_quota *)

Module QuotaAdmin.
Import Metadata.

(** INSERT INTO bucket_quotas (bucket_name, max_size_bytes, max_objects)
    VALUES (:bucket, :size, :objects)
    ON CONFLICT (bucket_name) DO UPDATE SET max_size_bytes = :size,
                                            max_objects = :objects *)
Definition set_quota (db : DB) (bucket : string) (max_size_bytes_ max_objects_ : Z)
  : DB :=
  {| buckets := buckets db; objects := objects db;
     content_store := content_store db;
     bucket_quotas :=
       <[bucket := {| max_size_bytes := max_size_bytes_;
                      max_objects := max_objects_ |}]> (bucket_quotas db);
     next_id := next_id db |}.

End QuotaAdmin.

(** ** gateway/gc_service.py: cleanup_old_versions *)

Module GcVersions.
Import Config Metadata World Gateway.

Section Registry.
Variable NODES_LIST : list NodeInfo.
(** MAX_VERSIONS_PER_OBJECT *)
Variable MAX_VERSIONS : nat.
(** db.query(Object).order_by(Object.bucket_name, Object.object_key,
    Object.created_at.desc()).all(): the rows in the order the database
    returns them *)
Variable order_by : list Object -> list Object.

(** key_identifier = f"{obj.bucket_name}/{obj.object_key}" *)
Definition key_identifier (obj : Object) : string :=
  bucket_name obj +:+ "/" +:+ object_key obj.

(** The loop over all_objects; the rows handed to db.delete are returned. *)
Fixpoint versions_loop (all_objects : list Object) (current_key : option string)
         (version_count : nat) : M (list Object) :=
  match all_objects with
  | [] => mret []
  | obj :: rest =>
      (* Reset counter for new key *)
      let same := match current_key with
                  | Some k => String.eqb (key_identifier obj) k
                  | None => false
                  end in
      let current_key := if same then current_key else Some (key_identifier obj) in
      let version_count := if same then version_count else 0 in
      let version_count := version_count + 1 in
      (* Keep latest version always *)
      if is_latest obj then versions_loop rest current_key version_count
      else if MAX_VERSIONS <? version_count then
        _ ← delete_shards NODES_LIST (bucket_name obj) (shards obj);
        deleted ← versions_loop rest current_key version_count;
        mret (obj :: deleted)
      else versions_loop rest current_key version_count
  end.

Definition cleanup_old_versions : M nat :=
  db ← get_db;
  let all_objects := order_by (objects db) in
  deleted ← versions_loop all_objects None 0;
  _ ← set_db (set_objects db
                (List.filter
                   (fun o => negb (existsb (fun d => id d =? id o) deleted))
                   (objects db)));
  mret (length deleted).
End Registry.

End GcVersions.

(** ** gateway/rate_limiter.py *)

Module RateLimiter.

(** self.requests: ip -> timestamps, a defaultdict(list).  A timestamp is
    the reading of time.time() in ticks of the clock. *)
Abbreviation requests_t := (gmap string (list Z)) (only parsing).

Section Limiter.
(** requests_per_minute (100 for the global instance) *)
Variable requests_per_minute : nat.
(** window_size = 60 seconds, in ticks *)
Variable window_size : Z.

(** is_allowed at clock reading [now]: (allowed, remaining_requests) *)
Definition is_allowed (now : Z) (ip : string) (requests : requests_t)
  : requests_t * (bool * nat) :=
  let cutoff := (now - window_size)%Z in
  (* Clean old requests *)
  let kept := List.filter (fun ts => (cutoff <? ts)%Z) (default [] (requests !! ip)) in
  (* Check limit *)
  let current_count := length kept in
  if requests_per_minute <=? current_count then (<[ip := kept]> requests, (false, 0))
  else
    (* Add this request *)
    (<[ip := kept ++ [now]]> requests, (true, requests_per_minute - current_count - 1)).

(** cleanup_old_entries at clock reading [now] *)
Definition cleanup_old_entries (now : Z) (requests : requests_t) : requests_t :=
  let cutoff := (now - window_size * 2)%Z in
  omap (fun timestamps =>
          match List.filter (fun ts => (cutoff <? ts)%Z) timestamps with
          | [] => None
          | recent => Some recent
          end) requests.

(** What RateLimitMiddleware.dispatch does with a request *)
Inductive verdict : Type :=
| Exempt                          (* call_next, no headers added *)
| Limited                         (* 429, Retry-After: 60 *)
| Passed (limit remaining : nat). (* call_next, X-RateLimit-* headers *)

Definition dispatch (now : Z) (url_path : string) (client_host : option string)
           (requests : requests_t) : requests_t * verdict :=
  (* Skip rate limiting for certain paths (admin, health checks) *)
  if String.prefix "/admin" url_path || String.eqb url_path "/health" then
    (requests, Exempt)
  else
    let client_ip := default "unknown"%string client_host in
    let '(requests', (allowed, remaining)) := is_allowed now client_ip requests in
    if allowed then (requests', Passed requests_per_minute remaining)
    else (requests', Limited).

(** The calls (clock reading, ip) served one after another; the calls that
    were allowed are collected in order. *)
Definition serve_one (acc : requests_t * list (Z * string)) (call : Z * string)
  : requests_t * list (Z * string) :=
  let '(requests', (allowed, _)) := is_allowed (fst call) (snd call) (fst acc) in
  (requests', if allowed then snd acc ++ [call] else snd acc).

Definition serve (calls : list (Z * string)) (requests : requests_t)
  : requests_t * list (Z * string) :=
  fold_left serve_one calls (requests, []).

(** The allowed calls of [ip] that fall in the window ending at [t] *)
Definition in_window (ip : string) (t : Z) (call : Z * string) : bool :=
  String.eqb (snd call) ip && (t - window_size <? fst call)%Z && (fst call <=? t)%Z.
End Limiter.

End RateLimiter.

(** ** storage_node/main.py: object_path *)

Module StorageNode.

(** The characters "." and "_" *)
Definition dot : Ascii.ascii := Ascii.Ascii false true true true false true false false.
Definition underscore : Ascii.ascii :=
  Ascii.Ascii true true true true true false true false.

Definition is_dot (c : Ascii.ascii) : bool := Ascii.eqb c dot.

(** s.replace("..", "_"): the occurrences are replaced from the left,
    without overlap *)
Fixpoint replace_dotdot (s : string) : string :=
  match s with
  | EmptyString => EmptyString
  | String c s' =>
      match s' with
      | EmptyString => String c EmptyString
      | String c' s'' =>
          if is_dot c && is_dot c' then String underscore (replace_dotdot s'')
          else String c (replace_dotdot s')
      end
  end.

(** ".." in s *)
Fixpoint has_dotdot (s : string) : bool :=
  match s with
  | EmptyString => false
  | String c s' =>
      match s' with
      | EmptyString => false
      | String c' _ => (is_dot c && is_dot c') || has_dotdot s'
      end
  end.

(** The two path components object_path puts under DATA_DIR *)
Definition object_path (bucket key : string) : string * string :=
  let safe_bucket := replace_dotdot bucket in
  let safe_key := replace_dotdot key in
  (safe_bucket, safe_key).

End StorageNode.

(** ** gateway/config.py: parse_nodes *)

Module ParseNodes.
Import Config.

(** The characters "," and ":" *)
Definition comma : Ascii.ascii := Ascii.Ascii false false true true false true false false.
Definition colon : Ascii.ascii := Ascii.Ascii false true false true true true false false.

(** str.isspace() on the code points below 256 *)
Definition is_space (c : Ascii.ascii) : bool :=
  existsb (Nat.eqb (Ascii.nat_of_ascii c)) [9; 10; 11; 12; 13; 28; 29; 30; 31; 32; 133; 160].

(** s.split(",") *)
Fixpoint split_comma (s : string) : list string :=
  match s with
  | EmptyString => [EmptyString]
  | String c s' =>
      if Ascii.eqb c comma then EmptyString :: split_comma s'
      else match split_comma s' with
           | part :: parts => String c part :: parts
           | [] => [String c EmptyString]
           end
  end.

Fixpoint lstrip (s : string) : string :=
  match s with
  | EmptyString => EmptyString
  | String c s' => if is_space c then lstrip s' else s
  end.

Fixpoint rstrip (s : string) : string :=
  match s with
  | EmptyString => EmptyString
  | String c s' =>
      match rstrip s' with
      | EmptyString => if is_space c then EmptyString else String c EmptyString
      | r => String c r
      end
  end.

(** part.strip() *)
Definition strip (s : string) : string := rstrip (lstrip s).

(** idx = part.find(":"); (part[:idx], part[idx+1:]), when ":" in part *)
Fixpoint cut_at_colon (part : string) : option (string * string) :=
  match part with
  | EmptyString => None
  | String c s' =>
      if Ascii.eqb c colon then Some (EmptyString, s')
      else match cut_at_colon s' with
           | Some (nid, url) => Some (String c nid, url)
           | None => None
           end
  end.

Definition parse_nodes (env_value : string) : list NodeInfo :=
  omap (fun part =>
          let part := strip part in
          if String.eqb part "" then None
          else match cut_at_colon part with
               | Some (nid, url) => Some {| node_id := nid; base_url := url |}
               | None => None
               end)
       (split_comma env_value).

(** The format of STORAGE_NODES: "node1:http://storage-node-1:9001,..." *)
Definition format_node (n : NodeInfo) : string :=
  node_id n +:+ String colon (base_url n).

Definition format_nodes (nodes : list NodeInfo) : string :=
  String.concat (String comma EmptyString) (map format_node nodes).

(** c in s *)
Fixpoint occurs (c : Ascii.ascii) (s : string) : bool :=
  match s with
  | EmptyString => false
  | String c' s' => Ascii.eqb c' c || occurs c s'
  end.

(** An entry that the format can carry: no "," in either field, no ":" in
    the id, no white space where strip() would remove it. *)
Definition well_formed (n : NodeInfo) : bool :=
  negb (occurs comma (node_id n)) && negb (occurs colon (node_id n))
  && negb (occurs comma (base_url n))
  && negb (match node_id n with String c _ => is_space c | EmptyString => false end)
  && String.eqb (rstrip (base_url n)) (base_url n).

End ParseNodes.

(** ** Storage nodes as they answer in the examples *)

Module Scenarios.
Import Config Metadata World.

Definition addressed (node : NodeInfo) (bucket key : string) (r : NetReq) : bool :=
  match r with
  | NetPut n b k _ | NetDelete n b k =>
      NodeInfo_eqb n node && String.eqb b bucket && String.eqb k key
  end.

(** What a node holds under bucket/key after the requests [net] (newest
    last), every PUT having been stored and every DELETE carried out. *)
Definition held (net : list NetReq) (node : NodeInfo) (bucket key : string)
  : option (list byte) :=
  match find (addressed node bucket key) (rev net) with
  | Some (NetPut _ _ _ body) => Some body
  | _ => None
  end.

(** The answers to GET when the nodes of [down] are unreachable. *)
Definition serving (down : list string) (net : list NetReq)
           (node : NodeInfo) (bucket key : string) : option (list byte) :=
  if str_in (node_id node) down then None else held net node bucket key.

(** A clock rendering for the Last-Modified header of the examples *)
Definition day_stamp (t : nat) : string := "day " +:+ pretty t.

(** A multipart session for b/big, just initiated (its id is "uuid-0") *)
Definition mp_session : Multipart.State :=
  Eval vm_compute in
    fst (Multipart.initiate_upload Examples.all_up "b" "big"
           {| Multipart.multipart_uploads := []; Multipart.tmp_files := ∅;
              Multipart.uuids_drawn := 0 |}).

(** Three parts, sent out of order *)
Definition three_parts : list (Z * list byte) :=
  [ (2%Z, [x6c; x6c]); (3%Z, [x6f]); (1%Z, [x68; x65]) ].

End Scenarios.

(** ** Shard keys: the separator of their segments *)

Module ShardKeys.



End ShardKeys.

(** * Properties *)

(** ** GF(2^8) is a field of characteristic two *)

Module GF256Facts.
Import GF256.

Ltac bitwise tac :=
  cbn; repeat (apply (f_equal2 (@pair _ _))); tac.

Lemma gf_add_comm (a b : gf) : gf_add a b = gf_add b a.
Proof.
  unfold gf_add. f_equal.
  destruct (to_bits a) as (a0 & a1 & a2 & a3 & a4 & a5 & a6 & a7).
  destruct (to_bits b) as (b0 & b1 & b2 & b3 & b4 & b5 & b6 & b7).
  bitwise ltac:(apply xorb_comm).
Qed.

Lemma gf_add_assoc (a b c : gf) : gf_add a (gf_add b c) = gf_add (gf_add a b) c.
Proof.
  unfold gf_add. rewrite !to_bits_of_bits. f_equal.
  destruct (to_bits a) as (a0 & a1 & a2 & a3 & a4 & a5 & a6 & a7).
  destruct (to_bits b) as (b0 & b1 & b2 & b3 & b4 & b5 & b6 & b7).
  destruct (to_bits c) as (c0 & c1 & c2 & c3 & c4 & c5 & c6 & c7).
  bitwise ltac:(symmetry; apply xorb_assoc).
Qed.

Lemma gf_add_0_l (a : gf) : gf_add gf0 a = a.
Proof.
  unfold gf_add, gf0. rewrite <- (of_bits_to_bits a) at 2. f_equal.
  destruct (to_bits a) as (a0 & a1 & a2 & a3 & a4 & a5 & a6 & a7).
  cbn. reflexivity.
Qed.

Lemma gf_add_0_r (a : gf) : gf_add a gf0 = a.
Proof. rewrite gf_add_comm. apply gf_add_0_l. Qed.

Lemma gf_add_self (a : gf) : gf_add a a = gf0.
Proof.
  unfold gf_add, gf0.
  destruct (to_bits a) as (a0 & a1 & a2 & a3 & a4 & a5 & a6 & a7).
  cbn. rewrite !xorb_nilpotent. reflexivity.
Qed.

Lemma xtime_add (a b : gf) : xtime (gf_add a b) = gf_add (xtime a) (xtime b).
Proof.
  unfold xtime, gf_add. rewrite !to_bits_of_bits. f_equal.
  destruct (to_bits a) as (a0 & a1 & a2 & a3 & a4 & a5 & a6 & a7).
  destruct (to_bits b) as (b0 & b1 & b2 & b3 & b4 & b5 & b6 & b7).
  bitwise ltac:(repeat match goal with
                       | |- context [xorb ?x _] => is_var x; destruct x
                       | |- context [xorb _ ?x] => is_var x; destruct x
                       end; reflexivity).
Qed.

Lemma is_zero_true (a : gf) : is_zero a = true <-> a = gf0.
Proof.
  unfold is_zero, gf0. split.
  - apply byte_dec_bl.
  - intros ->. reflexivity.
Qed.

Lemma is_zero_false (a : gf) : is_zero a = false <-> a <> gf0.
Proof.
  rewrite <- is_zero_true. destruct (is_zero a); split; congruence.
Qed.

Lemma gf_log_lt (a : gf) : a <> gf0 -> gf_log a < 255.
Proof. destruct a; intros H; try (exfalso; apply H; reflexivity); vm_compute; lia. Qed.

Lemma gf_exp_log (a : gf) : a <> gf0 -> gf_exp (gf_log a) = a.
Proof. destruct a; intros H; try (exfalso; apply H; reflexivity); vm_compute; reflexivity. Qed.

Lemma exp_table_ok :
  forallb (fun i => negb (is_zero (gf_exp i)) && (gf_log (gf_exp i) =? i)) (seq 0 255) = true.
Proof. vm_compute. reflexivity. Qed.

Lemma gf_exp_mod (i : nat) : gf_exp (i mod 255) = gf_exp i.
Proof. unfold gf_exp, modnn. rewrite Nat.Div0.mod_mod. reflexivity. Qed.

Lemma gf_exp_small (i : nat) :
  i < 255 -> gf_exp i <> gf0 /\ gf_log (gf_exp i) = i.
Proof.
  intros Hi. pose proof exp_table_ok as H.
  rewrite forallb_forall in H. specialize (H i).
  assert (Hin : In i (seq 0 255)) by (apply in_seq; lia).
  apply H in Hin. apply andb_prop in Hin as [H1 H2].
  split.
  - apply is_zero_false. destruct (is_zero (gf_exp i)); [discriminate | reflexivity].
  - apply Nat.eqb_eq. exact H2.
Qed.

Lemma gf_exp_nonzero (i : nat) : gf_exp i <> gf0.
Proof.
  rewrite <- gf_exp_mod. apply gf_exp_small. apply Nat.mod_upper_bound. lia.
Qed.

Lemma gf_log_exp (i : nat) : gf_log (gf_exp i) = i mod 255.
Proof.
  rewrite <- gf_exp_mod. apply gf_exp_small. apply Nat.mod_upper_bound. lia.
Qed.

Lemma gf_mul_0_l (a : gf) : gf_mul gf0 a = gf0.
Proof. reflexivity. Qed.

Lemma gf_mul_0_r (a : gf) : gf_mul a gf0 = gf0.
Proof. unfold gf_mul. rewrite orb_comm. reflexivity. Qed.

Lemma gf_mul_exp (i j : nat) : gf_mul (gf_exp i) (gf_exp j) = gf_exp (i + j).
Proof.
  unfold gf_mul.
  rewrite (proj2 (is_zero_false _) (gf_exp_nonzero i)).
  rewrite (proj2 (is_zero_false _) (gf_exp_nonzero j)). cbn [orb].
  rewrite !gf_log_exp. rewrite <- gf_exp_mod.
  rewrite <- Nat.Div0.add_mod. apply gf_exp_mod.
Qed.

Lemma gf_mul_comm (a b : gf) : gf_mul a b = gf_mul b a.
Proof. unfold gf_mul. rewrite orb_comm, Nat.add_comm. reflexivity. Qed.

Lemma gf_mul_nonzero (a b : gf) : a <> gf0 -> b <> gf0 -> gf_mul a b <> gf0.
Proof.
  intros Ha Hb. rewrite <- (gf_exp_log a Ha), <- (gf_exp_log b Hb).
  rewrite gf_mul_exp. apply gf_exp_nonzero.
Qed.

Lemma gf_mul_assoc (a b c : gf) : gf_mul a (gf_mul b c) = gf_mul (gf_mul a b) c.
Proof.
  destruct (is_zero a) eqn:Ha.
  { apply is_zero_true in Ha. subst. reflexivity. }
  destruct (is_zero b) eqn:Hb.
  { apply is_zero_true in Hb. subst. rewrite gf_mul_0_l, !gf_mul_0_r. reflexivity. }
  destruct (is_zero c) eqn:Hc.
  { apply is_zero_true in Hc. subst. rewrite !gf_mul_0_r. reflexivity. }
  apply is_zero_false in Ha, Hb, Hc.
  rewrite <- (gf_exp_log a Ha), <- (gf_exp_log b Hb), <- (gf_exp_log c Hc).
  rewrite !gf_mul_exp. f_equal. lia.
Qed.

Lemma gf_mul_1_l (a : gf) : gf_mul gf1 a = a.
Proof.
  destruct (is_zero a) eqn:Ha.
  { apply is_zero_true in Ha. subst. reflexivity. }
  apply is_zero_false in Ha.
  rewrite <- (gf_exp_log a Ha) at 1.
  change gf1 with (gf_exp 0). rewrite gf_mul_exp. cbn [Nat.add].
  apply gf_exp_log, Ha.
Qed.

Lemma gf_mul_xtime (a : gf) : gf_mul (gf_exp 1) a = xtime a.
Proof. destruct a; vm_compute; reflexivity. Qed.

Lemma gf_mul_exp_add_r (i : nat) (b c : gf) :
  gf_mul (gf_exp i) (gf_add b c) = gf_add (gf_mul (gf_exp i) b) (gf_mul (gf_exp i) c).
Proof.
  induction i as [|i IH].
  - change (gf_exp 0) with gf1. rewrite !gf_mul_1_l. reflexivity.
  - change (S i) with (1 + i). rewrite <- gf_mul_exp.
    rewrite <- !gf_mul_assoc. rewrite IH.
    rewrite !gf_mul_xtime. apply xtime_add.
Qed.

Lemma gf_mul_add_r (a b c : gf) :
  gf_mul a (gf_add b c) = gf_add (gf_mul a b) (gf_mul a c).
Proof.
  destruct (is_zero a) eqn:Ha.
  { apply is_zero_true in Ha. subst. reflexivity. }
  apply is_zero_false in Ha.
  rewrite <- (gf_exp_log a Ha). apply gf_mul_exp_add_r.
Qed.

Lemma gf_mul_add_l (a b c : gf) :
  gf_mul (gf_add a b) c = gf_add (gf_mul a c) (gf_mul b c).
Proof. rewrite !(gf_mul_comm _ c). apply gf_mul_add_r. Qed.

Lemma gf_ring : ring_theory gf0 gf1 gf_add gf_mul gf_add (fun a => a) eq.
Proof.
  constructor.
  - apply gf_add_0_l.
  - apply gf_add_comm.
  - apply gf_add_assoc.
  - apply gf_mul_1_l.
  - apply gf_mul_comm.
  - apply gf_mul_assoc.
  - apply gf_mul_add_l.
  - reflexivity.
  - apply gf_add_self.
Qed.

Add Ring gf_ring_inst : gf_ring.

End GF256Facts.

(** ** Linear combinations of blocks *)

Module LinAlgFacts.
Import GF256 Zfec GF256Facts LinAlg.

Lemma sum_prod_nil_r cs : sum_prod cs [] = gf0.
Proof. destruct cs; reflexivity. Qed.

Lemma nth_zip_with {A B C} (f : A -> B -> C) (l1 : list A) (l2 : list B) p d1 d2 d :
  p < length l1 -> p < length l2 ->
  nth p (zip_with f l1 l2) d = f (nth p l1 d1) (nth p l2 d2).
Proof.
  revert l2 p. induction l1 as [|a l1 IH]; intros [|b l2] p H1 H2; cbn in *; try lia.
  destruct p; [reflexivity|]. apply IH; lia.
Qed.

Lemma length_zip_with_same {A B C} (f : A -> B -> C) (l1 : list A) (l2 : list B) :
  length l1 = length l2 -> length (zip_with f l1 l2) = length l1.
Proof.
  revert l2. induction l1 as [|a l1 IH]; intros [|b l2] H; cbn in *; try lia.
  f_equal. apply IH. lia.
Qed.

Lemma length_addmul dst src c :
  length dst = length src -> length (addmul dst src c) = length dst.
Proof. apply length_zip_with_same. Qed.

Lemma fold_addmul_spec (sz : nat) (cs : list gf) (pkts : list block) (acc : block) :
  length acc = sz ->
  Forall (fun b => length b = sz) pkts ->
  let r := fold_left (fun acc cp => addmul acc (snd cp) (fst cp)) (combine cs pkts) acc in
  length r = sz /\
  forall p, p < sz ->
    nth p r gf0 = gf_add (nth p acc gf0) (sum_prod cs (map (fun b => nth p b gf0) pkts)).
Proof.
  revert pkts acc. induction cs as [|c cs IH]; intros pkts acc Hacc Hall; cbn.
  - split; [exact Hacc|]. intros p _. rewrite gf_add_0_r. reflexivity.
  - destruct pkts as [|b pkts]; cbn.
    + split; [exact Hacc|]. intros p _. rewrite gf_add_0_r. reflexivity.
    + pose proof (Forall_inv Hall) as Hb. cbn beta in Hb.
      pose proof (Forall_inv_tail Hall) as Hall'.
      assert (Hlen : length (addmul acc b c) = sz).
      { rewrite length_addmul; lia. }
      destruct (IH pkts (addmul acc b c) Hlen Hall') as [IH1 IH2].
      split; [exact IH1|]. intros p Hp.
      rewrite IH2 by exact Hp.
      unfold addmul at 1.
      rewrite (nth_zip_with _ _ _ _ gf0 gf0) by lia.
      rewrite gf_add_assoc. reflexivity.
Qed.

Lemma nth_repeat_gf0 p sz : nth p (repeat gf0 sz) gf0 = gf0.
Proof. revert p. induction sz; intros [|p]; cbn; auto. Qed.

Lemma length_lincomb sz cs pkts :
  Forall (fun b => length b = sz) pkts -> length (lincomb sz cs pkts) = sz.
Proof.
  intros H. unfold lincomb.
  apply (fold_addmul_spec sz cs pkts (repeat gf0 sz)); [apply repeat_length | exact H].
Qed.

Lemma nth_lincomb sz cs pkts p :
  Forall (fun b => length b = sz) pkts -> p < sz ->
  nth p (lincomb sz cs pkts) gf0 = sum_prod cs (map (fun b => nth p b gf0) pkts).
Proof.
  intros H Hp. unfold lincomb.
  destruct (fold_addmul_spec sz cs pkts (repeat gf0 sz)) as [_ H2];
    [apply repeat_length | exact H |].
  rewrite H2 by exact Hp. rewrite nth_repeat_gf0. apply gf_add_0_l.
Qed.

Lemma sum_prod_map_add {A} (g h : A -> gf) (l : list A) (x : list gf) :
  sum_prod (map (fun j => gf_add (g j) (h j)) l) x =
  gf_add (sum_prod (map g l) x) (sum_prod (map h l) x).
Proof.
  revert x. induction l as [|j l IH]; intros [|x0 x]; cbn [map sum_prod];
    try (symmetry; apply gf_add_0_l).
  rewrite IH. ring.
Qed.

Lemma sum_prod_map_scale {A} (a : gf) (g : A -> gf) (l : list A) (x : list gf) :
  sum_prod (map (fun j => gf_mul a (g j)) l) x = gf_mul a (sum_prod (map g l) x).
Proof.
  revert x. induction l as [|j l IH]; intros [|x0 x]; cbn [map sum_prod];
    try (rewrite gf_mul_0_r; reflexivity).
  rewrite IH. ring.
Qed.

Lemma sum_prod_map_zero {A} (l : list A) (x : list gf) :
  sum_prod (map (fun _ => gf0) l) x = gf0.
Proof.
  revert x. induction l as [|j l IH]; intros [|x0 x]; cbn [map sum_prod]; try reflexivity.
  rewrite IH. reflexivity.
Qed.

Lemma map_nth_seq_gf (r : list gf) :
  map (fun j => nth j r gf0) (seq 0 (length r)) = r.
Proof.
  induction r as [|a r IH]; cbn; [reflexivity|].
  f_equal. rewrite <- seq_shift, map_map. exact IH.
Qed.

(** (a R) x = a (R x) *)
Lemma sum_prod_vecmat (w : nat) (a : list gf) (r : matrix) (x : list gf) :
  Forall (fun row => length row = w) r ->
  sum_prod (vecmat w a r) x = sum_prod a (map (fun row => sum_prod row x) r).
Proof.
  unfold vecmat. revert r. induction a as [|a0 a IH]; intros r Hr.
  - cbn. apply sum_prod_map_zero.
  - destruct r as [|row r].
    + cbn. apply sum_prod_map_zero.
    + inversion Hr as [|? ? Hrow Hr']; subst.
      cbn [column map sum_prod].
      rewrite sum_prod_map_add, sum_prod_map_scale.
      rewrite map_nth_seq_gf.
      f_equal. apply IH. exact Hr'.
Qed.

Lemma list_gf_eqb_eq u v : list_gf_eqb u v = true -> u = v.
Proof.
  unfold list_gf_eqb. revert v. induction u as [|a u IH]; intros [|b v]; cbn; try discriminate.
  - reflexivity.
  - intros H. apply andb_prop in H as [H1 H2]. apply andb_prop in H2 as [H2 H3].
    apply byte_dec_bl in H2. subst. f_equal. apply IH.
    rewrite H1, H3. reflexivity.
Qed.

Lemma in_tuples (n : nat) (l idxs : list nat) :
  length idxs = n -> Forall (fun i => In i l) idxs -> In idxs (tuples n l).
Proof.
  revert idxs. induction n as [|n IH]; intros [|i idxs] Hlen Hall; cbn in *; try lia.
  - left. reflexivity.
  - inversion Hall; subst. apply in_flat_map. exists i. split; [assumption|].
    apply in_map. apply IH; [lia | assumption].
Qed.
End LinAlgFacts.

(** ** The codec recovers the data blocks from any four shares *)

Module ZfecFacts.
Import GF256 Zfec GF256Facts LinAlg LinAlgFacts.

Lemma Encoder_4_6 : Encoder 4 6 = Ok code_4_6.
Proof. vm_compute. reflexivity. Qed.

Lemma decode_check_all :
  forallb (fun idxs => implb (bool_decide (NoDup idxs)) (decode_check code_4_6 idxs))
          (tuples 4 (seq 0 6)) = true.
Proof. vm_compute. reflexivity. Qed.

Lemma decode_check_ok (idxs : list nat) :
  length idxs = 4 -> NoDup idxs -> Forall (fun i => i < 6) idxs ->
  decode_check code_4_6 idxs = true.
Proof.
  intros Hlen Hnd Hall.
  pose proof decode_check_all as H. rewrite forallb_forall in H.
  specialize (H idxs). 
  assert (Hin : In idxs (tuples 4 (seq 0 6))).
  { apply in_tuples; [exact Hlen|]. eapply Forall_impl; [exact Hall|].
    cbn beta. intros i Hi. apply in_seq. lia. }
  apply H in Hin. rewrite bool_decide_eq_true_2 in Hin by exact Hnd. exact Hin.
Qed.

Lemma arrange_fmap {A B} (g : A -> B) (fuel k i : nat) (l : list (nat * A)) :
  arrange fuel k i (map (on_snd g) l) = option_map (map (on_snd g)) (arrange fuel k i l).
Proof.
  revert i l. induction fuel as [|fuel IH]; intros i l; cbn [arrange]; [reflexivity|].
  destruct (k <=? i); [reflexivity|].
  change (map (on_snd g) l) with (on_snd g <$> l).
  rewrite list_lookup_fmap.
  destruct (l !! i) as [[c b]|] eqn:Hi; cbn; [|reflexivity].
  destruct ((k <=? c) || (c =? i)).
  { apply IH. }
  rewrite list_lookup_fmap.
  destruct (l !! c) as [[c' b']|] eqn:Hc; cbn; [|reflexivity].
  destruct (c' =? c); [reflexivity|].
  change (<[i:=(c', g b')]> (<[c:=(c, g b)]> (on_snd g <$> l)))
    with (<[i:=on_snd g (c', b')]> (<[c:=on_snd g (c, b)]> (on_snd g <$> l))).
  rewrite <- !list_fmap_insert. apply IH.
Qed.

Lemma combine_map_self {B} (F : nat -> B) (idxs : list nat) :
  combine idxs (map F idxs) = map (on_snd F) (map (fun j => (j, j)) idxs).
Proof. induction idxs as [|j idxs IH]; cbn; [reflexivity|]. f_equal. exact IH. Qed.

Lemma sum_prod_unit (i : nat) (x : list gf) (s k : nat) :
  sum_prod (map (fun j => if Nat.eqb i j then gf1 else gf0) (seq s k)) x =
  if (s <=? i) && (i <? s + k) then nth (i - s) x gf0 else gf0.
Proof.
  revert s x. induction k as [|k IH]; intros s x; cbn [seq map sum_prod].
  - destruct (Nat.leb_spec s i), (Nat.ltb_spec i (s + 0)); cbn [andb];
      try reflexivity; lia.
  - destruct x as [|x0 x].
    + destruct ((s <=? i) && (i <? s + S k)); [destruct (i - s)|]; reflexivity.
    + rewrite IH.
      destruct (Nat.eqb_spec i s) as [Heq|Hne];
        destruct (Nat.leb_spec s i), (Nat.ltb_spec i (s + S k)),
                 (Nat.leb_spec (S s) i), (Nat.ltb_spec i (S s + k));
        cbn [andb]; try lia;
        first [ replace (i - s) with 0 by lia
              | replace (i - s) with (S (i - S s)) by lia
              | idtac ];
        cbn [nth]; ring.
Qed.

Lemma lincomb_identity_row (sz k i : nat) (D : list block) :
  Forall (fun b => length b = sz) D -> length D = k -> i < k ->
  lincomb sz (identity_row k i) D = nth i D [].
Proof.
  intros HD Hk Hi.
  assert (Hnth : length (nth i D []) = sz).
  { rewrite Forall_forall in HD. apply HD. apply list_elem_of_In, nth_In. lia. }
  apply (nth_ext _ _ gf0 gf0).
  - rewrite length_lincomb by exact HD. symmetry. exact Hnth.
  - intros p Hp. rewrite length_lincomb in Hp by exact HD.
    rewrite nth_lincomb by assumption.
    unfold identity_row. rewrite sum_prod_unit.
    cbn [Nat.leb]. replace (i <? 0 + k) with true by (symmetry; apply Nat.ltb_lt; lia).
    cbn [andb]. rewrite Nat.sub_0_r.
    rewrite (nth_indep _ gf0 ((fun b : list byte => nth p b gf0) []))
      by (rewrite length_map; lia).
    apply (map_nth (fun b : list byte => nth p b gf0)).
Qed.

(** a (R D) = (a R) D on blocks *)
Lemma lincomb_vecmat (sz : nat) (a : list gf) (rows : matrix) (D : list block) :
  Forall (fun b => length b = sz) D ->
  Forall (fun r => length r = length D) rows ->
  lincomb sz a (map (fun r => lincomb sz r D) rows) =
  lincomb sz (vecmat (length D) a rows) D.
Proof.
  intros HD Hrows.
  assert (HY : Forall (fun b => length b = sz) (map (fun r => lincomb sz r D) rows)).
  { apply Forall_forall. intros b Hb. apply list_elem_of_In, in_map_iff in Hb as (r & <- & _).
    apply length_lincomb, HD. }
  apply (nth_ext _ _ gf0 gf0).
  - rewrite !length_lincomb by assumption. reflexivity.
  - intros p Hp. rewrite length_lincomb in Hp by exact HY.
    rewrite !nth_lincomb by assumption.
    rewrite sum_prod_vecmat by exact Hrows.
    f_equal. rewrite !map_map. apply map_ext. intros r.
    apply nth_lincomb; assumption.
Qed.

Lemma same_length_Forall (sz : nat) (bs : list block) :
  Forall (fun b => length b = sz) bs -> same_length bs = true.
Proof.
  intros H. destruct bs as [|b bs]; [reflexivity|]. cbn.
  pose proof (Forall_inv H) as Hb. cbn beta in Hb.
  apply forallb_forall. intros b' Hb'.
  rewrite Forall_forall in H.
  rewrite (H b') by (apply list_elem_of_In; right; exact Hb').
  rewrite Hb. apply Nat.eqb_refl.
Qed.

Lemma decode_refused_all :
  forallb (fun idxs => implb (negb (bool_decide (NoDup idxs)))
                             (decode_refused code_4_6 idxs))
          (tuples 4 (seq 0 6)) = true.
Proof. vm_compute. reflexivity. Qed.

Lemma decode_refused_dup (idxs : list nat) :
  length idxs = 4 -> Forall (fun i => i < 6) idxs -> ~ NoDup idxs ->
  decode_refused code_4_6 idxs = true.
Proof.
  intros Hlen Hall Hdup.
  pose proof decode_refused_all as H. rewrite forallb_forall in H.
  assert (Hin : In idxs (tuples 4 (seq 0 6))).
  { apply in_tuples; [exact Hlen|]. eapply Forall_impl; [exact Hall|].
    cbn beta. intros i Hi. apply in_seq. lia. }
  apply H in Hin. rewrite bool_decide_eq_false_2 in Hin by exact Hdup. exact Hin.
Qed.

Lemma combine_on_snd {A} (idxs : list nat) (blocks : list A) :
  length blocks = length idxs ->
  map (on_snd (fun _ => tt)) (combine idxs blocks) =
  map (on_snd (fun _ => tt)) (map (fun j => (j, j)) idxs).
Proof.
  revert blocks. induction idxs as [|j idxs IH]; intros [|b blocks] Hlen;
    cbn in *; try lia; try reflexivity.
  f_equal. apply IH. lia.
Qed.

Lemma map_fst_on_snd {A B} (g : A -> B) (l : list (nat * A)) :
  map fst (map (on_snd g) l) = map fst l.
Proof. rewrite map_map. reflexivity. Qed.

(** The decoder refuses K share ids that are not K distinct ids below M,
    whatever the blocks are: the range check, the arrangement or the
    inversion of the decoding matrix fails. *)
Lemma decode_refuses (blocks : list block) (sharenums : list nat) :
  length sharenums <> 4 \/ Exists (fun c => 6 <= c) sharenums \/ ~ NoDup sharenums ->
  decode code_4_6 blocks sharenums = Raise ZfecError.
Proof.
  intros Hbad. unfold decode. cbn [fec_k fec_n code_4_6].
  destruct (Nat.eqb_spec (length blocks) 4) as [Hb|Hb]; [|reflexivity].
  destruct (Nat.eqb_spec (length sharenums) 4) as [Hs|Hs]; [|reflexivity].
  cbn [andb negb].
  destruct (forallb (fun c => c <? 6) sharenums) eqn:Hrange; [|reflexivity].
  cbn [negb].
  destruct (same_length blocks); [|reflexivity]. cbn [negb].
  assert (Hall : Forall (fun i => i < 6) sharenums).
  { apply Forall_forall. intros c Hc. rewrite forallb_forall in Hrange.
    apply Nat.ltb_lt, Hrange, list_elem_of_In, Hc. }
  assert (Hdup : ~ NoDup sharenums).
  { destruct Hbad as [Hl|[Hex|Hd]]; [contradiction| |exact Hd].
    exfalso. apply Exists_exists in Hex as (c & Hc & Hge).
    rewrite Forall_forall in Hall. specialize (Hall c Hc). cbn beta in Hall. lia. }
  pose proof (decode_refused_dup sharenums Hs Hall Hdup) as Href.
  unfold decode_refused in Href. cbn [fec_k code_4_6] in Href.
  pose proof (arrange_fmap (fun _ : block => tt) (2 * 4 + 1) 4 0
                (combine sharenums blocks)) as H1.
  pose proof (arrange_fmap (fun _ : nat => tt) (2 * 4 + 1) 4 0
                (map (fun j => (j, j)) sharenums)) as H2.
  rewrite combine_on_snd in H1 by lia. rewrite H2 in H1. clear H2.
  destruct (arrange (2 * 4 + 1) 4 0 (combine sharenums blocks)) as [arr|];
    [|reflexivity].
  destruct (arrange (2 * 4 + 1) 4 0 (map (fun j => (j, j)) sharenums)) as [arr'|];
    [|discriminate].
  cbn [option_map] in H1. injection H1 as H1.
  apply (f_equal (map fst)) in H1. rewrite !map_fst_on_snd in H1.
  rewrite <- H1.
  destruct (invert_mat 4 (build_decode_matrix code_4_6 (map fst arr')));
    [discriminate | reflexivity].
Qed.

Section Roundtrip.
Variable sz : nat.
Variables d0 d1 d2 d3 : block.
Let D : list block := [d0; d1; d2; d3].
Hypothesis HD : Forall (fun b => length b = sz) D.

Let shards : list block :=
  D ++ map (fun p => lincomb sz p D) (skipn 4 (enc_matrix code_4_6)).
Let F (j : nat) : block := nth j shards [].

Lemma encode_blocks : encode code_4_6 D = Ok shards.
Proof.
  unfold encode. cbn [fec_k code_4_6 length Nat.eqb negb].
  rewrite (same_length_Forall sz) by exact HD. cbn [negb hd D].
  pose proof (Forall_inv HD) as H0. cbn beta in H0. rewrite H0. reflexivity.
Qed.

Lemma share_spec (j : nat) :
  j < 6 -> F j = lincomb sz (nth j (enc_matrix code_4_6) []) D.
Proof.
  intros Hj.
  destruct j as [|[|[|[|[|[|j]]]]]]; try lia;
    first [ match goal with
            | |- F ?n = _ =>
                symmetry;
                exact (lincomb_identity_row sz 4 n D HD eq_refl ltac:(lia))
            end
          | reflexivity ].
Qed.

Lemma share_length (j : nat) : j < 6 -> length (F j) = sz.
Proof. intros Hj. rewrite share_spec by exact Hj. apply length_lincomb, HD. Qed.

Lemma enc_rows_length (j : nat) :
  j < 6 -> length (nth j (enc_matrix code_4_6) []) = 4.
Proof. intros Hj. destruct j as [|[|[|[|[|[|j]]]]]]; try lia; reflexivity. Qed.

Lemma decode_shares (idxs : list nat) :
  length idxs = 4 -> NoDup idxs -> Forall (fun i => i < 6) idxs ->
  decode code_4_6 (map F idxs) idxs = Ok D.
Proof.
  intros Hlen Hnd Hall.
  pose proof (decode_check_ok idxs Hlen Hnd Hall) as Hchk.
  unfold decode_check in Hchk. unfold decode.
  cbn [fec_k fec_n code_4_6] in Hchk |- *.
  rewrite length_map, Hlen. cbn [Nat.eqb andb negb].
  assert (Hlt : forallb (fun c => c <? 6) idxs = true).
  { apply forallb_forall. intros c Hc. apply Nat.ltb_lt.
    rewrite Forall_forall in Hall. apply Hall, list_elem_of_In, Hc. }
  rewrite Hlt. cbn [negb].
  rewrite (same_length_Forall sz).
  2:{ apply Forall_forall. intros b Hb.
      apply list_elem_of_In, in_map_iff in Hb as (j & <- & Hj).
      apply share_length. rewrite Forall_forall in Hall.
      apply Hall, list_elem_of_In, Hj. }
  cbn [negb].
  rewrite combine_map_self, arrange_fmap.
  destruct (arrange (2 * 4 + 1) 4 0 (map (fun j => (j, j)) idxs)) as [arr|];
    [|discriminate].
  cbn [option_map].
  apply andb_prop in Hchk as [Hchk Hinv]. apply andb_prop in Hchk as [Hlarr Harr].
  apply Nat.eqb_eq in Hlarr.
  assert (Harr' : forall i c j, arr !! i = Some (c, j) -> j = c /\ c < 6).
  { intros i c j Hi. rewrite forallb_forall in Harr.
    specialize (Harr (c, j)). cbn [fst snd] in Harr.
    assert (Hin : In (c, j) arr).
    { apply list_elem_of_In. eapply list_elem_of_lookup_2. exact Hi. }
    apply Harr in Hin. apply andb_prop in Hin as [H1 H2].
    apply Nat.eqb_eq in H1. apply Nat.ltb_lt in H2. split; [congruence | exact H2]. }
  assert (Hfst : map fst (map (on_snd F) arr) = map fst arr).
  { rewrite map_map. reflexivity. }
  rewrite Hfst.
  destruct (invert_mat 4 (build_decode_matrix code_4_6 (map fst arr))) as [m_dec|];
    [|discriminate].
  f_equal. apply list_eq. intros i.
  rewrite list_lookup_imap.
  change (map (on_snd F) arr) with (on_snd F <$> arr).
  rewrite list_lookup_fmap.
  destruct (arr !! i) as [[c j]|] eqn:Hi; cbn [fmap option_fmap option_map on_snd fst snd].
  2:{ apply lookup_ge_None in Hi. symmetry. apply lookup_ge_None. cbn. lia. }
  pose proof (lookup_lt_Some _ _ _ Hi) as Hi4. rewrite Hlarr in Hi4.
  destruct (Harr' i c j Hi) as [-> Hc6].
  rewrite forallb_forall in Hinv. specialize (Hinv i).
  assert (Hseq : In i (seq 0 4)) by (apply in_seq; lia).
  apply Hinv in Hseq. clear Hinv. cbn zeta in Hseq.
  assert (Hnth : nth i (map fst arr) 0 = c).
  { change 0 with (fst (0, 0)). rewrite map_nth.
    rewrite (nth_lookup_Some _ _ _ _ Hi). reflexivity. }
  rewrite Hnth in Hseq.
  assert (HDi : D !! i = Some (nth i D [])).
  { destruct (lookup_lt_is_Some_2 D i) as [x Hx]; [cbn; lia|].
    rewrite Hx. f_equal. symmetry. eapply nth_lookup_Some, Hx. }
  destruct (c <? 4) eqn:Hc4.
  - apply Nat.eqb_eq in Hseq. subst c.
    rewrite HDi. f_equal. unfold F.
    unfold shards. apply app_nth1. cbn. lia.
  - apply list_gf_eqb_eq in Hseq.
    rewrite HDi. f_equal.
    assert (Hsnd : map snd (on_snd F <$> arr) =
                   map (fun r => lincomb sz r D)
                       (map (fun c => nth c (enc_matrix code_4_6) []) (map fst arr))).
    { rewrite !map_map. apply map_ext_in. intros [c' j'] Hin. cbn [on_snd fst snd].
      apply list_elem_of_In, list_elem_of_lookup_1 in Hin as [i' Hi'].
      destruct (Harr' i' c' j' Hi') as [-> Hc']. apply share_spec, Hc'. }
    change (map snd (map (on_snd F) arr)) with (map snd (on_snd F <$> arr)).
    rewrite Hsnd.
    assert (Hsz : length (hd [] (map (fun r => lincomb sz r D)
                   (map (fun c => nth c (enc_matrix code_4_6) []) (map fst arr)))) = sz).
    { destruct arr as [|p arr]; [cbn in Hlarr; lia|]. cbn [map hd].
      apply length_lincomb, HD. }
    rewrite Hsz.
    change 4 with (length D) in Hseq.
    rewrite lincomb_vecmat.
    + rewrite Hseq. apply (lincomb_identity_row sz 4); auto.
    + exact HD.
    + apply Forall_forall. intros r Hr.
      apply list_elem_of_In, in_map_iff in Hr as (c' & <- & Hin).
      apply in_map_iff in Hin as ([c'' j''] & <- & Hin).
      apply list_elem_of_In, list_elem_of_lookup_1 in Hin as [i' Hi'].
      destruct (Harr' i' c'' j'' Hi') as [_ Hc']. cbn [fst].
      apply enc_rows_length, Hc'.
Qed.
End Roundtrip.
End ZfecFacts.

(** ** gateway/ec.py: padding, splitting and the round trip *)

Module EcFacts.
Import GF256 Zfec LinAlg GF256Facts LinAlgFacts ZfecFacts Ec.

Lemma ceil_div_4_bound (n : nat) : n <= ceil_div n 4 * 4.
Proof.
unfold ceil_div.
pose proof (Nat.div_mod_eq (n + 4 - 1) 4) as H.
pose proof (Nat.mod_upper_bound (n + 4 - 1) 4) as H'.
lia.
Qed.

Lemma concat_chunks {A} (cs k : nat) (p : list A) :
  concat (map (fun i => firstn cs (skipn (i * cs) p)) (seq 0 k)) = firstn (k * cs) p.
Proof.
induction k as [|k IH].
- reflexivity.
- rewrite seq_S, map_app, concat_app, IH. cbn [map concat Nat.add].
  rewrite app_nil_r, take_take_drop. f_equal. lia.
Qed.

Lemma slice_chunk {A} (cs i : nat) (p : list A) :
  slice p (i * cs) (i * cs + cs) = firstn cs (skipn (i * cs) p).
Proof. unfold slice. f_equal. lia. Qed.

Section Blocks.
Variable data : list byte.
Let chunk_size : nat := ceil_div (length data) K.
Let padded_data : list byte := data ++ repeat x00 (chunk_size * K - length data).
Let blocks : list (list byte) :=
  map (fun i => slice padded_data (i * chunk_size) (i * chunk_size + chunk_size)) (seq 0 K).

Lemma length_padded_data : length padded_data = K * chunk_size.
Proof.
unfold padded_data. rewrite length_app, repeat_length.
pose proof (ceil_div_4_bound (length data)). unfold chunk_size, K in *. lia.
Qed.

Lemma blocks_length : Forall (fun b => length b = chunk_size) blocks.
Proof.
apply Forall_forall. intros b Hb.
apply list_elem_of_In, in_map_iff in Hb as (i & <- & Hi).
apply in_seq in Hi. rewrite slice_chunk.
rewrite length_firstn, length_skipn, length_padded_data. unfold K in *. nia.
Qed.

Lemma concat_blocks : concat blocks = padded_data.
Proof.
unfold blocks.
rewrite (map_ext _ (fun i => firstn chunk_size (skipn (i * chunk_size) padded_data)))
  by (intros i; apply slice_chunk).
rewrite concat_chunks. apply firstn_all2. rewrite length_padded_data. lia.
Qed.

Lemma truncate_padded : firstn (length data) padded_data = data.
Proof. unfold padded_data. apply take_app_length. Qed.

Lemma blocks_eq :
  blocks = [ slice padded_data (0 * chunk_size) (0 * chunk_size + chunk_size);
             slice padded_data (1 * chunk_size) (1 * chunk_size + chunk_size);
             slice padded_data (2 * chunk_size) (2 * chunk_size + chunk_size);
             slice padded_data (3 * chunk_size) (3 * chunk_size + chunk_size) ].
Proof. reflexivity. Qed.

Lemma encode_data_blocks :
  encode_data data =
  Ok (blocks ++ map (fun p => lincomb chunk_size p blocks) (skipn 4 (enc_matrix code_4_6))).
Proof.
unfold encode_data. fold chunk_size. fold padded_data. fold blocks.
change (Encoder K M) with (Encoder 4 6). rewrite Encoder_4_6. cbn [mbind result_bind].
pose proof blocks_length as HD. rewrite blocks_eq in *.
exact (encode_blocks chunk_size _ _ _ _ HD).
Qed.

Lemma decode_data_shares (idxs : list nat) :
  length idxs = K -> NoDup idxs -> Forall (fun i => i < M) idxs ->
  forall shards, encode_data data = Ok shards ->
  length shards = M /\
  decode_data (map (fun i => nth i shards []) idxs) idxs (length data) = Ok data.
Proof.
intros Hlen Hnd Hall shards Henc.
rewrite encode_data_blocks in Henc.
assert (Hs : shards = blocks ++ map (fun p => lincomb chunk_size p blocks)
                                    (skipn 4 (enc_matrix code_4_6))) by congruence.
clear Henc. subst shards.
split; [reflexivity|].
unfold decode_data. rewrite length_map, Hlen. change (K <? K) with false. cbv iota.
change (Decoder K M) with (Encoder 4 6). rewrite Encoder_4_6. cbn [mbind result_bind].
rewrite !firstn_all2 by (rewrite ?length_map; lia).
pose proof blocks_length as HD. rewrite blocks_eq in HD.
pose proof (decode_shares chunk_size _ _ _ _ HD idxs Hlen Hnd Hall) as Hdec.
rewrite <- blocks_eq in Hdec. rewrite Hdec.
cbn [mbind result_bind mret result_ret].
rewrite <- ?blocks_eq, concat_blocks. f_equal. apply truncate_padded.
Qed.
End Blocks.

(** C4. For every blob B (the empty and the one-byte blob included),
    encode_data B returns M = 6 shards, and decode_data, given any K = 4 of
    them (distinct indices below M, in any order) with their indices and
    the size |B|, returns exactly B. *)
Theorem encode_decode_roundtrip (B : list byte) (idxs : list nat) :
  length idxs = K -> NoDup idxs -> Forall (fun i => i < M) idxs ->
  exists shards,
    encode_data B = Ok shards /\ length shards = M /\
    decode_data (map (fun i => nth i shards []) idxs) idxs (length B) = Ok B.
Proof.
intros Hlen Hnd Hall.
eexists. split; [apply encode_data_blocks|].
apply (decode_data_shares B idxs Hlen Hnd Hall). apply encode_data_blocks.
Qed.

(** Witness of C4: "hello", decoded from shards 5, 2, 4 and 0. *)
Lemma encode_decode_roundtrip_witness :
  exists shards,
    encode_data Examples.hello = Ok shards /\ length shards = M /\
    decode_data (map (fun i => nth i shards []) [5; 2; 4; 0]) [5; 2; 4; 0]
                (length Examples.hello) = Ok Examples.hello.
Proof.
apply (encode_decode_roundtrip Examples.hello [5; 2; 4; 0]).
- reflexivity.
- apply (bool_decide_unpack _). vm_compute. exact I.
- apply (bool_decide_unpack _). vm_compute. exact I.
Defined.

(** Counterexample to C9 as stated: five shards are supplied and the index
    list repeats 3, or names the index 99; decode_data returns the bytes. *)
Lemma decode_data_accepts_bad_tail :
  decode_data (firstn 5 Examples.hello_shards) [0; 1; 2; 3; 3] 5 = Ok Examples.hello /\
  decode_data (firstn 5 Examples.hello_shards) [0; 1; 2; 3; 99] 5 = Ok Examples.hello.
Proof. split; vm_compute; reflexivity. Qed.

Lemma decode_data_too_few (shards : list (list byte)) (shard_nums : list nat)
      (original_size : nat) :
  length shards < K ->
  decode_data shards shard_nums original_size =
  Raise (ValueError "Need at least 4 shards to recover data").
Proof.
intros H. unfold decode_data.
destruct (Nat.ltb_spec (length shards) K) as [_|Hge]; [reflexivity | lia].
Qed.

Lemma decode_data_first_K (shards more_shards : list (list byte))
      (shard_nums more_nums : list nat) (original_size : nat) :
  length shards = K -> length shard_nums = K ->
  decode_data (shards ++ more_shards) (shard_nums ++ more_nums) original_size =
  decode_data shards shard_nums original_size.
Proof.
intros Hs Hn. unfold decode_data.
rewrite length_app, Hs.
destruct (Nat.ltb_spec (K + length more_shards) K) as [Hlt|_]; [lia|].
change (K <? K) with false. cbv iota.
rewrite !take_app_length' by (symmetry; assumption).
rewrite !firstn_all2 by lia. reflexivity.
Qed.

Lemma decode_data_refuses (shards : list (list byte)) (shard_nums : list nat)
      (original_size : nat) :
  K <= length shards ->
  length shard_nums < K \/ Exists (fun c => M <= c) (firstn K shard_nums) \/
    ~ NoDup (firstn K shard_nums) ->
  decode_data shards shard_nums original_size = Raise ZfecError.
Proof.
intros Hs Hbad. unfold decode_data.
destruct (Nat.ltb_spec (length shards) K) as [Hlt|_]; [lia|].
change (Decoder K M) with (Encoder 4 6). rewrite Encoder_4_6. cbn [mbind result_bind].
rewrite decode_refuses; [reflexivity|].
destruct Hbad as [Hl|[Hex|Hd]]; [left | right; left; exact Hex | right; right; exact Hd].
rewrite length_firstn. unfold K in *. lia.
Qed.

(** C9, amended.  decode_data raises ValueError whenever fewer than K = 4
    shards are supplied.  With at least K shards it fails, with the error of
    the decoder, whenever fewer than K indices are supplied or the first K
    indices contain an index outside 0..M-1 or a duplicate.  Only the first
    K shards and indices reach the decoder: with K shards and K indices,
    whatever follows them in either list is ignored, so a duplicate or an
    out-of-range index after position K does not make it fail. *)
Theorem decode_data_guard (shards : list (list byte)) (shard_nums : list nat)
        (original_size : nat) :
  (length shards < K ->
   decode_data shards shard_nums original_size =
   Raise (ValueError "Need at least 4 shards to recover data")) /\
  (K <= length shards ->
   length shard_nums < K \/ Exists (fun c => M <= c) (firstn K shard_nums) \/
     ~ NoDup (firstn K shard_nums) ->
   decode_data shards shard_nums original_size = Raise ZfecError) /\
  (length shards = K -> length shard_nums = K ->
   forall (more_shards : list (list byte)) (more_nums : list nat),
     decode_data (shards ++ more_shards) (shard_nums ++ more_nums) original_size =
     decode_data shards shard_nums original_size).
Proof.
split; [|split].
- apply decode_data_too_few.
- apply decode_data_refuses.
- intros Hs Hn more_shards more_nums. apply decode_data_first_K; assumption.
Qed.

(** Witness of C9: three shards are refused; four shards of "hello" are
    refused under the indices 0, 0, 1, 2 and under 0, 1, 2, 99, and five
    under 4, 4, 0, 1, 5; four shards decode the same with or without a fifth
    entry. *)
Lemma decode_data_guard_witness :
  decode_data (firstn 3 Examples.hello_shards) [0; 1; 2] 5 =
    Raise (ValueError "Need at least 4 shards to recover data") /\
  decode_data (firstn 4 Examples.hello_shards) [0; 0; 1; 2] 5 = Raise ZfecError /\
  decode_data (firstn 4 Examples.hello_shards) [0; 1; 2; 99] 5 = Raise ZfecError /\
  decode_data (firstn 5 Examples.hello_shards) [4; 4; 0; 1; 5] 5 = Raise ZfecError /\
  decode_data (firstn 4 Examples.hello_shards ++ [[x00; x00]]) ([0; 1; 2; 3] ++ [7]) 5 =
    decode_data (firstn 4 Examples.hello_shards) [0; 1; 2; 3] 5.
Proof.
split; [|split; [|split; [|split]]].
- apply (proj1 (decode_data_guard (firstn 3 Examples.hello_shards) [0; 1; 2] 5)).
  vm_compute. lia.
- apply (proj1 (proj2 (decode_data_guard (firstn 4 Examples.hello_shards) [0; 0; 1; 2] 5))).
  + vm_compute. lia.
  + right. right. intros Hnd. apply (bool_decide_pack _) in Hnd.
    vm_compute in Hnd. exact Hnd.
- apply (proj1 (proj2 (decode_data_guard (firstn 4 Examples.hello_shards) [0; 1; 2; 99] 5))).
  + vm_compute. lia.
  + right. left. apply Exists_exists. exists 99. split; [|vm_compute; lia].
    cbn. set_solver.
- apply (proj1 (proj2 (decode_data_guard (firstn 5 Examples.hello_shards)
                         [4; 4; 0; 1; 5] 5))).
  + vm_compute. lia.
  + right. right. intros Hnd. apply (bool_decide_pack _) in Hnd.
    vm_compute in Hnd. exact Hnd.
- apply (proj2 (proj2 (decode_data_guard (firstn 4 Examples.hello_shards) [0; 1; 2; 3] 5)));
    reflexivity.
Defined.

End EcFacts.

(** ** gateway/config.py: placement by the registry *)

Module ConfigFacts.
Import Config.

Lemma get_nodes_for_shards_spec (NODES_LIST : list NodeInfo) (count : nat)
      (preferred_region : option string) :
  count <= length NODES_LIST ->
  get_nodes_for_shards NODES_LIST count preferred_region =
  Ok (firstn count
        (if known_region preferred_region
         then preferred_nodes_of NODES_LIST
                (default [] (Dict.get REGIONS (default "" preferred_region)))
              ++ other_nodes_of NODES_LIST
                   (default [] (Dict.get REGIONS (default "" preferred_region)))
         else NODES_LIST)).
Proof.
intros Hc. unfold get_nodes_for_shards.
destruct (Nat.ltb_spec (length NODES_LIST) count) as [Hlt|_]; [lia|].
destruct (known_region preferred_region); cbn [negb]; [|reflexivity].
set (ids := default [] (Dict.get REGIONS (default "" preferred_region))).
destruct (Nat.leb_spec count (length (preferred_nodes_of NODES_LIST ids))) as [Hle|Hgt].
- rewrite take_app_le by exact Hle. reflexivity.
- f_equal. rewrite firstn_app. f_equal. symmetry. apply firstn_all2. lia.
Qed.

(** Counterexample to C10 as stated: with no region, the selector that
    main.py defines does not return the first six nodes of the registry. *)
Lemma main_selection_is_not_the_first_nodes :
  Gateway.get_nodes_for_shards Examples.all_up Examples.nodes6 6 None =
    Raise (NameError "random") /\
  get_nodes_for_shards Examples.nodes6 6 None = Ok Examples.nodes6.
Proof. split; vm_compute; reflexivity. Qed.

(** C10, amended.  The selector of config.py is a function of the registry,
    the count and the region alone: for a count the registry can serve it
    returns the first [count] nodes of the registry when the region is unset
    or unknown, and otherwise the first [count] of the region's nodes in
    declared order followed by the other nodes in registry order. *)
Theorem select_nodes_deterministic (NODES_LIST : list NodeInfo) (count : nat)
        (preferred_region : option string) :
  count <= length NODES_LIST ->
  (known_region preferred_region = false ->
   get_nodes_for_shards NODES_LIST count preferred_region =
   Ok (firstn count NODES_LIST)) /\
  (known_region preferred_region = true ->
   get_nodes_for_shards NODES_LIST count preferred_region =
   Ok (firstn count
         (preferred_nodes_of NODES_LIST
            (default [] (Dict.get REGIONS (default "" preferred_region)))
          ++ other_nodes_of NODES_LIST
               (default [] (Dict.get REGIONS (default "" preferred_region)))))).
Proof.
intros Hc. split; intros Hk;
  rewrite get_nodes_for_shards_spec by exact Hc; rewrite Hk; reflexivity.
Qed.

(** Witness of C10: three nodes with an unknown region, six with eu-west. *)
Lemma select_nodes_deterministic_witness :
  get_nodes_for_shards Examples.nodes6 3 (Some "mars"%string) =
    Ok (firstn 3 Examples.nodes6) /\
  get_nodes_for_shards Examples.nodes6 6 (Some "eu-west"%string) =
    Ok (firstn 6
          (preferred_nodes_of Examples.nodes6 ["node3"; "node4"]%string
           ++ other_nodes_of Examples.nodes6 ["node3"; "node4"]%string)).
Proof.
split.
- apply (proj1 (select_nodes_deterministic Examples.nodes6 3 (Some "mars"%string)
                  ltac:(vm_compute; lia))).
  reflexivity.
- apply (proj2 (select_nodes_deterministic Examples.nodes6 6 (Some "eu-west"%string)
                  ltac:(vm_compute; lia))).
  reflexivity.
Defined.

End ConfigFacts.

(** ** gateway/main.py: node selection of the primary path *)

Module SelectionFacts.
Import Config Metadata World Gateway.


Lemma region_attribute_missing (n : NodeInfo) :
  getattr n "region" = Raise (AttributeError "region").
Proof. reflexivity. Qed.


End SelectionFacts.

(** ** The write pipeline of main.py before node selection *)

Module UploadFacts.
Import Config Metadata World Gateway QuotaManager SelectionFacts.

Lemma encode_data_total (data : list byte) :
  exists shards, Ec.encode_data data = Ok shards /\ length shards = Ec.M.
Proof.
eexists. split; [apply EcFacts.encode_data_blocks | reflexivity].
Qed.

(** ensure_bucket returns a bucket and touches nothing but the buckets table. *)
Lemma ensure_bucket_run (bucket : string) (w : World) :
  exists b, ensure_bucket bucket w = (fst (ensure_bucket bucket w), Ok b) /\
    w_net (fst (ensure_bucket bucket w)) = w_net w /\
    w_events (fst (ensure_bucket bucket w)) = w_events w /\
    w_uuid (fst (ensure_bucket bucket w)) = w_uuid w /\
    objects (w_db (fst (ensure_bucket bucket w))) = objects (w_db w) /\
    content_store (w_db (fst (ensure_bucket bucket w))) = content_store (w_db w) /\
    bucket_quotas (w_db (fst (ensure_bucket bucket w))) = bucket_quotas (w_db w) /\
    next_id (w_db (fst (ensure_bucket bucket w))) = next_id (w_db w).
Proof.
cbv [ensure_bucket World.get_bucket World.create_bucket Metadata.create_bucket
     mbind M_bind mret M_ret get_db set_db].
destruct (Metadata.get_bucket (w_db w) bucket) as [b|].
- exists b. repeat split.
- eexists. repeat split.
Qed.

Lemma ensure_bucket_existing (bucket : string) (w : World) (b : Bucket) :
  Metadata.get_bucket (w_db w) bucket = Some b ->
  ensure_bucket bucket w = (w, Ok b).
Proof.
intros H. cbv [ensure_bucket World.get_bucket mbind M_bind mret M_ret get_db].
rewrite H. reflexivity.
Qed.





End UploadFacts.

(** ** gateway/metadata.py: the is-latest invariant *)

Module MetadataFacts.
Import Config Metadata.

Lemma same_key_true (bucket key : string) (o : Object) :
  same_key bucket key o = true <-> bucket_name o = bucket /\ object_key o = key.
Proof.
unfold same_key. rewrite andb_true_iff, !String.eqb_eq. reflexivity.
Qed.

Lemma is_latest_of_unset (bucket key : string) (o : Object) :
  is_latest_of bucket key (set_latest o false) = false.
Proof. unfold is_latest_of. cbn. apply andb_false_r. Qed.

Lemma is_latest_of_other (bucket key bucket' key' : string) (o : Object) :
  (bucket', key') <> (bucket, key) ->
  is_latest_of bucket key o = true -> is_latest_of bucket' key' o = false.
Proof.
intros Hne H. unfold is_latest_of in *.
apply andb_prop in H as [H _]. apply same_key_true in H as [Hb Hk].
destruct (same_key bucket' key' o) eqn:E; [|reflexivity].
apply same_key_true in E as [Hb' Hk']. exfalso. apply Hne. congruence.
Qed.

Lemma is_latest_of_set_content_hash (bucket key h : string) (o : Object) :
  is_latest_of bucket key (set_content_hash o h) = is_latest_of bucket key o.
Proof. reflexivity. Qed.

Section Flip.
Variables bucket key : string.
Let p : Object -> bool := is_latest_of bucket key.
Let unset (o : Object) : Object := set_latest o false.

Lemma flip_same (l : list Object) :
  latest_count bucket key l <= 1 ->
  List.filter p (update_first p unset l) = [].
Proof.
unfold latest_count. fold p.
induction l as [|x l IH]; intros H; cbn [update_first List.filter] in *;
  [reflexivity|].
destruct (p x) eqn:Hx; cbn [List.filter length] in *.
- unfold unset at 1. unfold p at 1. rewrite is_latest_of_unset.
  destruct (List.filter p l); [reflexivity | cbn in H; lia].
- rewrite Hx. apply IH, H.
Qed.

Lemma flip_other (bucket' key' : string) (l : list Object) :
  (bucket', key') <> (bucket, key) ->
  List.filter (is_latest_of bucket' key') (update_first p unset l) =
  List.filter (is_latest_of bucket' key') l.
Proof.
intros Hne. induction l as [|x l IH]; cbn [update_first List.filter];
  [reflexivity|].
destruct (p x) eqn:Hx; cbn [List.filter].
- unfold unset. rewrite is_latest_of_unset.
  rewrite (is_latest_of_other bucket key bucket' key' x Hne Hx). reflexivity.
- rewrite IH. reflexivity.
Qed.

Lemma delete_first_no_match (l : list Object) :
  find p l = None -> delete_first p l = l.
Proof.
induction l as [|x l IH]; cbn [find delete_first]; [reflexivity|].
destruct (p x); [discriminate|]. intros H. f_equal. apply IH, H.
Qed.

Lemma delete_first_same (l : list Object) :
  List.filter p (delete_first p l) = tl (List.filter p l).
Proof.
induction l as [|x l IH]; cbn [delete_first List.filter]; [reflexivity|].
destruct (p x) eqn:Hx; cbn [List.filter tl]; [reflexivity|].
rewrite Hx. exact IH.
Qed.

Lemma delete_first_other (bucket' key' : string) (l : list Object) :
  (bucket', key') <> (bucket, key) ->
  List.filter (is_latest_of bucket' key') (delete_first p l) =
  List.filter (is_latest_of bucket' key') l.
Proof.
intros Hne. induction l as [|x l IH]; cbn [delete_first List.filter];
  [reflexivity|].
destruct (p x) eqn:Hx; cbn [List.filter].
- rewrite (is_latest_of_other bucket key bucket' key' x Hne Hx). reflexivity.
- rewrite IH. reflexivity.
Qed.

Lemma delete_first_incl (l : list Object) (o : Object) :
  In o (delete_first p l) -> In o l.
Proof.
induction l as [|x l IH]; cbn [delete_first]; [tauto|].
destruct (p x); cbn [In]; [tauto|]. intros [H|H]; [left; exact H | right; apply IH, H].
Qed.

Lemma delete_first_length (l : list Object) :
  length (delete_first p l) =
  length l - match find p l with Some _ => 1 | None => 0 end.
Proof.
induction l as [|x l IH]; cbn [delete_first find length]; [reflexivity|].
destruct (p x); [lia|]. cbn [length]. rewrite IH.
destruct (find p l) eqn:E; [|lia].
destruct l; [discriminate | cbn [length]; lia].
Qed.

Lemma delete_objects (db : DB) :
  objects (fst (delete_object_metadata db bucket key)) = delete_first p (objects db).
Proof.
unfold delete_object_metadata. fold p.
destruct (find p (objects db)) eqn:E; [reflexivity|].
cbn [fst]. symmetry. apply delete_first_no_match, E.
Qed.
End Flip.

Lemma key_eq_dec (b k b' k' : string) : {(b', k') = (b, k)} + {(b', k') <> (b, k)}.
Proof. decide equality; apply String.string_dec. Qed.

Lemma put_preserves_latest_inv (db : DB) (ver_id : string) (now : nat)
      (bucket key : string) (size : nat) (shards_ : list ShardMeta) :
  latest_inv (objects db) ->
  latest_inv (objects (fst (put_object_metadata db ver_id now bucket key size shards_)))
  /\ latest_count bucket key
       (objects (fst (put_object_metadata db ver_id now bucket key size shards_))) = 1.
Proof.
intros Hinv. cbn [put_object_metadata fst objects].
assert (Hnew : forall b' k',
  latest_count b' k'
    (update_first (is_latest_of bucket key) (fun existing => set_latest existing false)
                  (objects db) ++
     [{| id := next_id db; bucket_name := bucket; object_key := key;
         version_id := ver_id; is_latest := true; size_bytes := size;
         shards := shards_; created_at := now; content_hash := None |}]) =
  if key_eq_dec bucket key b' k' then 1 else latest_count b' k' (objects db)).
{ intros b' k'. unfold latest_count. rewrite List.filter_app, length_app.
  destruct (key_eq_dec bucket key b' k') as [Heq|Hne].
  - injection Heq as -> ->. rewrite flip_same by apply Hinv.
    cbn. unfold is_latest_of, same_key. cbn. rewrite !String.eqb_refl. reflexivity.
  - rewrite flip_other by exact Hne.
    cbn [List.filter]. unfold is_latest_of at 2, same_key. cbn [bucket_name object_key is_latest].
    destruct (String.eqb_spec bucket b'), (String.eqb_spec key k');
      cbn [andb length]; try lia.
    exfalso. apply Hne. congruence. }
split.
- intros b' k'. rewrite Hnew. destruct (key_eq_dec bucket key b' k'); [lia | apply Hinv].
- rewrite Hnew. destruct (key_eq_dec bucket key bucket key); [reflexivity | congruence].
Qed.

Lemma delete_preserves_latest_inv (db : DB) (bucket key : string) :
  latest_inv (objects db) ->
  latest_inv (objects (fst (delete_object_metadata db bucket key)))
  /\ latest_count bucket key (objects (fst (delete_object_metadata db bucket key))) = 0.
Proof.
intros Hinv. rewrite delete_objects.
assert (H0 : latest_count bucket key
               (delete_first (is_latest_of bucket key) (objects db)) = 0).
{ unfold latest_count. rewrite delete_first_same.
  specialize (Hinv bucket key). unfold latest_count in Hinv.
  destruct (List.filter (is_latest_of bucket key) (objects db)) as [|x [|y l]];
    cbn in *; lia. }
split; [|exact H0].
intros b' k'. destruct (key_eq_dec bucket key b' k') as [Heq|Hne].
- injection Heq as -> ->. rewrite H0. lia.
- unfold latest_count. rewrite delete_first_other by exact Hne. apply Hinv.
Qed.

Lemma update_content_hash_latest_count (db : DB) (obj_id : nat) (h : string)
      (bucket key : string) :
  latest_count bucket key (objects (update_content_hash db obj_id h)) =
  latest_count bucket key (objects db).
Proof.
unfold latest_count. cbn [update_content_hash set_objects objects].
induction (objects db) as [|x l IH]; cbn [map List.filter]; [reflexivity|].
replace (is_latest_of bucket key (if id x =? obj_id then set_content_hash x h else x))
  with (is_latest_of bucket key x) by (destruct (id x =? obj_id); reflexivity).
destruct (is_latest_of bucket key x); cbn [length]; rewrite IH; reflexivity.
Qed.

Lemma filter_latest_count (q : Object -> bool) (bucket key : string) (l : list Object) :
  latest_count bucket key (List.filter q l) <= latest_count bucket key l.
Proof.
unfold latest_count. induction l as [|x l IH]; cbn [List.filter]; [lia|].
destruct (q x), (is_latest_of bucket key x) eqn:E; cbn [List.filter length];
  rewrite ?E; cbn [length]; lia.
Qed.

Lemma latest_inv_b_sound (l : list Object) : latest_inv_b l = true -> latest_inv l.
Proof.
intros H b k. unfold latest_inv_b in H. rewrite forallb_forall in H.
destruct (List.filter (is_latest_of b k) l) as [|o rest] eqn:E.
- unfold latest_count. rewrite E. cbn. lia.
- assert (Ho : In o (List.filter (is_latest_of b k) l)) by (rewrite E; left; reflexivity).
  apply filter_In in Ho as [Hin Hp].
  unfold is_latest_of in Hp. apply andb_prop in Hp as [Hk _].
  apply same_key_true in Hk as [<- <-].
  apply Nat.leb_le, H, Hin.
Qed.

(** C7.  If every (bucket, key) has at most one row with is-latest = true,
    then so it is after put_object_metadata, after delete_object_metadata,
    after the content_hash update and after rows are removed by GC.
    put_object_metadata flips the prior latest row and appends the new row
    with is-latest = true in one step, leaving exactly one latest row for
    its key; delete_object_metadata removes the latest row only (every row
    that remains was there before, unchanged) and leaves the key with no
    latest row. *)
Theorem is_latest_invariant_preserved (db : DB) (ver_id : string) (now : nat)
        (bucket key : string) (size : nat) (shards_ : list ShardMeta)
        (obj_id : nat) (h : string) (q : Object -> bool) :
  latest_inv (objects db) ->
  let put := put_object_metadata db ver_id now bucket key size shards_ in
  let del := delete_object_metadata db bucket key in
  (latest_inv (objects (fst put)) /\
   latest_count bucket key (objects (fst put)) = 1 /\
   objects (fst put) =
     update_first (is_latest_of bucket key) (fun o => set_latest o false) (objects db)
       ++ [snd put] /\
   is_latest (snd put) = true /\ version_id (snd put) = ver_id) /\
  (latest_inv (objects (fst del)) /\
   latest_count bucket key (objects (fst del)) = 0 /\
   (forall o, In o (objects (fst del)) -> In o (objects db)) /\
   length (objects (fst del)) =
     length (objects db) - latest_count bucket key (objects db)) /\
  latest_inv (objects (update_content_hash db obj_id h)) /\
  latest_inv (List.filter q (objects db)).
Proof.
intros Hinv put del.
destruct (put_preserves_latest_inv db ver_id now bucket key size shards_ Hinv)
  as [Hp1 Hp2].
destruct (delete_preserves_latest_inv db bucket key Hinv) as [Hd1 Hd2].
repeat split; try assumption.
- unfold del. rewrite delete_objects. apply delete_first_incl.
- unfold del. rewrite delete_objects, delete_first_length.
  f_equal. specialize (Hinv bucket key). unfold latest_count in *.
  revert Hinv. generalize (objects db) as l0.
  induction l0 as [|x l IH]; cbn [find List.filter]; [reflexivity|].
  destruct (is_latest_of bucket key x) eqn:E; cbn [length]; intros Hinv.
  + destruct (List.filter (is_latest_of bucket key) l); cbn in *; [reflexivity | lia].
  + apply IH. exact Hinv.
- intros b' k'. rewrite update_content_hash_latest_count. apply Hinv.
- intros b' k'. eapply Nat.le_trans; [apply filter_latest_count | apply Hinv].
Qed.

(** Witness of C7: the store that holds "hello" under b/k and b/k2. *)
Lemma is_latest_invariant_preserved_witness :
  latest_inv (objects (fst (put_object_metadata (World.w_db Examples.w_shared)
                              "v3" 1000 "b" "k" 5 []))) /\
  latest_count "b" "k"
    (objects (fst (delete_object_metadata (World.w_db Examples.w_shared) "b" "k"))) = 0.
Proof.
assert (Hinv : latest_inv (objects (World.w_db Examples.w_shared))).
{ apply latest_inv_b_sound. vm_compute. reflexivity. }
pose proof (is_latest_invariant_preserved (World.w_db Examples.w_shared)
              "v3" 1000 "b" "k" 5 [] 0 "h" (fun _ => true) Hinv) as H.
cbv zeta in H. destruct H as ((H1 & _) & (_ & H2 & _) & _).
split; [exact H1 | exact H2].
Defined.

End MetadataFacts.

(** ** gateway/quota_manager.py: the quota gate *)

Module QuotaFacts.
Import Config Metadata World Gateway QuotaManager.

(** For a write of at least one byte the gate projects size and count onto
    the latest-version usage and refuses with 507 and the two headers. *)
Lemma check_quota_rejects (db : DB) (bucket : string) (additional_size : Z) :
  (0 < additional_size)%Z ->
  let used_size := (snd (current_stats db bucket) + additional_size)%Z in
  let used_objects := (fst (current_stats db bucket) + 1)%Z in
  let quota := get_quota db bucket in
  (max_size_bytes quota < used_size \/ max_objects quota < used_objects)%Z ->
  exists used limit : Z,
    check_quota_db db bucket additional_size =
      Raise (HTTPException 507 [("X-Quota-Used"%string, pretty used);
                                ("X-Quota-Limit"%string, pretty limit)]) /\
    (limit < used)%Z /\
    ((used = used_size /\ limit = max_size_bytes quota) \/
     (used = used_objects /\ limit = max_objects quota)).
Proof.
intros Hpos used_size used_objects quota Hex.
unfold check_quota_db. subst used_size used_objects quota.
destruct (current_stats db bucket) as [n sz]. cbn [fst snd] in *.
destruct (Z.ltb_spec 0 additional_size) as [_|]; [|lia].
destruct (Z.ltb_spec (max_size_bytes (get_quota db bucket)) (sz + additional_size)).
- eexists _, _. split; [reflexivity|]. split; [assumption|]. left. split; reflexivity.
- destruct (Z.ltb_spec (max_objects (get_quota db bucket)) (n + 1)).
  + eexists _, _. split; [reflexivity|]. split; [assumption|]. right. split; reflexivity.
  + lia.
Qed.

(** When the gate refuses, upload_object stops there: nothing is sent to a
    storage node and no row of objects or content_store is written. *)
Lemma upload_stops_at_quota (env : Env) (NODES_LIST : list NodeInfo)
      (bucket key : string) (body : list byte) (consistency : string)
      (region : option string) (w : World) (e : exn) :
  check_quota_db (w_db (fst (ensure_bucket bucket w))) bucket (Z.of_nat (length body)) =
    Raise e ->
  upload_object env NODES_LIST bucket key body consistency region w =
    (fst (ensure_bucket bucket w), Raise e).
Proof.
intros Hq.
destruct (UploadFacts.ensure_bucket_run bucket w) as (b & Hb & _).
cbv [upload_object mbind M_bind]. rewrite Hb.
cbv [check_quota mbind M_bind get_db lift]. rewrite Hq. reflexivity.
Qed.

(** C8 at its failing input.  The bucket b2 may hold one object and holds
    one.  A one-byte upload is refused with 507, X-Quota-Used 2 and
    X-Quota-Limit 1; an empty upload passes the gate, is stored (a dedup
    hit), and leaves the bucket with two latest objects. *)
Theorem empty_upload_passes_the_object_quota :
  snd (upload_object Examples.all_up Examples.nodes6 "b2" "second" [x00]
                     "strong" None Examples.w_quota) =
    Raise (HTTPException 507 [("X-Quota-Used", "2"); ("X-Quota-Limit", "1")]%string) /\
  is_ok (check_quota_db Examples.db_quota "b2" 0) = true /\
  snd (upload_object Examples.all_up Examples.nodes6 "b2" "second" []
                     "strong" None Examples.w_quota) =
    Ok (UploadOk "b2" "second" "uuid-0" true "sha-" None) /\
  fst (current_stats
         (w_db (fst (upload_object Examples.all_up Examples.nodes6 "b2" "second" []
                                   "strong" None Examples.w_quota))) "b2") = 2%Z /\
  max_objects (get_quota Examples.db_quota "b2") = 1%Z.
Proof. repeat split; vm_compute; reflexivity. Qed.

End QuotaFacts.


(** ** The write pipeline: dedup hit, distribution, quorum and commit *)

Module PipelineFacts.
Import Config Metadata World Gateway QuotaManager PipelineSpec.

Lemma alter_present {V} (f : V -> V) (m : gmap string V) (k : string) (v : V) :
  m !! k = Some v -> alter f k m = <[k := f v]> m.
Proof.
intros H. apply map_eq. intros k'.
rewrite lookup_alter, lookup_insert.
destruct (decide (k = k')) as [->|Hne]; [rewrite H; reflexivity | reflexivity].
Qed.

Lemma put_then_hash (db : DB) (cs : gmap string ContentRow) (ver_id : string)
      (now_ : nat) (bucket key : string) (size : nat) (layout : list ShardMeta)
      (h : string) :
  update_content_hash
    (fst (Metadata.put_object_metadata (set_content_store db cs) ver_id now_
                                       bucket key size layout))
    (next_id db) h =
  committed_db db cs ver_id now_ bucket key size layout h.
Proof.
unfold update_content_hash, committed_db, set_objects, new_version.
cbn [Metadata.put_object_metadata set_content_store fst objects buckets
     content_store bucket_quotas next_id].
rewrite map_app. cbn [map id]. rewrite Nat.eqb_refl. reflexivity.
Qed.

(** The dedup-hit block of both endpoints. *)
Lemma dedup_hit_run (env : Env) (bucket key : string) (size : nat) (h : string)
      (row : ContentRow) (method : string) (w : World) :
  select_content (w_db w) h = Some row ->
  exists obj,
    dedup_hit env bucket key size h row method w =
      (dedup_hit_world env w bucket key size h row method, Ok obj) /\
    version_id obj = uuid4 env (w_uuid w).
Proof.
intros Hrow. unfold select_content in Hrow.
eexists. split.
- cbv [dedup_hit World.put_object_metadata mbind M_bind mret M_ret get_db set_db
       draw_uuid broadcast w_db w_net w_events w_uuid].
  cbv [Metadata.put_object_metadata]. cbv beta iota.
  unfold dedup_hit_world. f_equal. f_equal.
  rewrite <- put_then_hash. unfold incr_refcount.
  rewrite (alter_present _ _ _ _ Hrow). reflexivity.
- reflexivity.
Qed.

(** Steps 7 and 8 of both endpoints. *)
Lemma store_new_content_run (env : Env) (bucket key : string) (size : nat)
      (h : string) (layout : list ShardMeta) (method : string) (w : World) :
  exists obj,
    store_new_content env bucket key size h layout method w =
      (stored_world env w bucket key size h layout method, Ok obj) /\
    version_id obj = uuid4 env (w_uuid w).
Proof.
eexists. split.
- cbv [store_new_content World.put_object_metadata mbind M_bind mret M_ret get_db
       set_db draw_uuid broadcast w_db w_net w_events w_uuid].
  cbv [Metadata.put_object_metadata]. cbv beta iota.
  unfold stored_world. f_equal. f_equal.
  rewrite <- put_then_hash. reflexivity.
- reflexivity.
Qed.


Lemma mapR_getitem (nodes : list NodeInfo) (shards_data : list (list byte)) (n s : nat) :
  s + n <= length nodes -> s + n <= length shards_data ->
  mapR (fun i => x ← getitem nodes i; y ← getitem shards_data i; mret (i, x, y))
       (seq s n) =
  Ok (combine (combine (seq s n) (firstn n (skipn s nodes)))
              (firstn n (skipn s shards_data))).
Proof.
revert s. induction n as [|n IH]; intros s Hn Hs; [reflexivity|].
cbn [seq mapR].
destruct (lookup_lt_is_Some_2 nodes s) as [x Hx]; [lia|].
destruct (lookup_lt_is_Some_2 shards_data s) as [y Hy]; [lia|].
assert (Gx : getitem nodes s = Ok x) by (unfold getitem; rewrite Hx; reflexivity).
assert (Gy : getitem shards_data s = Ok y) by (unfold getitem; rewrite Hy; reflexivity).
cbv [mbind result_bind]. rewrite Gx, Gy.
change (fun i : nat => match getitem nodes i with
                       | Ok a => match getitem shards_data i with
                                 | Ok a0 => mret (i, a, a0)
                                 | Raise e => Raise e
                                 end
                       | Raise e => Raise e
                       end)
  with (fun i : nat => x ← getitem nodes i; y ← getitem shards_data i; mret (i, x, y)).
rewrite IH by lia. cbn [mbind result_bind mret result_ret].
rewrite (drop_S _ _ _ Hx), (drop_S _ _ _ Hy). reflexivity.
Qed.

Lemma sent_world_nil (w : World) : sent_world w [] 0 = w.
Proof. destruct w. unfold sent_world. cbn. rewrite app_nil_r. reflexivity. Qed.

Lemma sent_world_app (w : World) (r1 r2 : list NetReq) (u1 u2 : nat) :
  sent_world (sent_world w r1 u1) r2 u2 = sent_world w (r1 ++ r2) (u2 + u1).
Proof.
unfold sent_world. cbn. rewrite app_assoc. f_equal. lia.
Qed.

Lemma sent_world_app_uuid (w : World) (reqs : list NetReq) :
  sent_world {| w_db := w_db w; w_net := w_net w; w_events := w_events w;
                w_uuid := S (w_uuid w) |} reqs 0 =
  sent_world w reqs 1.
Proof. reflexivity. Qed.

Lemma for_each_put (env : Env) (bucket : string) (keyf : nat -> string)
      (args : list (nat * NodeInfo * list byte)) (w : World) :
  for_each (fun a => put_shard env bucket (keyf (fst (fst a))) (fst (fst a))
                                (snd (fst a)) (snd a)) args w =
  (sent_world w (map (put_request bucket keyf) args) 0,
   Ok (map (put_outcome env bucket keyf) args)).
Proof.
revert w. induction args as [|a args IH]; intros w.
- cbn. rewrite sent_world_nil. reflexivity.
- cbn [for_each map]. cbv [mbind M_bind].
  change (put_shard env bucket (keyf (fst (fst a))) (fst (fst a)) (snd (fst a)) (snd a) w)
    with (sent_world w [put_request bucket keyf a] 0, Ok (put_outcome env bucket keyf a)).
  cbv beta iota. rewrite IH. rewrite sent_world_app. reflexivity.
Qed.

Lemma gather_uploads_run (env : Env) (bucket : string) (keyf : nat -> string)
      (nodes : list NodeInfo) (shards_data : list (list byte)) (n : nat) (w : World) :
  n <= length nodes -> n <= length shards_data ->
  gather_uploads (fun i node val => put_shard env bucket (keyf i) i node val)
                 nodes shards_data n w =
  (sent_world w (map (put_request bucket keyf) (shard_tasks nodes shards_data n)) 0,
   Ok (map (put_outcome env bucket keyf) (shard_tasks nodes shards_data n))).
Proof.
intros Hn Hs. unfold gather_uploads. unfold mbind at 1. unfold M_bind, lift.
rewrite (mapR_getitem nodes shards_data n 0) by lia.
cbn [skipn]. apply (for_each_put env bucket keyf).
Qed.

Lemma put_requests_are_puts (bucket : string) (keyf : nat -> string)
      (tasks : list (nat * NodeInfo * list byte)) :
  existsb is_delete (map (put_request bucket keyf) tasks) = false.
Proof. induction tasks as [|a tasks IH]; [reflexivity | exact IH]. Qed.

Lemma committed_db_rows (db : DB) (cs : gmap string ContentRow) (ver_id : string)
      (now_ : nat) (bucket key : string) (size : nat) (layout : list ShardMeta)
      (h : string) :
  content_store (committed_db db cs ver_id now_ bucket key size layout h) = cs /\
  List.last (objects (committed_db db cs ver_id now_ bucket key size layout h))
            (new_version db ver_id now_ bucket key size layout h) =
    new_version db ver_id now_ bucket key size layout h /\
  length (objects (committed_db db cs ver_id now_ bucket key size layout h)) =
    S (length (objects db)).
Proof.
unfold committed_db. cbn [content_store objects]. repeat split.
- apply List.last_last.
- rewrite length_app, length_map. cbn [length].
  assert (Hl : forall l, length (update_first (is_latest_of bucket key)
                                   (fun o => set_latest o false) l) = length l).
  { induction l as [|x l IH]; cbn [update_first]; [reflexivity|].
    destruct (is_latest_of bucket key x); cbn [length]; congruence. }
  rewrite Hl. lia.
Qed.


(** Counterexample to C6 as stated: "hello" is in the content store; the S3
    PUT of the same bytes to b/k2 is a dedup hit, and what it returns is a
    bare 200 with an ETag header (the MD5 digest): no deduplicated flag, no
    version-id, no content hash. *)
Lemma s3_dedup_hit_returns_etag_only :
  snd (S3Api.put_object_s3 Examples.all_up Examples.nodes6 "b" "k2" Examples.hello
                           Examples.w_stored) =
    Ok (HttpResponse 200
          [("ETag"%string,
            S3Api.dquote +:+ "md5-104.101.108.108.111" +:+ S3Api.dquote)]) /\
  w_net (fst (S3Api.put_object_s3 Examples.all_up Examples.nodes6 "b" "k2"
                                  Examples.hello Examples.w_stored)) =
    w_net Examples.w_stored.
Proof. split; vm_compute; reflexivity. Qed.

(** C6, amended.  An upload whose SHA-256 hash matches an existing
    ContentRow - through the primary PUT endpoint once it has passed the
    quota gate, or through the S3 PUT endpoint to an existing bucket -
    increments that row's refcount by one and inserts a new ObjectVersion
    whose version-id is the uuid4 drawn for it and whose layout is the
    row's, flipping the prior latest in the same step as the insert; no
    request goes to a storage node.  The primary endpoint returns
    deduplicated = true with the version-id and the content hash; the S3
    endpoint returns 200 with an ETag header. *)
Theorem dedup_hit_effects (env : Env) (NODES_LIST : list NodeInfo)
        (bucket key : string) (body : list byte) (consistency : string)
        (region : option string) (w : World) (row : ContentRow) :
  let h := sha256_hex env body in
  let size := length body in
  let w1 := fst (ensure_bucket bucket w) in
  (is_ok (check_quota_db (w_db w1) bucket (Z.of_nat size)) = true ->
   select_content (w_db w1) h = Some row ->
   upload_object env NODES_LIST bucket key body consistency region w =
     (dedup_hit_world env w1 bucket key size h row "api",
      Ok (UploadOk bucket key (uuid4 env (w_uuid w)) true h None))) /\
  (is_Some (Metadata.get_bucket (w_db w) bucket) ->
   select_content (w_db w) h = Some row ->
   S3Api.put_object_s3 env NODES_LIST bucket key body w =
     (dedup_hit_world env w bucket key size h row "s3",
      Ok (HttpResponse 200 (S3Api.etag_header env body)))) /\
  (forall (w0 : World) (method : string),
     let w' := dedup_hit_world env w0 bucket key size h row method in
     w_net w' = w_net w0 /\
     content_store (w_db w') !! h =
       Some {| cr_size_bytes := cr_size_bytes row; cr_shards := cr_shards row;
               refcount := (refcount row + 1)%Z |} /\
     List.last (objects (w_db w'))
               (new_version (w_db w0) (uuid4 env (w_uuid w0)) (now env) bucket key
                            size (cr_shards row) h) =
       new_version (w_db w0) (uuid4 env (w_uuid w0)) (now env) bucket key size
                   (cr_shards row) h /\
     length (objects (w_db w')) = S (length (objects (w_db w0)))).
Proof.
intros h size w1. subst h size. split; [|split].
- intros Hq Hrow.
  destruct (UploadFacts.ensure_bucket_run bucket w) as (b & Hb & _ & _ & Hu & _).
  fold w1 in Hb, Hu.
  destruct (dedup_hit_run env bucket key (length body) (sha256_hex env body) row
              "api" w1 Hrow) as (obj & Hrun & Hver).
  cbv [upload_object mbind M_bind]. rewrite Hb.
  cbv [check_quota mbind M_bind get_db lift].
  destruct (check_quota_db (w_db w1) bucket (Z.of_nat (length body))) as [qi|e];
    [|discriminate].
  rewrite Hrow, Hrun.
  cbv [mret M_ret]. rewrite Hver, Hu. reflexivity.
- intros [b Hb] Hrow.
  destruct (dedup_hit_run env bucket key (length body) (sha256_hex env body) row
              "s3" w Hrow) as (obj & Hrun & Hver).
  cbv [S3Api.put_object_s3 World.get_bucket mbind M_bind mret M_ret get_db].
  rewrite Hb, Hrow, Hrun. reflexivity.
- intros w0 method w'. subst w'. cbn [dedup_hit_world w_db w_net].
  split; [reflexivity|]. split; [|apply committed_db_rows].
  rewrite (proj1 (committed_db_rows _ _ _ _ _ _ _ _ _)).
  apply lookup_insert_eq.
Qed.

(** Witness of C6: "hello", already stored under b/k, uploaded to b/k2
    through the primary endpoint. *)
Lemma dedup_hit_effects_witness :
  exists row,
    select_content (w_db Examples.w_stored) (sha256_hex Examples.all_up Examples.hello)
      = Some row /\
    upload_object Examples.all_up Examples.nodes6 "b" "k2" Examples.hello "strong" None
                  Examples.w_stored =
      (dedup_hit_world Examples.all_up (fst (ensure_bucket "b" Examples.w_stored))
                       "b" "k2" (length Examples.hello)
                       (sha256_hex Examples.all_up Examples.hello) row "api",
       Ok (UploadOk "b" "k2" (uuid4 Examples.all_up (w_uuid Examples.w_stored)) true
                    (sha256_hex Examples.all_up Examples.hello) None)).
Proof.
destruct (select_content (w_db Examples.w_stored)
            (sha256_hex Examples.all_up Examples.hello)) as [row|] eqn:Hrow;
  [|vm_compute in Hrow; discriminate].
exists row. split; [reflexivity|].
apply (proj1 (dedup_hit_effects Examples.all_up Examples.nodes6 "b" "k2"
                Examples.hello "strong" None Examples.w_stored row)).
- vm_compute. reflexivity.
- exact Hrow.
Defined.


(** Counterexample to C5 as stated: three of the six nodes answer 200 to the
    S3 PUT of "hello"; quorum 4 is missed, the response is 502, and the only
    requests sent are the six PUTs: no DELETE follows for the three shards
    that were stored. *)
Lemma quorum_failure_sends_no_delete :
  snd (S3Api.put_object_s3 Examples.three_up Examples.nodes6 "b" "k" Examples.hello
                           Examples.w_bucket) = Ok (HttpResponse 502 []) /\
  length (w_net (fst (S3Api.put_object_s3 Examples.three_up Examples.nodes6 "b" "k"
                                          Examples.hello Examples.w_bucket))) = 6 /\
  existsb is_delete
    (w_net (fst (S3Api.put_object_s3 Examples.three_up Examples.nodes6 "b" "k"
                                     Examples.hello Examples.w_bucket))) = false /\
  length (List.filter
            (fun r => match r with
                      | NetPut n b k v =>
                          match put_status Examples.three_up n b k v with
                          | Some code => code =? 200
                          | None => false
                          end
                      | NetDelete _ _ _ => false
                      end)
            (w_net (fst (S3Api.put_object_s3 Examples.three_up Examples.nodes6 "b" "k"
                                             Examples.hello Examples.w_bucket)))) = 3.
Proof. repeat split; vm_compute; reflexivity. Qed.

Lemma distribute_and_commit_run (env : Env) (bucket key : string) (b : Bucket)
      (size : nat) (h consistency : string) (shards_data : list (list byte))
      (nodes : list NodeInfo) (w : World) :
  length shards_data <= length nodes ->
  let keyf := Gateway.shard_key_of key (name b) in
  let tasks := shard_tasks nodes shards_data (length shards_data) in
  let ok := List.filter success (map (put_outcome env bucket keyf) tasks) in
  let quorum := if String.eqb consistency "strong" then 4 else length shards_data in
  let w_sent := sent_world w (map (put_request bucket keyf) tasks) 0 in
  distribute_and_commit env bucket key b size h consistency shards_data nodes w =
    if length ok <? quorum then (w_sent, Raise (HTTPException 502 []))
    else (stored_world env w_sent bucket key size h (map to_meta ok) "api",
          Ok (UploadOk bucket key (uuid4 env (w_uuid w)) false h
                       (Some (length (map to_meta ok))))).
Proof.
intros Hlen keyf tasks ok quorum w_sent.
unfold distribute_and_commit. unfold mbind at 1. unfold M_bind.
change (upload_shard env bucket key b)
  with (fun i node val => put_shard env bucket (keyf i) i node val).
rewrite gather_uploads_run by lia.
fold tasks. fold w_sent. fold ok. fold quorum.
destruct (length ok <? quorum); [reflexivity|].
destruct (store_new_content_run env bucket key size h (map to_meta ok) "api" w_sent)
  as (obj & Hrun & Hver).
cbv [mbind M_bind]. rewrite Hrun. cbv [mret M_ret]. rewrite Hver. reflexivity.
Qed.

Lemma put_object_s3_miss_run (env : Env) (NODES_LIST : list NodeInfo)
      (bucket key : string) (body : list byte) (w : World)
      (shards_data : list (list byte)) :
  is_Some (Metadata.get_bucket (w_db w) bucket) ->
  select_content (w_db w) (sha256_hex env body) = None ->
  Ec.M <= length NODES_LIST ->
  Ec.encode_data body = Ok shards_data ->
  let keyf := S3Api.shard_key_of key (uuid4 env (w_uuid w)) in
  let tasks := shard_tasks (firstn Ec.M NODES_LIST) shards_data Ec.M in
  let ok := List.filter success (map (put_outcome env bucket keyf) tasks) in
  let w_sent := sent_world w (map (put_request bucket keyf) tasks) 1 in
  S3Api.put_object_s3 env NODES_LIST bucket key body w =
    if length ok <? 4 then (w_sent, Ok (HttpResponse 502 []))
    else (stored_world env w_sent bucket key (length body) (sha256_hex env body)
                       (map to_meta ok) "s3",
          Ok (HttpResponse 200 (S3Api.etag_header env body))).
Proof.
intros [b Hb] Hmiss Hnodes Henc keyf tasks ok w_sent.
destruct (UploadFacts.encode_data_total body) as (shards' & Henc' & Hlen).
assert (shards' = shards_data) by congruence. subst shards'.
unfold S3Api.put_object_s3.
unfold mbind at 1. unfold M_bind.
cbv [World.get_bucket mbind M_bind mret M_ret get_db]. rewrite Hb.
rewrite Hmiss. cbv [lift]. rewrite Henc, Hlen.
unfold Config.get_nodes_for_shards.
destruct (Nat.ltb_spec (length NODES_LIST) Ec.M) as [Hlt|_]; [lia|].
cbn [Config.known_region Config.truthy andb negb].
cbv [draw_uuid].
change (S3Api.upload_shard_real env bucket key (uuid4 env (w_uuid w)))
  with (fun i node val => put_shard env bucket (keyf i) i node val).
rewrite gather_uploads_run by (rewrite ?length_firstn; lia).
rewrite sent_world_app_uuid.
fold tasks. fold ok. fold w_sent.
destruct (length ok <? 4); [reflexivity|].
destruct (store_new_content_run env bucket key (length body) (sha256_hex env body)
            (map to_meta ok) "s3" w_sent) as (obj & Hrun & Hver).
rewrite Hrun. reflexivity.
Qed.


(** C5, amended.  Once the nodes are chosen, a dedup-miss write commits if
    and only if at least quorum shard PUTs answer 200, where on the primary
    path quorum = 4 when consistency = strong and the number of shards
    (M = 6) otherwise, and on the S3 path quorum = 4.  On fewer successes the
    write fails with 502 and nothing is written to the tables; the shards
    that did succeed stay where they are, for the only requests the write
    sends are its PUTs.  On success the content row (refcount 1) and the new
    version carry the (index, node-id, shard-key) records of the successful
    shards only. *)
Theorem quorum_decides_commit (env : Env) (NODES_LIST : list NodeInfo)
        (bucket key : string) (body : list byte) (consistency : string)
        (b : Bucket) (nodes : list NodeInfo) (shards_data : list (list byte))
        (w : World) :
  (length shards_data <= length nodes ->
   let keyf := Gateway.shard_key_of key (name b) in
   let tasks := shard_tasks nodes shards_data (length shards_data) in
   let ok := List.filter success (map (put_outcome env bucket keyf) tasks) in
   let quorum := if String.eqb consistency "strong" then 4 else length shards_data in
   let w_sent := sent_world w (map (put_request bucket keyf) tasks) 0 in
   distribute_and_commit env bucket key b (length body) (sha256_hex env body)
                         consistency shards_data nodes w =
     if length ok <? quorum then (w_sent, Raise (HTTPException 502 []))
     else (stored_world env w_sent bucket key (length body) (sha256_hex env body)
                        (map to_meta ok) "api",
           Ok (UploadOk bucket key (uuid4 env (w_uuid w)) false (sha256_hex env body)
                        (Some (length (map to_meta ok)))))) /\
  (is_Some (Metadata.get_bucket (w_db w) bucket) ->
   select_content (w_db w) (sha256_hex env body) = None ->
   Ec.M <= length NODES_LIST ->
   Ec.encode_data body = Ok shards_data ->
   let keyf := S3Api.shard_key_of key (uuid4 env (w_uuid w)) in
   let tasks := shard_tasks (firstn Ec.M NODES_LIST) shards_data Ec.M in
   let ok := List.filter success (map (put_outcome env bucket keyf) tasks) in
   let w_sent := sent_world w (map (put_request bucket keyf) tasks) 1 in
   S3Api.put_object_s3 env NODES_LIST bucket key body w =
     if length ok <? 4 then (w_sent, Ok (HttpResponse 502 []))
     else (stored_world env w_sent bucket key (length body) (sha256_hex env body)
                        (map to_meta ok) "s3",
           Ok (HttpResponse 200 (S3Api.etag_header env body)))) /\
  (forall (keyf : nat -> string) (tasks : list (nat * NodeInfo * list byte)) (u : nat),
     w_db (sent_world w (map (put_request bucket keyf) tasks) u) = w_db w /\
     existsb is_delete (map (put_request bucket keyf) tasks) = false) /\
  (forall (w0 : World) (layout : list ShardMeta) (method : string),
     let w' := stored_world env w0 bucket key (length body) (sha256_hex env body)
                            layout method in
     w_net w' = w_net w0 /\
     content_store (w_db w') !! sha256_hex env body =
       Some {| cr_size_bytes := length body; cr_shards := layout; refcount := 1%Z |} /\
     List.last (objects (w_db w'))
               (new_version (w_db w0) (uuid4 env (w_uuid w0)) (now env) bucket key
                            (length body) layout (sha256_hex env body)) =
       new_version (w_db w0) (uuid4 env (w_uuid w0)) (now env) bucket key
                   (length body) layout (sha256_hex env body)).
Proof.
split; [|split; [|split]].
- apply distribute_and_commit_run.
- apply put_object_s3_miss_run.
- intros keyf tasks u. split; [reflexivity | apply put_requests_are_puts].
- intros w0 layout method w'. subst w'. cbn [stored_world w_db w_net].
  split; [reflexivity|]. split; [|apply committed_db_rows].
  rewrite (proj1 (committed_db_rows _ _ _ _ _ _ _ _ _)).
  apply lookup_insert_eq.
Qed.

(** Witness of C5: the S3 PUT of "hello" to b/k with every node up. *)
Lemma quorum_decides_commit_witness :
  let keyf := S3Api.shard_key_of "k" (uuid4 Examples.all_up (w_uuid Examples.w_bucket)) in
  let tasks := shard_tasks (firstn Ec.M Examples.nodes6) Examples.hello_shards Ec.M in
  let ok := List.filter success (map (put_outcome Examples.all_up "b" keyf) tasks) in
  let w_sent := sent_world Examples.w_bucket (map (put_request "b" keyf) tasks) 1 in
  S3Api.put_object_s3 Examples.all_up Examples.nodes6 "b" "k" Examples.hello
                      Examples.w_bucket =
    if length ok <? 4 then (w_sent, Ok (HttpResponse 502 []))
    else (stored_world Examples.all_up w_sent "b" "k" (length Examples.hello)
                       (sha256_hex Examples.all_up Examples.hello)
                       (map to_meta ok) "s3",
          Ok (HttpResponse 200 (S3Api.etag_header Examples.all_up Examples.hello))).
Proof.
apply (proj1 (proj2 (quorum_decides_commit
                       Examples.all_up Examples.nodes6 "b" "k" Examples.hello "strong"
                       {| name := "b"; versioning_enabled := false |}
                       Examples.nodes6 Examples.hello_shards Examples.w_bucket))).
- eexists. vm_compute. reflexivity.
- vm_compute. reflexivity.
- vm_compute. lia.
- vm_compute. reflexivity.
Defined.

Lemma delete_requests_cons (NODES_LIST : list NodeInfo) (bucket : string)
      (sm : ShardMeta) (layout : list ShardMeta) :
  delete_requests NODES_LIST bucket (sm :: layout) =
  match Dict.get (NODES NODES_LIST) (sm_node_id sm) with
  | Some node => NetDelete node bucket (shard_key sm)
                 :: delete_requests NODES_LIST bucket layout
  | None => delete_requests NODES_LIST bucket layout
  end.
Proof.
unfold delete_requests.
destruct (Dict.get (NODES NODES_LIST) (sm_node_id sm)) eqn:E;
  cbn; rewrite E; reflexivity.
Qed.

(** requests.delete goes out for every shard whose node is known. *)
Lemma delete_shards_run (NODES_LIST : list NodeInfo) (bucket : string)
      (layout : list ShardMeta) (w : World) :
  delete_shards NODES_LIST bucket layout w =
    (sent_world w (delete_requests NODES_LIST bucket layout) 0, Ok tt).
Proof.
unfold delete_shards.
set (f := fun sm : ShardMeta =>
            match Dict.get (NODES NODES_LIST) (sm_node_id sm) with
            | Some node => send (NetDelete node bucket (shard_key sm))
            | None => mret ()
            end).
assert (H : forall w0,
  exists l, for_each f layout w0 =
            (sent_world w0 (delete_requests NODES_LIST bucket layout) 0, Ok l)).
{ induction layout as [|sm layout IH]; intros w0.
  - exists []. cbn. rewrite sent_world_nil. reflexivity.
  - rewrite delete_requests_cons.
    change (for_each f (sm :: layout) w0)
      with ((f sm ≫= (fun y => for_each f layout ≫= (fun ys => mret (y :: ys)))) w0).
    unfold mbind at 1.
    unfold M_bind at 1. unfold f at 1.
    destruct (Dict.get (NODES NODES_LIST) (sm_node_id sm)) as [node|].
    + change (send (NetDelete node bucket (shard_key sm)) w0)
        with (sent_world w0 [NetDelete node bucket (shard_key sm)] 0, Ok ()).
      cbv beta iota.
      destruct (IH (sent_world w0 [NetDelete node bucket (shard_key sm)] 0)) as [l Hl].
      unfold mbind, M_bind. rewrite Hl. rewrite sent_world_app. eexists. reflexivity.
    + change (@mret M _ unit () w0) with (w0, @Ok unit ()). cbv beta iota.
      destruct (IH w0) as [l Hl].
      unfold mbind, M_bind. rewrite Hl. eexists. reflexivity. }
destruct (H w) as [l Hl].
unfold mbind, M_bind. rewrite Hl. reflexivity.
Qed.

(** delete_object: the DELETE requests depend on the version row alone, and
    the content store is left as it was, refcount included. *)
Lemma delete_object_run (NODES_LIST : list NodeInfo) (bucket key : string)
      (w : World) (obj : Object) :
  Metadata.get_object_metadata (w_db w) bucket key None = Some obj ->
  delete_object NODES_LIST bucket key w =
    ({| w_db := fst (Metadata.delete_object_metadata (w_db w) bucket key);
        w_net := w_net w ++ delete_requests NODES_LIST bucket (shards obj);
        w_events := w_events w ++ [DeleteEvent bucket key "api"];
        w_uuid := w_uuid w |}, Ok (StatusOnly "deleted")) /\
  content_store (fst (Metadata.delete_object_metadata (w_db w) bucket key)) =
    content_store (w_db w).
Proof.
intros Hobj. split.
- unfold delete_object. unfold mbind at 1. unfold M_bind.
  cbv [World.get_object_metadata mbind M_bind mret M_ret get_db]. rewrite Hobj.
  rewrite delete_shards_run.
  cbv [World.delete_object_metadata mbind M_bind mret M_ret get_db].
  change (w_db (sent_world w (delete_requests NODES_LIST bucket (shards obj)) 0))
    with (w_db w).
  destruct (Metadata.delete_object_metadata (w_db w) bucket key) as [db' d].
  reflexivity.
- unfold Metadata.delete_object_metadata.
  destruct (find (is_latest_of bucket key) (objects (w_db w))); reflexivity.
Qed.

(** C2 at its failing inputs.  "hello" is stored once and referenced by
    b/k and b/k2 (refcount 2).  DELETE of b/k sends a DELETE for each of the
    six shards, and afterwards the content row still has refcount 2 and b/k2
    still points at the deleted shards.  Likewise, once b/k has been
    rewritten with the same bytes (refcount 3), GC by age removes the
    superseded version and sends the six DELETEs while the refcount stays
    3. *)
Theorem delete_ignores_refcount :
  let r := delete_object Examples.nodes6 "b" "k" Examples.w_shared in
  let g := GcService.cleanup_by_age Examples.later Examples.nodes6 Examples.thirty_days
                                    Examples.w_rewritten in
  let h := sha256_hex Examples.all_up Examples.hello in
  (option_map refcount (content_store (w_db Examples.w_shared) !! h) = Some 2%Z /\
   snd r = Ok (StatusOnly "deleted") /\
   w_net (fst r) = w_net Examples.w_shared
                   ++ delete_requests Examples.nodes6 "b" Examples.hello_layout /\
   length (delete_requests Examples.nodes6 "b" Examples.hello_layout) = 6 /\
   option_map refcount (content_store (w_db (fst r)) !! h) = Some 2%Z /\
   option_map shards (Metadata.get_object_metadata (w_db (fst r)) "b" "k2" None) =
     Some Examples.hello_layout) /\
  (option_map refcount (content_store (w_db Examples.w_rewritten) !! h) = Some 3%Z /\
   snd g = Ok 1 /\
   w_net (fst g) = w_net Examples.w_rewritten
                   ++ delete_requests Examples.nodes6 "b" Examples.hello_layout /\
   option_map refcount (content_store (w_db (fst g)) !! h) = Some 3%Z /\
   option_map shards (Metadata.get_object_metadata (w_db (fst g)) "b" "k" None) =
     Some Examples.hello_layout).
Proof. cbv zeta. repeat split; vm_compute; reflexivity. Qed.

End PipelineFacts.

(** ** The keys shards are stored under, on every write path *)

Module ShardKeyFacts.
Import Config Metadata World Gateway QuotaManager PipelineSpec ShardKeys.

















End ShardKeyFacts.

(** ** Reading back: download_object and get_object_s3 *)

Module DownloadFacts.
Import Config Metadata World Download.

Lemma insert_by_index_perm (sm : ShardMeta) (l : list ShardMeta) :
  Permutation (insert_by_index sm l) (sm :: l).
Proof.
induction l as [|sm' l IH]; [reflexivity|].
cbn [insert_by_index]. destruct (index sm <=? index sm'); [reflexivity|].
rewrite IH. apply perm_swap.
Qed.

Lemma sort_by_index_perm (l : list ShardMeta) : Permutation (sort_by_index l) l.
Proof.
induction l as [|sm l IH]; [reflexivity|].
cbn [sort_by_index fold_right]. fold (sort_by_index l).
rewrite insert_by_index_perm, IH. reflexivity.
Qed.

Section Registry.
Variable env : Env.
Variable NODES_LIST : list NodeInfo.
Variable fetch : NodeInfo -> string -> string -> option (list byte).
Variable http_date : nat -> string.

Abbreviation fetch_shard := (Download.fetch_shard NODES_LIST fetch).
Abbreviation fetch_loop := (Download.fetch_loop NODES_LIST fetch).
Abbreviation served_right := (Download.served_right NODES_LIST fetch).

(** The loop of download_object keeps the first K shards that can be
    fetched. *)
Lemma fetch_loop_spec (bucket : string) (l : list ShardMeta)
      (rs : list (list byte)) (ri : list nat) :
  length rs = length ri ->
  let got := firstn (Ec.K - length rs) (omap (fetch_shard bucket) l) in
  fetch_loop bucket l rs ri = (rs ++ map snd got, ri ++ map fst got).
Proof.
revert rs ri. induction l as [|sm l IH]; intros rs ri Hlen got; subst got.
- cbn. rewrite firstn_nil. cbn. rewrite !app_nil_r. reflexivity.
- change (omap (fetch_shard bucket) (sm :: l))
    with (match fetch_shard bucket sm with
          | Some y => y :: omap (fetch_shard bucket) l
          | None => omap (fetch_shard bucket) l
          end).
  cbn [Download.fetch_loop].
  remember (fetch_shard bucket sm) as fs eqn:Hfs. unfold Download.fetch_shard in Hfs.
  destruct (Nat.leb_spec Ec.K (length rs)) as [Hge|Hlt].
  + replace (Ec.K - length rs) with 0 by lia. cbn. rewrite !app_nil_r. reflexivity.
  + destruct (Dict.get (NODES NODES_LIST) (sm_node_id sm)) as [node|];
      [destruct (fetch node bucket (shard_key sm)) as [c|]|]; subst fs.
    * rewrite IH by (rewrite !length_app; cbn; lia).
      rewrite length_app. cbn [length].
      replace (Ec.K - length rs) with (S (Ec.K - (length rs + 1))) by lia.
      cbn [firstn map fst snd]. rewrite <- !app_assoc. reflexivity.
    * apply IH, Hlen.
    * apply IH, Hlen.
Qed.

Lemma collect_spec {A} (f : A -> option (nat * list byte)) (l : list A)
      (rs : list (list byte)) (ri : list nat) :
  length rs < 4 ->
  let got := firstn (4 - length rs) (omap f l) in
  collect (map f l) rs ri = (rs ++ map snd got, ri ++ map fst got).
Proof.
revert rs ri. induction l as [|x l IH]; intros rs ri Hlen got; subst got.
- cbn. rewrite firstn_nil. cbn. rewrite !app_nil_r. reflexivity.
- change (omap f (x :: l))
    with (match f x with Some y => y :: omap f l | None => omap f l end).
  cbn [collect map]. destruct (f x) as [r|].
  + rewrite length_app. cbn [length].
    replace (4 - length rs) with (S (4 - (length rs + 1))) by lia.
    cbn [firstn map fst snd].
    destruct (Nat.leb_spec 4 (length rs + 1)) as [Hge|Hlt].
    * replace (4 - (length rs + 1)) with 0 by lia. reflexivity.
    * rewrite IH by (rewrite length_app; cbn; lia).
      rewrite length_app. cbn [length]. rewrite <- !app_assoc. reflexivity.
  + apply IH, Hlen.
Qed.

(** What can be fetched of a layout whose shards are those of [data] *)
Section Recover.
Variable data : list byte.
Variable shards_data : list (list byte).
Hypothesis Henc : Ec.encode_data data = Ok shards_data.
Variable bucket : string.

Lemma served_right_perm (l l' : list ShardMeta) :
  Permutation l l' -> served_right shards_data bucket l -> served_right shards_data bucket l'.
Proof.
intros Hp H sm node c Hin. apply H.
apply (Permutation_in _ (Permutation_sym Hp)), Hin.
Qed.

Lemma fetched_props (l : list ShardMeta) :
  NoDup (map index l) -> Forall (fun sm => index sm < Ec.M) l -> served_right shards_data bucket l ->
  NoDup (map fst (omap (fetch_shard bucket) l)) /\
  Forall (fun p => fst p < Ec.M /\ snd p = nth (fst p) shards_data [] /\
                   In (fst p) (map index l))
         (omap (fetch_shard bucket) l).
Proof.
induction l as [|sm l IH]; intros Hnd Hall Hs.
- split; constructor.
- change (omap (fetch_shard bucket) (sm :: l))
    with (match fetch_shard bucket sm with
          | Some y => y :: omap (fetch_shard bucket) l
          | None => omap (fetch_shard bucket) l
          end).
  apply NoDup_cons in Hnd as [Hnotin Hnd].
  apply Forall_cons in Hall as [Hlt Hall].
  assert (Hs' : served_right shards_data bucket l).
  { intros sm' node c Hin. apply Hs. right. exact Hin. }
  destruct (IH Hnd Hall Hs') as [IH1 IH2].
  assert (IH2' : Forall (fun p => fst p < Ec.M /\ snd p = nth (fst p) shards_data [] /\
                                  In (fst p) (map index (sm :: l)))
                        (omap (fetch_shard bucket) l)).
  { eapply Forall_impl; [exact IH2|]. cbn. intros p (? & ? & ?). auto. }
  remember (fetch_shard bucket sm) as fs eqn:Hfs. unfold Download.fetch_shard in Hfs.
  destruct (Dict.get (NODES NODES_LIST) (sm_node_id sm)) as [node|] eqn:Hnode;
    [destruct (fetch node bucket (shard_key sm)) as [c|] eqn:Hc|]; subst fs.
  + split.
    * cbn [map fst]. apply NoDup_cons. split; [|exact IH1].
      intros Hin. apply Hnotin. apply list_elem_of_In in Hin.
      apply in_map_iff in Hin as (p & Hp & Hin).
      apply list_elem_of_In in Hin.
      rewrite Forall_forall in IH2. destruct (IH2 p Hin) as (_ & _ & Hidx).
      apply list_elem_of_In. rewrite <- Hp. exact Hidx.
    * apply Forall_cons. split; [|exact IH2'].
      cbn [fst snd]. split; [exact Hlt|]. split; [|left; reflexivity].
      apply (Hs sm node c); [left; reflexivity | exact Hnode | exact Hc].
  + split; assumption.
  + split; assumption.
Qed.

(** Any K shards that could be fetched decode to the data. *)
Lemma decode_fetched (l : list ShardMeta) :
  NoDup (map index l) -> Forall (fun sm => index sm < Ec.M) l -> served_right shards_data bucket l ->
  Ec.K <= length (omap (fetch_shard bucket) l) ->
  let got := firstn Ec.K (omap (fetch_shard bucket) l) in
  length (map snd got) = Ec.K /\
  Ec.decode_data (map snd got) (map fst got) (length data) = Ok data.
Proof.
intros Hnd Hall Hs Hk got.
destruct (fetched_props l Hnd Hall Hs) as [H1 H2].
assert (Hlen : length got = Ec.K).
{ unfold got. rewrite length_firstn. lia. }
split; [rewrite length_map; exact Hlen|].
assert (Hgot : Forall (fun p => fst p < Ec.M /\ snd p = nth (fst p) shards_data [] /\
                                In (fst p) (map index l)) got).
{ apply Forall_take, H2. }
assert (Hsnd : map snd got = map (fun i => nth i shards_data []) (map fst got)).
{ rewrite map_map. apply map_ext_in. intros p Hp.
  rewrite Forall_forall in Hgot. apply list_elem_of_In in Hp.
  destruct (Hgot p Hp) as (_ & Heq & _). exact Heq. }
rewrite Hsnd.
apply (EcFacts.decode_data_shares data (map fst got)); [..|exact Henc].
- rewrite length_map. exact Hlen.
- unfold got. rewrite <- firstn_map.
  apply (sublist_NoDup _ _ H1), sublist_take.
- apply Forall_map. eapply Forall_impl; [exact Hgot|]. cbn. intros p (? & _). assumption.
Qed.

End Recover.

Lemma get_object_metadata_run (bucket key : string) (v : option string) (w : World) :
  World.get_object_metadata bucket key v w =
  (w, Ok (Metadata.get_object_metadata (w_db w) bucket key v)).
Proof. reflexivity. Qed.

Lemma download_object_found (bucket key : string) (v : option string) (w : World)
      (obj : Object) :
  Metadata.get_object_metadata (w_db w) bucket key v = Some obj ->
  let got := firstn Ec.K (omap (fetch_shard bucket) (sort_by_index (shards obj))) in
  download_object NODES_LIST fetch bucket key v w =
    if length got <? Ec.K then (w, Raise (HTTPException 502 []))
    else match Ec.decode_data (map snd got) (map fst got) (size_bytes obj) with
         | Ok d => (w, Ok d)
         | Raise _ => (w, Raise (HTTPException 500 []))
         end.
Proof.
intros Hobj got. unfold download_object. unfold mbind at 1. unfold M_bind.
rewrite get_object_metadata_run, Hobj.
rewrite (fetch_loop_spec bucket _ [] []) by reflexivity.
cbn [length app]. rewrite Nat.sub_0_r. fold got. rewrite length_map.
destruct (length got <? Ec.K); [reflexivity|].
destruct (Ec.decode_data (map snd got) (map fst got) (size_bytes obj)); reflexivity.
Qed.

Lemma get_object_s3_found (bucket key : string) (w : World) (obj : Object) :
  Metadata.get_object_metadata (w_db w) bucket key None = Some obj ->
  let got := firstn 4 (omap (fetch_shard bucket) (shards obj)) in
  get_object_s3 env NODES_LIST fetch http_date bucket key w =
    if length got <? 4 then
      (w, Ok {| status_code := 502; content := []; headers := [] |})
    else match Ec.decode_data (map snd got) (map fst got) (size_bytes obj) with
         | Ok d =>
             (w, Ok {| status_code := 200; content := d;
                       headers :=
                         [ ("ETag", S3Api.dquote +:+ md5_hex env d +:+ S3Api.dquote);
                           ("Content-Length", pretty (length d));
                           ("Last-Modified", http_date (created_at obj)) ]%string |})
         | Raise e => (w, Raise e)
         end.
Proof.
intros Hobj got. unfold get_object_s3. unfold mbind at 1. unfold M_bind.
rewrite get_object_metadata_run, Hobj.
rewrite (collect_spec (Download.fetch_shard NODES_LIST fetch bucket) _ [] [])
  by (cbn; lia).
cbn [length app]. rewrite Nat.sub_0_r. fold got. rewrite length_map.
destruct (length got <? 4); [reflexivity|].
unfold mbind, M_bind, lift.
destruct (Ec.decode_data (map snd got) (map fst got) (size_bytes obj)); reflexivity.
Qed.

(** X1. download_object returns exactly the bytes that were encoded,
    whatever the order of the layout and whichever shards are missing, as
    long as the layout names each shard index once, every shard a node
    serves under the requested bucket is the shard of that index, and at
    least K = 4 of them are served.  The tables are left as they were. *)
Theorem download_object_recovers (bucket key : string) (v : option string)
        (w : World) (obj : Object) (data : list byte)
        (shards_data : list (list byte)) :
  Metadata.get_object_metadata (w_db w) bucket key v = Some obj ->
  Ec.encode_data data = Ok shards_data ->
  size_bytes obj = length data ->
  NoDup (map index (shards obj)) ->
  Forall (fun sm => index sm < Ec.M) (shards obj) ->
  served_right shards_data bucket (shards obj) ->
  Ec.K <= length (omap (fetch_shard bucket) (shards obj)) ->
  download_object NODES_LIST fetch bucket key v w = (w, Ok data).
Proof.
intros Hobj Henc Hsize Hnd Hall Hs Hk.
rewrite (download_object_found bucket key v w obj Hobj).
pose proof (sort_by_index_perm (shards obj)) as Hp.
destruct (decode_fetched data shards_data Henc bucket (sort_by_index (shards obj)))
  as [Hlen Hdec].
- rewrite (Permutation_map index Hp). exact Hnd.
- rewrite Hp. exact Hall.
- apply (served_right_perm _ _ (shards obj)); [symmetry; exact Hp | exact Hs].
- rewrite (Permutation_length (omap_Permutation _ _ _ Hp)). exact Hk.
- rewrite length_map in Hlen. rewrite Hlen, Nat.ltb_irrefl, Hsize, Hdec. reflexivity.
Qed.

(** X2. get_object_s3 answers 200 with exactly the bytes that were
    encoded, their MD5 digest as ETag and their length as Content-Length,
    under the same conditions on the layout of the latest version. *)
Theorem get_object_s3_recovers (bucket key : string) (w : World) (obj : Object)
        (data : list byte) (shards_data : list (list byte)) :
  Metadata.get_object_metadata (w_db w) bucket key None = Some obj ->
  Ec.encode_data data = Ok shards_data ->
  size_bytes obj = length data ->
  NoDup (map index (shards obj)) ->
  Forall (fun sm => index sm < Ec.M) (shards obj) ->
  served_right shards_data bucket (shards obj) ->
  Ec.K <= length (omap (fetch_shard bucket) (shards obj)) ->
  get_object_s3 env NODES_LIST fetch http_date bucket key w =
    (w, Ok {| status_code := 200; content := data;
              headers :=
                [ ("ETag", S3Api.dquote +:+ md5_hex env data +:+ S3Api.dquote);
                  ("Content-Length", pretty (length data));
                  ("Last-Modified", http_date (created_at obj)) ]%string |}).
Proof.
intros Hobj Henc Hsize Hnd Hall Hs Hk.
rewrite (get_object_s3_found bucket key w obj Hobj).
destruct (decode_fetched data shards_data Henc bucket (shards obj) Hnd Hall Hs Hk)
  as [Hlen Hdec].
rewrite length_map in Hlen. change 4 with Ec.K.
rewrite Hlen, Nat.ltb_irrefl, Hsize, Hdec. reflexivity.
Qed.

(** X3. When fewer than K = 4 shards of the version's layout are served
    under the requested bucket, download_object raises 502 and
    get_object_s3 answers 502; neither decodes anything nor changes the
    tables. *)
Theorem download_needs_K_shards (bucket key : string) (w : World) (obj : Object) :
  Metadata.get_object_metadata (w_db w) bucket key None = Some obj ->
  length (omap (fetch_shard bucket) (shards obj)) < Ec.K ->
  download_object NODES_LIST fetch bucket key None w =
    (w, Raise (HTTPException 502 [])) /\
  get_object_s3 env NODES_LIST fetch http_date bucket key w =
    (w, Ok {| status_code := 502; content := []; headers := [] |}).
Proof.
intros Hobj Hfew. split.
- rewrite (download_object_found bucket key None w obj Hobj).
  rewrite length_firstn.
  rewrite (Permutation_length (omap_Permutation _ _ _ (sort_by_index_perm (shards obj)))).
  destruct (Nat.ltb_spec (Ec.K `min` length (omap (fetch_shard bucket) (shards obj))) Ec.K);
    [reflexivity | lia].
- rewrite (get_object_s3_found bucket key w obj Hobj).
  rewrite length_firstn. change 4 with Ec.K.
  destruct (Nat.ltb_spec (Ec.K `min` length (omap (fetch_shard bucket) (shards obj))) Ec.K);
    [reflexivity | lia].
Qed.

End Registry.

(** Witness of X1: "hello" as stored under b/k, read back while node2 and
    node5 are unreachable. *)
Lemma download_object_recovers_witness :
  download_object Examples.nodes6
    (Scenarios.serving ["node2"; "node5"]%string (w_net Examples.w_stored))
    "b" "k" None Examples.w_stored = (Examples.w_stored, Ok Examples.hello).
Proof.
assert (Hobj : exists obj,
  Metadata.get_object_metadata (w_db Examples.w_stored) "b" "k" None = Some obj /\
  shards obj = Examples.hello_layout /\ size_bytes obj = 5).
{ eexists. split; [vm_compute; reflexivity|]. split; reflexivity. }
destruct Hobj as (obj & Hobj & Hsh & Hsz).
apply (download_object_recovers Examples.nodes6 _ "b" "k" None Examples.w_stored obj
         Examples.hello Examples.hello_shards Hobj).
- vm_compute. reflexivity.
- exact Hsz.
- rewrite Hsh. apply (bool_decide_unpack _). vm_compute. exact I.
- rewrite Hsh. apply (bool_decide_unpack _). vm_compute. exact I.
- rewrite Hsh. intros sm node c Hin.
  unfold Examples.hello_layout in Hin. cbn [In] in Hin.
  repeat (destruct Hin as [<-|Hin];
          [intros Hnode; vm_compute in Hnode; injection Hnode as <-;
           vm_compute; intros; congruence|]).
  destruct Hin.
- rewrite Hsh. vm_compute. lia.
Defined.

(** Witness of X2: the same object through the S3 endpoint while node1 and
    node3 are unreachable. *)
Lemma get_object_s3_recovers_witness :
  get_object_s3 Examples.all_up Examples.nodes6
    (Scenarios.serving ["node1"; "node3"]%string (w_net Examples.w_stored))
    Scenarios.day_stamp "b" "k" Examples.w_stored =
  (Examples.w_stored,
   Ok {| status_code := 200; content := Examples.hello;
         headers :=
           [ ("ETag", S3Api.dquote +:+ md5_hex Examples.all_up Examples.hello
                      +:+ S3Api.dquote);
             ("Content-Length", pretty (length Examples.hello));
             ("Last-Modified", Scenarios.day_stamp 1000) ]%string |}).
Proof.
assert (Hobj : exists obj,
  Metadata.get_object_metadata (w_db Examples.w_stored) "b" "k" None = Some obj /\
  shards obj = Examples.hello_layout /\ size_bytes obj = 5 /\ created_at obj = 1000).
{ eexists. split; [vm_compute; reflexivity|]. repeat split; reflexivity. }
destruct Hobj as (obj & Hobj & Hsh & Hsz & Hat).
rewrite <- Hat.
apply (get_object_s3_recovers Examples.all_up Examples.nodes6 _ Scenarios.day_stamp
         "b" "k" Examples.w_stored obj Examples.hello Examples.hello_shards Hobj).
- vm_compute. reflexivity.
- exact Hsz.
- rewrite Hsh. apply (bool_decide_unpack _). vm_compute. exact I.
- rewrite Hsh. apply (bool_decide_unpack _). vm_compute. exact I.
- rewrite Hsh. intros sm node c Hin.
  unfold Examples.hello_layout in Hin. cbn [In] in Hin.
  repeat (destruct Hin as [<-|Hin];
          [intros Hnode; vm_compute in Hnode; injection Hnode as <-;
           vm_compute; intros; congruence|]).
  destruct Hin.
- rewrite Hsh. vm_compute. lia.
Defined.

(** Witness of X3: with node1, node3 and node6 unreachable only three
    shards of "hello" can be fetched. *)
Lemma download_needs_K_shards_witness :
  download_object Examples.nodes6
    (Scenarios.serving ["node1"; "node3"; "node6"]%string (w_net Examples.w_stored))
    "b" "k" None Examples.w_stored =
    (Examples.w_stored, Raise (HTTPException 502 [])) /\
  get_object_s3 Examples.all_up Examples.nodes6
    (Scenarios.serving ["node1"; "node3"; "node6"]%string (w_net Examples.w_stored))
    Scenarios.day_stamp "b" "k" Examples.w_stored =
    (Examples.w_stored, Ok {| status_code := 502; content := []; headers := [] |}).
Proof.
assert (Hobj : exists obj,
  Metadata.get_object_metadata (w_db Examples.w_stored) "b" "k" None = Some obj /\
  shards obj = Examples.hello_layout).
{ eexists. split; [vm_compute; reflexivity | reflexivity]. }
destruct Hobj as (obj & Hobj & Hsh).
apply (download_needs_K_shards Examples.all_up Examples.nodes6 _ Scenarios.day_stamp
         "b" "k" Examples.w_stored obj Hobj).
rewrite Hsh. vm_compute. lia.
Defined.

End DownloadFacts.

(** ** gateway/metadata.py: what the lookups return after a write or a delete *)

Module VersionFacts.
Import Config Metadata MetadataFacts Queries.

Lemma find_head_filter {A} (p : A -> bool) (l : list A) :
  find p l = head (List.filter p l).
Proof.
induction l as [|x l IH]; cbn [find List.filter]; [reflexivity|].
destruct (p x); [reflexivity | exact IH].
Qed.

Lemma find_app_first {A} (p : A -> bool) (l l' : list A) :
  find p (l ++ l') = match find p l with Some x => Some x | None => find p l' end.
Proof.
induction l as [|x l IH]; cbn [find app]; [reflexivity|].
destruct (p x); [reflexivity | exact IH].
Qed.

Lemma get_latest_eq (db : DB) (bucket key : string) :
  get_object_metadata db bucket key None = find (is_latest_of bucket key) (objects db).
Proof. reflexivity. Qed.

Lemma get_version_eq (db : DB) (bucket key v : string) :
  v <> ""%string ->
  get_object_metadata db bucket key (Some v) =
  find (is_version_of bucket key v) (objects db).
Proof.
intros Hv. unfold get_object_metadata. cbn [truthy default].
destruct (String.eqb_spec v ""); [contradiction | reflexivity].
Qed.

Section Put.
Variable db : DB.
Variables (ver_id : string) (now : nat) (bucket key : string) (size : nat).
Variable shards_ : list ShardMeta.

Let r : DB * Object := put_object_metadata db ver_id now bucket key size shards_.
Let p : Object -> bool := is_latest_of bucket key.

Lemma put_objects :
  objects (fst r) = update_first p unset_latest (objects db) ++ [snd r].
Proof. reflexivity. Qed.

Lemma put_new_row_latest : p (snd r) = true.
Proof.
unfold p, is_latest_of, same_key. cbn. rewrite !String.eqb_refl. reflexivity.
Qed.

(** A query that does not look at is_latest sees the flipped table as it
    saw the table, up to the flag of the row it returns. *)
Lemma find_update_first_unset (q : Object -> bool) (l : list Object) :
  (forall o, q (unset_latest o) = q o) ->
  option_map unset_latest (find q (update_first p unset_latest l)) =
  option_map unset_latest (find q l).
Proof.
intros Hq. induction l as [|x l IH]; cbn [update_first find]; [reflexivity|].
destruct (p x); cbn [find].
- rewrite Hq. destruct (q x); reflexivity.
- destruct (q x); [reflexivity | exact IH].
Qed.

Lemma find_update_first_other (q : Object -> bool) (l : list Object) :
  (forall o, p o = true -> q o = false /\ q (unset_latest o) = false) ->
  find q (update_first p unset_latest l) = find q l.
Proof.
intros Hq. induction l as [|x l IH]; cbn [update_first find]; [reflexivity|].
destruct (p x) eqn:Hp; cbn [find].
- destruct (Hq x Hp) as [-> ->]. reflexivity.
- destruct (q x); [reflexivity | exact IH].
Qed.

End Put.

(** X4. Read your writes: when the key has at most one latest row,
    get_object_metadata(bucket, key) after put_object_metadata returns the
    row just written; and the row is also returned under its version id
    when that id is non-empty and new for the key. *)
Theorem put_then_get_returns_new_version (db : DB) (ver_id : string) (now : nat)
        (bucket key : string) (size : nat) (shards_ : list ShardMeta) :
  latest_count bucket key (objects db) <= 1 ->
  get_object_metadata (fst (put_object_metadata db ver_id now bucket key size shards_))
                      bucket key None =
    Some (snd (put_object_metadata db ver_id now bucket key size shards_)) /\
  (ver_id <> ""%string ->
   get_object_metadata db bucket key (Some ver_id) = None ->
   get_object_metadata (fst (put_object_metadata db ver_id now bucket key size shards_))
                       bucket key (Some ver_id) =
     Some (snd (put_object_metadata db ver_id now bucket key size shards_))).
Proof.
intros Hinv. split.
- rewrite get_latest_eq, put_objects, find_head_filter, List.filter_app.
  unfold unset_latest. rewrite (flip_same bucket key _ Hinv). cbn [app List.filter].
  rewrite put_new_row_latest. reflexivity.
- intros Hv Hnone. rewrite get_version_eq in * by exact Hv.
  rewrite put_objects, find_app_first.
  pose proof (find_update_first_unset bucket key
                (is_version_of bucket key ver_id) (objects db)
                (fun o => eq_refl)) as H.
  rewrite Hnone in H.
  destruct (find (is_version_of bucket key ver_id)
              (update_first (is_latest_of bucket key) unset_latest (objects db)));
    [discriminate|].
  cbn. unfold is_version_of, same_key. cbn. rewrite !String.eqb_refl. reflexivity.
Qed.

(** X5. A write to one key changes no lookup of another key, by latest or
    by version id. *)
Theorem put_leaves_other_keys (db : DB) (ver_id : string) (now : nat)
        (bucket key : string) (size : nat) (shards_ : list ShardMeta)
        (bucket' key' : string) (v : option string) :
  (bucket', key') <> (bucket, key) ->
  get_object_metadata (fst (put_object_metadata db ver_id now bucket key size shards_))
                      bucket' key' v =
  get_object_metadata db bucket' key' v.
Proof.
intros Hne.
assert (Hk : forall o, same_key bucket key o = true -> same_key bucket' key' o = false).
{ intros o Ho. apply same_key_true in Ho as [Hb Hk].
  destruct (same_key bucket' key' o) eqn:E; [|reflexivity].
  apply same_key_true in E as [Hb' Hk']. exfalso. apply Hne. congruence. }
assert (Hnew : same_key bucket' key'
                 (snd (put_object_metadata db ver_id now bucket key size shards_)) = false).
{ apply Hk. unfold same_key. cbn. rewrite !String.eqb_refl. reflexivity. }
unfold get_object_metadata. destruct (truthy v).
- rewrite put_objects, find_app_first, find_update_first_other.
  + destruct (find _ (objects db)); [reflexivity|].
    cbn [find]. rewrite Hnew. reflexivity.
  + intros o Ho. unfold is_latest_of in Ho. apply andb_prop in Ho as [Ho _].
    change (same_key bucket' key' (unset_latest o)) with (same_key bucket' key' o).
    rewrite (Hk o Ho). split; reflexivity.
- rewrite put_objects, find_app_first, find_update_first_other.
  + destruct (find _ (objects db)); [reflexivity|].
    cbn [find]. unfold is_latest_of. rewrite Hnew. reflexivity.
  + intros o Ho. unfold is_latest_of in *. apply andb_prop in Ho as [Ho _].
    change (same_key bucket' key' (unset_latest o)) with (same_key bucket' key' o).
    rewrite (Hk o Ho). split; reflexivity.
Qed.

(** X6. Earlier versions survive an overwrite: a lookup by a version id
    other than the new one returns the same row as before, up to its
    is_latest flag. *)
Theorem put_keeps_earlier_versions (db : DB) (ver_id : string) (now : nat)
        (bucket key : string) (size : nat) (shards_ : list ShardMeta) (v : string) :
  v <> ""%string -> v <> ver_id ->
  option_map unset_latest
    (get_object_metadata (fst (put_object_metadata db ver_id now bucket key size shards_))
                         bucket key (Some v)) =
  option_map unset_latest (get_object_metadata db bucket key (Some v)).
Proof.
intros Hv Hne. rewrite !get_version_eq by exact Hv.
rewrite put_objects, find_app_first.
pose proof (find_update_first_unset bucket key (is_version_of bucket key v)
              (objects db) (fun o => eq_refl)) as H.
destruct (find (is_version_of bucket key v)
            (update_first (is_latest_of bucket key) unset_latest (objects db)));
  [exact H|].
rewrite <- H. cbn [find]. unfold is_version_of at 1. cbn [version_id snd put_object_metadata].
destruct (String.eqb_spec ver_id v); [congruence|].
rewrite andb_false_r. reflexivity.
Qed.

Lemma find_delete_first_other {A} (p q : A -> bool) (l : list A) :
  (forall o, find p l = Some o -> q o = false) ->
  find q (delete_first p l) = find q l.
Proof.
induction l as [|x l IH]; cbn [delete_first find]; [reflexivity|].
destruct (p x) eqn:Hp.
- intros H. rewrite (H x eq_refl). reflexivity.
- intros H. cbn [find]. destruct (q x); [reflexivity | apply IH, H].
Qed.

Lemma delete_objects_eq (db : DB) (bucket key : string) :
  objects (fst (delete_object_metadata db bucket key)) =
  delete_first (is_latest_of bucket key) (objects db).
Proof.
unfold delete_object_metadata.
destruct (find (is_latest_of bucket key) (objects db)) eqn:E; [reflexivity|].
cbn [fst]. symmetry. apply delete_first_no_match, E.
Qed.

Lemma delete_hides_key (db : DB) (bucket key : string) :
  latest_count bucket key (objects db) <= 1 ->
  get_object_metadata (fst (delete_object_metadata db bucket key)) bucket key None = None.
Proof.
intros Hinv. rewrite get_latest_eq, delete_objects_eq, find_head_filter.
rewrite (delete_first_same bucket key).
unfold latest_count in Hinv.
destruct (List.filter (is_latest_of bucket key) (objects db)) as [|x [|y l]];
  [reflexivity | reflexivity | cbn in Hinv; lia].
Qed.

(** X7. delete_object_metadata removes exactly the latest row of the key:
    it answers true if and only if there was one; afterwards the key has
    no latest version (an earlier version does not become latest again),
    the other versions of the key are still found by their version ids,
    and no lookup of another key changes. *)
Theorem delete_removes_only_the_latest_row (db : DB) (bucket key : string) :
  latest_count bucket key (objects db) <= 1 ->
  get_object_metadata (fst (delete_object_metadata db bucket key)) bucket key None
    = None /\
  snd (delete_object_metadata db bucket key) =
    match get_object_metadata db bucket key None with
    | Some _ => true
    | None => false
    end /\
  (forall o v, get_object_metadata db bucket key None = Some o ->
     v <> ""%string -> v <> version_id o ->
     get_object_metadata (fst (delete_object_metadata db bucket key)) bucket key (Some v)
       = get_object_metadata db bucket key (Some v)) /\
  (forall bucket' key' v, (bucket', key') <> (bucket, key) ->
     get_object_metadata (fst (delete_object_metadata db bucket key)) bucket' key' v
       = get_object_metadata db bucket' key' v).
Proof.
intros Hinv. repeat split.
- apply delete_hides_key, Hinv.
- rewrite get_latest_eq. unfold delete_object_metadata.
  destruct (find (is_latest_of bucket key) (objects db)); reflexivity.
- intros o v Ho Hv Hne. rewrite !get_version_eq by exact Hv.
  rewrite delete_objects_eq. apply find_delete_first_other.
  rewrite get_latest_eq in Ho. intros o' Ho'.
  assert (o' = o) by congruence. subst o'.
  unfold is_version_of. destruct (String.eqb_spec (version_id o) v); [congruence|].
  apply andb_false_r.
- intros bucket' key' v Hne.
  assert (Hk : forall o, is_latest_of bucket key o = true ->
                         same_key bucket' key' o = false).
  { intros o Ho. unfold is_latest_of in Ho. apply andb_prop in Ho as [Ho _].
    apply same_key_true in Ho as [Hb Hk].
    destruct (same_key bucket' key' o) eqn:E; [|reflexivity].
    apply same_key_true in E as [Hb' Hk']. exfalso. apply Hne. congruence. }
  unfold get_object_metadata. rewrite delete_objects_eq.
  destruct (truthy v); apply find_delete_first_other; intros o Ho;
    apply find_some in Ho as [_ Ho]; unfold is_latest_of; rewrite (Hk o Ho);
    reflexivity.
Qed.

Lemma latest_inv_tail (x : Object) (l : list Object) :
  latest_inv (x :: l) -> latest_inv l.
Proof.
intros H b k. specialize (H b k). unfold latest_count in *.
cbn [List.filter] in H. destruct (is_latest_of b k x); cbn [length] in H; lia.
Qed.

(** X8. Under the is-latest invariant list_objects names every key of the
    bucket at most once. *)
Theorem list_objects_keys_distinct (db : DB) (bucket : string) :
  latest_inv (objects db) ->
  NoDup (map object_key (list_objects db bucket)).
Proof.
unfold list_objects. generalize (objects db) as l.
induction l as [|x l IH]; intros Hinv; [constructor|].
cbn [List.filter].
destruct (String.eqb (bucket_name x) bucket && is_latest x) eqn:Hx;
  [|apply IH, (latest_inv_tail x), Hinv].
cbn [map]. apply NoDup_cons. split; [|apply IH, (latest_inv_tail x), Hinv].
intros Hin. apply list_elem_of_In, in_map_iff in Hin as (o & Hkey & Hin).
apply filter_In in Hin as [Hin Ho].
apply andb_prop in Hx as [Hxb Hxl]. apply andb_prop in Ho as [Hob Hol].
apply String.eqb_eq in Hxb, Hob.
specialize (Hinv bucket (object_key x)). unfold latest_count in Hinv.
cbn [List.filter] in Hinv.
assert (Hpx : is_latest_of bucket (object_key x) x = true).
{ unfold is_latest_of, same_key. rewrite Hxb, Hxl, !String.eqb_refl. reflexivity. }
rewrite Hpx in Hinv. cbn [length] in Hinv.
assert (Hpo : In o (List.filter (is_latest_of bucket (object_key x)) l)).
{ apply filter_In. split; [exact Hin|].
  unfold is_latest_of, same_key. rewrite Hob, Hkey, Hol, !String.eqb_refl. reflexivity. }
destruct (List.filter (is_latest_of bucket (object_key x)) l);
  [destruct Hpo | cbn in Hinv; lia].
Qed.

Lemma listing_update_first (bucket key : string) (l : list Object) :
  latest_count bucket key l <= 1 ->
  List.filter (fun o => String.eqb (bucket_name o) bucket && is_latest o)
              (update_first (is_latest_of bucket key) unset_latest l) =
  List.filter (fun o => negb (String.eqb (object_key o) key))
    (List.filter (fun o => String.eqb (bucket_name o) bucket && is_latest o) l).
Proof.
unfold latest_count.
induction l as [|x l IH]; intros Hinv; cbn [update_first List.filter] in *;
  [reflexivity|].
unfold is_latest_of, same_key in *.
destruct (String.eqb_spec (bucket_name x) bucket) as [Hb|Hb];
  destruct (is_latest x) eqn:Hl;
  destruct (String.eqb_spec (object_key x) key) as [Hk|Hk];
  cbn [andb negb List.filter length] in *;
  rewrite ?Hl, ?andb_false_r; cbn [andb negb List.filter];
  try (destruct (String.eqb_spec (bucket_name x) bucket); [|contradiction]);
  try (destruct (String.eqb_spec (bucket_name x) bucket); [contradiction|]);
  try (destruct (String.eqb_spec (object_key x) key); [|contradiction]);
  try (destruct (String.eqb_spec (object_key x) key); [contradiction|]);
  cbn [andb negb List.filter]; rewrite ?Hl; cbn [andb negb List.filter];
  try (rewrite IH by exact Hinv; reflexivity);
  try (f_equal; apply IH; exact Hinv).
(* the flipped row: nothing else of the key is latest *)
assert (Hnil : List.filter
                 (fun o => String.eqb (bucket_name o) bucket
                           && String.eqb (object_key o) key && is_latest o) l = []).
{ destruct (List.filter _ l); [reflexivity | cbn in Hinv; lia]. }
clear IH Hinv. induction l as [|y l IH]; [reflexivity|].
cbn [List.filter] in *.
destruct (String.eqb (bucket_name y) bucket); cbn [andb] in *.
- destruct (String.eqb (object_key y) key) eqn:Hyk; cbn [andb] in *.
  + destruct (is_latest y); [discriminate|]. apply IH, Hnil.
  + destruct (is_latest y); cbn [List.filter]; rewrite ?Hyk; cbn [negb];
      [f_equal|]; apply IH, Hnil.
- apply IH, Hnil.
Qed.

(** X9. After put_object_metadata the listing of the bucket holds, in
    whatever order the query returns them, the rows of the former listing
    except the key's entry, and the new row; the listings of the other
    buckets hold the rows they held. *)
Theorem put_then_list_objects (db : DB) (ver_id : string) (now : nat)
        (bucket key : string) (size : nat) (shards_ : list ShardMeta) :
  latest_count bucket key (objects db) <= 1 ->
  Permutation
    (list_objects (fst (put_object_metadata db ver_id now bucket key size shards_)) bucket)
    (snd (put_object_metadata db ver_id now bucket key size shards_)
       :: List.filter (fun o => negb (String.eqb (object_key o) key))
                      (list_objects db bucket)) /\
  (forall bucket', bucket' <> bucket ->
     Permutation
       (list_objects (fst (put_object_metadata db ver_id now bucket key size shards_))
                     bucket')
       (list_objects db bucket')).
Proof.
intros Hinv. split.
- unfold list_objects. rewrite put_objects, List.filter_app.
  rewrite (listing_update_first bucket key _ Hinv).
  cbn [List.filter snd put_object_metadata bucket_name is_latest].
  rewrite String.eqb_refl. cbn [andb].
  symmetry. apply Permutation_cons_append.
- intros bucket' Hne. unfold list_objects. rewrite put_objects, List.filter_app.
  cbn [List.filter snd put_object_metadata bucket_name].
  destruct (String.eqb_spec bucket bucket'); [congruence|].
  cbn [andb]. rewrite app_nil_r.
  generalize (objects db) as l. induction l as [|x l IH]; [reflexivity|].
  cbn [update_first List.filter].
  destruct (is_latest_of bucket key x) eqn:Hp.
  + unfold is_latest_of, same_key in Hp.
    apply andb_prop in Hp as [Hp Hl]. apply andb_prop in Hp as [Hb _].
    apply String.eqb_eq in Hb. cbn [List.filter].
    change (bucket_name (unset_latest x)) with (bucket_name x).
    destruct (String.eqb_spec (bucket_name x) bucket'); [congruence|]. reflexivity.
  + cbn [List.filter].
    destruct (String.eqb (bucket_name x) bucket' && is_latest x);
      [apply Permutation_cons; [reflexivity | exact IH] | exact IH].
Qed.

(** Witness of X4: a third version of b/k on the store that holds "hello"
    under b/k and b/k2. *)
Lemma put_then_get_returns_new_version_witness :
  get_object_metadata
    (fst (put_object_metadata (World.w_db Examples.w_shared) "v3" 1001 "b" "k" 7 []))
    "b" "k" None =
    Some (snd (put_object_metadata (World.w_db Examples.w_shared) "v3" 1001 "b" "k" 7 [])) /\
  get_object_metadata
    (fst (put_object_metadata (World.w_db Examples.w_shared) "v3" 1001 "b" "k" 7 []))
    "b" "k" (Some "v3"%string) =
    Some (snd (put_object_metadata (World.w_db Examples.w_shared) "v3" 1001 "b" "k" 7 [])).
Proof.
assert (Hinv : latest_count "b" "k" (objects (World.w_db Examples.w_shared)) <= 1).
{ vm_compute. lia. }
destruct (put_then_get_returns_new_version (World.w_db Examples.w_shared)
            "v3" 1001 "b" "k" 7 [] Hinv) as [H1 H2].
split; [exact H1|]. apply H2; [discriminate | vm_compute; reflexivity].
Defined.

(** Witness of X5: the same write, seen from b/k2. *)
Lemma put_leaves_other_keys_witness :
  get_object_metadata
    (fst (put_object_metadata (World.w_db Examples.w_shared) "v3" 1001 "b" "k" 7 []))
    "b" "k2" None =
  get_object_metadata (World.w_db Examples.w_shared) "b" "k2" None.
Proof.
apply (put_leaves_other_keys (World.w_db Examples.w_shared) "v3" 1001 "b" "k" 7 []
         "b" "k2" None).
discriminate.
Defined.

(** Witness of X6: the first version of b/k, looked up by its version id
    after the overwrite. *)
Lemma put_keeps_earlier_versions_witness :
  option_map unset_latest
    (get_object_metadata
       (fst (put_object_metadata (World.w_db Examples.w_shared) "v3" 1001 "b" "k" 7 []))
       "b" "k" (Some "uuid-1"%string)) =
  option_map unset_latest
    (get_object_metadata (World.w_db Examples.w_shared) "b" "k" (Some "uuid-1"%string)).
Proof.
apply (put_keeps_earlier_versions (World.w_db Examples.w_shared) "v3" 1001 "b" "k" 7 []
         "uuid-1"); discriminate.
Defined.

(** Witness of X7: b/k is deleted from the store in which it was rewritten
    once; its first version is still there, and is not latest. *)
Lemma delete_removes_only_the_latest_row_witness :
  get_object_metadata
    (fst (delete_object_metadata (World.w_db Examples.w_rewritten) "b" "k")) "b" "k" None
    = None /\
  snd (delete_object_metadata (World.w_db Examples.w_rewritten) "b" "k") = true /\
  get_object_metadata
    (fst (delete_object_metadata (World.w_db Examples.w_rewritten) "b" "k"))
    "b" "k" (Some "uuid-1"%string) =
  get_object_metadata (World.w_db Examples.w_rewritten) "b" "k" (Some "uuid-1"%string) /\
  get_object_metadata
    (fst (delete_object_metadata (World.w_db Examples.w_rewritten) "b" "k")) "b" "k2" None =
  get_object_metadata (World.w_db Examples.w_rewritten) "b" "k2" None.
Proof.
assert (Hinv : latest_count "b" "k" (objects (World.w_db Examples.w_rewritten)) <= 1).
{ vm_compute. lia. }
assert (Hobj : exists o,
  get_object_metadata (World.w_db Examples.w_rewritten) "b" "k" None = Some o /\
  version_id o = "uuid-3"%string).
{ eexists. split; [vm_compute; reflexivity | reflexivity]. }
destruct Hobj as (o & Ho & Hv).
destruct (delete_removes_only_the_latest_row (World.w_db Examples.w_rewritten) "b" "k" Hinv)
  as (H1 & H2 & H3 & H4).
split; [exact H1|]. split; [rewrite H2, Ho; reflexivity|]. split.
- apply (H3 o "uuid-1"%string Ho); [discriminate | rewrite Hv; discriminate].
- apply H4. discriminate.
Defined.

(** Witness of X8: the listing of bucket b. *)
Lemma list_objects_keys_distinct_witness :
  NoDup (map object_key (list_objects (World.w_db Examples.w_rewritten) "b")).
Proof.
apply list_objects_keys_distinct, latest_inv_b_sound. vm_compute. reflexivity.
Defined.

(** Witness of X9: b/k overwritten in the store that lists k and k2. *)
Lemma put_then_list_objects_witness :
  Permutation
    (list_objects
       (fst (put_object_metadata (World.w_db Examples.w_shared) "v3" 1001 "b" "k" 7 [])) "b")
    (snd (put_object_metadata (World.w_db Examples.w_shared) "v3" 1001 "b" "k" 7 [])
       :: List.filter (fun o => negb (String.eqb (object_key o) "k"))
                      (list_objects (World.w_db Examples.w_shared) "b")).
Proof.
apply (proj1 (put_then_list_objects (World.w_db Examples.w_shared) "v3" 1001 "b" "k" 7 []
                (ltac:(vm_compute; lia)))).
Defined.

End VersionFacts.

(** ** gateway/quota_manager.py: limits, usage and accepted writes *)

Module QuotaUsageFacts.
Import Config Metadata QuotaManager QuotaAdmin Queries VersionFacts.

Section Usage.
Variable bucket : string.
Let listed (o : Object) : bool := String.eqb (bucket_name o) bucket && is_latest o.
Let total (rows : list Object) : Z :=
  fold_right Z.add 0%Z (map (fun o => Z.of_nat (size_bytes o)) rows).

Lemma total_cons (x : Object) (rows : list Object) :
  total (x :: rows) = (Z.of_nat (size_bytes x) + total rows)%Z.
Proof. reflexivity. Qed.

Lemma total_app (l l' : list Object) : total (l ++ l') = (total l + total l')%Z.
Proof.
induction l as [|x l IH]; [reflexivity|].
cbn [app]. rewrite !total_cons, IH. lia.
Qed.

(** Flipping the prior latest of a key can only lower the usage. *)
Lemma usage_after_flip (b k : string) (l : list Object) :
  length (List.filter listed (update_first (is_latest_of b k) unset_latest l))
    <= length (List.filter listed l) /\
  (total (List.filter listed (update_first (is_latest_of b k) unset_latest l))
     <= total (List.filter listed l))%Z.
Proof.
induction l as [|x l IH]; cbn [update_first List.filter]; [split; reflexivity|].
destruct (is_latest_of b k x) eqn:Hp; cbn [List.filter].
- assert (Hu : listed (unset_latest x) = false) by apply andb_false_r.
  rewrite Hu. destruct (listed x); [|split; reflexivity].
  rewrite total_cons. cbn [length]. lia.
- destruct (listed x); [|exact IH]. destruct IH as [IH1 IH2].
  rewrite !total_cons. cbn [length]. lia.
Qed.

Lemma current_stats_eq (db : DB) :
  current_stats db bucket =
  (Z.of_nat (length (List.filter listed (objects db))),
   total (List.filter listed (objects db))).
Proof. reflexivity. Qed.

End Usage.

(** X10. A write of at least one byte that check_quota accepts leaves the
    bucket within its quota: after put_object_metadata the number of
    latest objects and their total size do not exceed the limits. *)
Theorem accepted_write_stays_within_quota (db : DB) (bucket key ver_id : string)
        (now size : nat) (shards_ : list ShardMeta) (qi : QuotaInfo) :
  0 < size ->
  check_quota_db db bucket (Z.of_nat size) = Ok qi ->
  (fst (current_stats (fst (put_object_metadata db ver_id now bucket key size shards_))
                      bucket)
     <= max_objects (get_quota db bucket))%Z /\
  (snd (current_stats (fst (put_object_metadata db ver_id now bucket key size shards_))
                      bucket)
     <= max_size_bytes (get_quota db bucket))%Z.
Proof.
intros Hsize Hq.
unfold check_quota_db in Hq. rewrite current_stats_eq in Hq.
destruct (Z.ltb_spec 0 (Z.of_nat size)) as [_|]; [|lia].
match type of Hq with
| (if (?a <? ?b)%Z then _ else _) = _ =>
    destruct (Z.ltb_spec a b) as [|Hs]; [discriminate|]
end.
match type of Hq with
| (if (?a <? ?b)%Z then _ else _) = _ =>
    destruct (Z.ltb_spec a b) as [|Ho]; [discriminate|]
end.
rewrite current_stats_eq, put_objects, List.filter_app.
destruct (usage_after_flip bucket bucket key (objects db)) as [H1 H2].
cbn [fst snd]. rewrite length_app, total_app.
cbn [List.filter put_object_metadata snd bucket_name is_latest].
rewrite String.eqb_refl. cbn [andb length]. rewrite total_cons.
cbn [size_bytes fold_right map] in *. lia.
Qed.

(** Witness of X10: seven bytes written to b/k in the store that holds
    "hello" under b/k and b/k2. *)
Lemma accepted_write_stays_within_quota_witness :
  (fst (current_stats
          (fst (put_object_metadata (World.w_db Examples.w_shared) "v3" 1001 "b" "k" 7 []))
          "b") <= max_objects (get_quota (World.w_db Examples.w_shared) "b"))%Z /\
  (snd (current_stats
          (fst (put_object_metadata (World.w_db Examples.w_shared) "v3" 1001 "b" "k" 7 []))
          "b") <= max_size_bytes (get_quota (World.w_db Examples.w_shared) "b"))%Z.
Proof.
assert (Hq : exists qi,
  check_quota_db (World.w_db Examples.w_shared) "b" (Z.of_nat 7) = Ok qi).
{ eexists. vm_compute. reflexivity. }
destruct Hq as [qi Hq].
apply (accepted_write_stays_within_quota (World.w_db Examples.w_shared) "b" "k" "v3"
         1001 7 [] qi); [lia | exact Hq].
Defined.

Lemma get_quota_set_quota (db : DB) (bucket : string) (s o : Z) (bucket' : string) :
  get_quota (set_quota db bucket s o) bucket' =
  if String.eqb bucket bucket' then {| max_size_bytes := s; max_objects := o |}
  else get_quota db bucket'.
Proof.
unfold get_quota, set_quota. cbn [bucket_quotas].
destruct (String.eqb_spec bucket bucket') as [->|Hne].
- rewrite lookup_insert_eq. reflexivity.
- rewrite lookup_insert_ne by exact Hne. reflexivity.
Qed.

(** X11. set_quota takes effect at once and for its bucket only: after
    set_quota(bucket, s, o), check_quota accepts a write of n bytes to the
    bucket exactly when the latest-version size plus n is at most s and
    the latest-version count (plus one when n > 0) is at most o; the
    verdicts for every other bucket are what they were. *)
Theorem set_quota_decides_check_quota (db : DB) (bucket : string) (s o n : Z) :
  is_ok (check_quota_db (set_quota db bucket s o) bucket n) =
    (snd (current_stats db bucket) + n <=? s)%Z
    && (fst (current_stats db bucket) + (if (0 <? n)%Z then 1 else 0) <=? o)%Z /\
  (forall bucket', bucket' <> bucket ->
     check_quota_db (set_quota db bucket s o) bucket' n = check_quota_db db bucket' n).
Proof.
split.
- unfold check_quota_db. rewrite get_quota_set_quota, String.eqb_refl.
  change (current_stats (set_quota db bucket s o) bucket)
    with (current_stats db bucket).
  destruct (current_stats db bucket) as [cnt used]. cbn [fst snd max_size_bytes max_objects].
  destruct (Z.ltb_spec s (used + n)); destruct (Z.leb_spec (used + n) s); try lia;
    cbn [andb is_ok]; [reflexivity|].
  destruct (Z.ltb_spec o (cnt + (if (0 <? n)%Z then 1 else 0)));
    destruct (Z.leb_spec (cnt + (if (0 <? n)%Z then 1 else 0)) o); try lia; reflexivity.
- intros bucket' Hne. unfold check_quota_db.
  rewrite get_quota_set_quota.
  destruct (String.eqb_spec bucket bucket'); [congruence|]. reflexivity.
Qed.

End QuotaUsageFacts.

(** ** gateway/gc_service.py: what garbage collection removes and what it
       leaves *)

Module GcFacts.
Import Config Metadata World Gateway PipelineSpec PipelineFacts GcService GcVersions.

Lemma sent_world_sent_world (w : World) (r1 r2 : list NetReq) :
  sent_world (sent_world w r1 0) r2 0 = sent_world w (r1 ++ r2) 0.
Proof. unfold sent_world. cbn. rewrite app_assoc. reflexivity. Qed.

(** The DELETE requests for the layouts of the rows [l]. *)
Lemma for_each_delete_shards (NODES_LIST : list NodeInfo) (l : list Object) (w : World) :
  exists us,
    for_each (fun obj => delete_shards NODES_LIST (bucket_name obj) (shards obj)) l w =
    (sent_world w
       (flat_map (fun o => delete_requests NODES_LIST (bucket_name o) (shards o)) l) 0,
     Ok us).
Proof.
revert w. induction l as [|o l IH]; intros w.
- exists []. cbn. rewrite sent_world_nil. reflexivity.
- cbn [for_each flat_map]. unfold mbind at 1. unfold M_bind at 1.
  rewrite delete_shards_run.
  destruct (IH (sent_world w (delete_requests NODES_LIST (bucket_name o) (shards o)) 0))
    as [us Hus].
  unfold mbind, M_bind. rewrite Hus. rewrite sent_world_sent_world.
  eexists. reflexivity.
Qed.

Lemma id_inj_in (l : list Object) (a b : Object) :
  NoDup (map id l) -> In a l -> In b l -> id a = id b -> a = b.
Proof.
intros Hnd Ha Hb Hid. induction l as [|x l IH]; [destruct Ha|].
cbn [map] in Hnd. apply NoDup_cons in Hnd as [Hx Hnd].
destruct Ha as [->|Ha], Hb as [->|Hb]; [reflexivity | | |apply IH; assumption].
- exfalso. apply Hx. rewrite Hid. apply list_elem_of_In, in_map, Hb.
- exfalso. apply Hx. rewrite <- Hid. apply list_elem_of_In, in_map, Ha.
Qed.

Lemma filter_ids_keep (old l : list Object) (q : Object -> bool) :
  NoDup (map id l) ->
  (forall o, In o old <-> In o l /\ q o = true) ->
  List.filter (fun o => negb (existsb (fun d => id d =? id o) old)) l =
  List.filter (fun o => negb (q o)) l.
Proof.
intros Hnd Hold. apply filter_ext_in. intros o Ho. f_equal.
destruct (q o) eqn:Hq.
- apply existsb_exists. exists o. split; [apply Hold; auto | apply Nat.eqb_refl].
- destruct (existsb _ old) eqn:E; [|reflexivity].
  apply existsb_exists in E as (d & Hd & Hid). apply Nat.eqb_eq in Hid.
  apply Hold in Hd as [Hd Hqd].
  assert (d = o) by (apply (id_inj_in l); assumption). congruence.
Qed.

Lemma filter_filter_latest (q : Object -> bool) (p : Object -> bool) (l : list Object) :
  (forall o, In o l -> p o = true -> q o = false) ->
  List.filter p (List.filter (fun o => negb (q o)) l) = List.filter p l.
Proof.
induction l as [|x l IH]; intros H; [reflexivity|].
cbn [List.filter].
assert (H' : forall o, In o l -> p o = true -> q o = false).
{ intros o Ho. apply H. right. exact Ho. }
destruct (q x) eqn:Hq; cbn [negb List.filter].
- destruct (p x) eqn:Hp; [|apply IH, H'].
  rewrite (H x (or_introl eq_refl) Hp) in Hq. discriminate.
- rewrite (IH H'). reflexivity.
Qed.

Lemma count_perm {A} (p : A -> bool) (l l' : list A) :
  Permutation l l' -> length (List.filter p l) = length (List.filter p l').
Proof.
induction 1 as [|x l l' _ IH|x y l|l l' l'' _ IH1 _ IH2]; cbn [List.filter].
- reflexivity.
- destruct (p x); cbn [length]; rewrite IH; reflexivity.
- destruct (p x), (p y); reflexivity.
- rewrite IH1. exact IH2.
Qed.

Lemma delete_requests_are_deletes (NODES_LIST : list NodeInfo) (bucket : string)
      (l : list ShardMeta) :
  existsb (fun q => negb (is_delete q)) (delete_requests NODES_LIST bucket l) = false.
Proof.
induction l as [|sm l IH]; [reflexivity|].
rewrite delete_requests_cons.
destruct (Dict.get (NODES NODES_LIST) (sm_node_id sm)); [cbn [existsb is_delete negb orb]|];
  exact IH.
Qed.

Lemma gc_sends_deletes_only (NODES_LIST : list NodeInfo) (rows : list Object) :
  existsb (fun q => negb (is_delete q))
    (flat_map (fun o => delete_requests NODES_LIST (bucket_name o) (shards o)) rows)
  = false.
Proof.
induction rows as [|d rows IH]; [reflexivity|].
change (flat_map ?f (d :: rows)) with (f d ++ flat_map f rows).
rewrite existsb_app, IH, delete_requests_are_deletes. reflexivity.
Qed.

Section ByAge.
Variable env : Env.
Variable NODES_LIST : list NodeInfo.
Variable RETENTION : nat.

Lemma cleanup_by_age_run (w : World) :
  let old := List.filter (is_old (now env - RETENTION)) (objects (w_db w)) in
  cleanup_by_age env NODES_LIST RETENTION w =
    ({| w_db := set_objects (w_db w)
                  (List.filter (fun o => negb (existsb (fun d => id d =? id o) old))
                               (objects (w_db w)));
        w_net := w_net w
                 ++ flat_map (fun o => delete_requests NODES_LIST (bucket_name o) (shards o))
                             old;
        w_events := w_events w;
        w_uuid := w_uuid w |}, Ok (length old)).
Proof.
intros old. unfold cleanup_by_age. unfold mbind at 1. unfold M_bind at 1.
cbv [get_db]. fold old.
destruct (for_each_delete_shards NODES_LIST old w) as [us Hus].
unfold mbind at 1. unfold M_bind at 1. rewrite Hus. reflexivity.
Qed.

(** X12. Garbage collection by age removes exactly the rows that are not
    latest and older than the cutoff and returns their number; it sends
    DELETE requests for their shards and nothing else, and it changes no
    listing, no lookup of a latest version and no row of the content
    store. *)
Theorem cleanup_by_age_removes_old_versions_only (w : World) :
  NoDup (map id (objects (w_db w))) ->
  let cutoff := now env - RETENTION in
  let old := List.filter (is_old cutoff) (objects (w_db w)) in
  let w' := fst (cleanup_by_age env NODES_LIST RETENTION w) in
  snd (cleanup_by_age env NODES_LIST RETENTION w) = Ok (length old) /\
  objects (w_db w') = List.filter (fun o => negb (is_old cutoff o)) (objects (w_db w)) /\
  w_net w' = w_net w
             ++ flat_map (fun o => delete_requests NODES_LIST (bucket_name o) (shards o))
                         old /\
  content_store (w_db w') = content_store (w_db w) /\
  (forall bucket, list_objects (w_db w') bucket = list_objects (w_db w) bucket) /\
  (forall bucket key,
     Metadata.get_object_metadata (w_db w') bucket key None =
     Metadata.get_object_metadata (w_db w) bucket key None).
Proof.
intros Hnd cutoff old w'. subst w'. rewrite cleanup_by_age_run. fold cutoff. fold old.
cbn [fst snd w_db w_net set_objects objects content_store].
assert (Hobjs :
  List.filter (fun o => negb (existsb (fun d => id d =? id o) old)) (objects (w_db w)) =
  List.filter (fun o => negb (is_old cutoff o)) (objects (w_db w))).
{ apply filter_ids_keep; [exact Hnd|]. intros o. unfold old. apply filter_In. }
rewrite Hobjs. repeat split.
- intros bucket. unfold list_objects. cbn [objects].
  apply filter_filter_latest. intros o _ Ho. apply andb_prop in Ho as [_ Ho].
  unfold is_old. rewrite Ho. reflexivity.
- intros bucket key. unfold Metadata.get_object_metadata. cbn [truthy objects].
  rewrite !VersionFacts.find_head_filter. f_equal.
  apply filter_filter_latest. intros o _ Ho. unfold is_latest_of in Ho.
  apply andb_prop in Ho as [_ Ho]. unfold is_old. rewrite Ho. reflexivity.
Qed.

End ByAge.

Section ByVersion.
Variable NODES_LIST : list NodeInfo.
Variable MAX_VERSIONS : nat.
Variable order_by : list Object -> list Object.

Abbreviation versions_loop := (GcVersions.versions_loop NODES_LIST MAX_VERSIONS).

(** The loop hands to db.delete rows that are not latest, and sends the
    DELETE requests of their layouts. *)
Lemma versions_loop_run (l : list Object) (ck : option string) (vc : nat) (w : World) :
  exists deleted,
    versions_loop l ck vc w =
      (sent_world w
         (flat_map (fun o => delete_requests NODES_LIST (bucket_name o) (shards o))
                   deleted) 0,
       Ok deleted) /\
    Forall (fun o => In o l /\ is_latest o = false) deleted.
Proof.
revert ck vc w. induction l as [|obj l IH]; intros ck vc w.
- exists []. split; [cbn; rewrite sent_world_nil; reflexivity | constructor].
- cbn [GcVersions.versions_loop].
  set (same := match ck with
               | Some k => String.eqb (key_identifier obj) k
               | None => false
               end).
  set (ck' := if same then ck else Some (key_identifier obj)).
  set (vc' := (if same then vc else 0) + 1).
  assert (Hweak : forall deleted,
            Forall (fun o => In o l /\ is_latest o = false) deleted ->
            Forall (fun o => In o (obj :: l) /\ is_latest o = false) deleted).
  { intros deleted H. eapply Forall_impl; [exact H|]. cbn. intros o [? ?]. auto. }
  destruct (is_latest obj) eqn:Hl.
  + destruct (IH ck' vc' w) as (deleted & Hrun & Hdel).
    exists deleted. split; [exact Hrun | apply Hweak, Hdel].
  + destruct (MAX_VERSIONS <? vc').
    * unfold mbind at 1. unfold M_bind at 1. rewrite delete_shards_run.
      destruct (IH ck' vc'
                  (sent_world w (delete_requests NODES_LIST (bucket_name obj) (shards obj)) 0))
        as (deleted & Hrun & Hdel).
      exists (obj :: deleted). split.
      -- unfold mbind, M_bind. rewrite Hrun. cbn [flat_map].
         rewrite sent_world_sent_world. reflexivity.
      -- apply Forall_cons. split; [split; [left; reflexivity | exact Hl]|].
         apply Hweak, Hdel.
    * destruct (IH ck' vc' w) as (deleted & Hrun & Hdel).
      exists deleted. split; [exact Hrun | apply Hweak, Hdel].
Qed.

(** No row is handed to db.delete while no key has more rows than the
    limit. *)
Lemma versions_loop_within_limit (l : list Object) (ck : option string) (vc : nat)
      (w : World) :
  (forall k, (match ck with
              | Some k' => if String.eqb k k' then vc else 0
              | None => 0
              end)
             + length (List.filter (fun o => String.eqb (key_identifier o) k) l)
             <= MAX_VERSIONS) ->
  versions_loop l ck vc w = (w, Ok []).
Proof.
revert ck vc. induction l as [|obj l IH]; intros ck vc Hinv; [reflexivity|].
cbn [GcVersions.versions_loop].
set (same := match ck with
             | Some k => String.eqb (key_identifier obj) k
             | None => false
             end).
set (ck' := if same then ck else Some (key_identifier obj)).
set (vc' := (if same then vc else 0) + 1).
assert (Hck' : ck' = Some (key_identifier obj)).
{ unfold ck', same. destruct ck as [k|]; [|reflexivity].
  destruct (String.eqb_spec (key_identifier obj) k); congruence. }
assert (Hinv' : forall k,
          (match ck' with
           | Some k' => if String.eqb k k' then vc' else 0
           | None => 0
           end)
          + length (List.filter (fun o => String.eqb (key_identifier o) k) l)
          <= MAX_VERSIONS).
{ intros k. specialize (Hinv k). cbn [List.filter] in Hinv. rewrite Hck'.
  rewrite (String.eqb_sym k (key_identifier obj)).
  destruct (String.eqb_spec (key_identifier obj) k) as [Hk|Hk]; cbn [length] in Hinv.
  - unfold vc', same. destruct ck as [k'|]; [|lia].
    rewrite Hk, (String.eqb_sym k k') in *. destruct (String.eqb k' k); lia.
  - destruct ck as [k'|]; [destruct (String.eqb k k')|]; lia. }
assert (Hvc : vc' <= MAX_VERSIONS).
{ specialize (Hinv' (key_identifier obj)). rewrite Hck', String.eqb_refl in Hinv'. lia. }
destruct (is_latest obj); [apply IH, Hinv'|].
destruct (Nat.ltb_spec MAX_VERSIONS vc'); [lia | apply IH, Hinv'].
Qed.

Lemma cleanup_old_versions_run (w : World) :
  exists deleted,
    cleanup_old_versions NODES_LIST MAX_VERSIONS order_by w =
      ({| w_db := set_objects (w_db w)
                    (List.filter
                       (fun o => negb (existsb (fun d => id d =? id o) deleted))
                       (objects (w_db w)));
          w_net := w_net w
                   ++ flat_map (fun o => delete_requests NODES_LIST (bucket_name o)
                                                         (shards o)) deleted;
          w_events := w_events w;
          w_uuid := w_uuid w |}, Ok (length deleted)) /\
    versions_loop (order_by (objects (w_db w))) None 0 w =
      (sent_world w
         (flat_map (fun o => delete_requests NODES_LIST (bucket_name o) (shards o))
                   deleted) 0,
       Ok deleted) /\
    Forall (fun o => In o (order_by (objects (w_db w))) /\ is_latest o = false) deleted.
Proof.
destruct (versions_loop_run (order_by (objects (w_db w))) None 0 w)
  as (deleted & Hrun & Hdel).
exists deleted. split; [|split; assumption].
unfold cleanup_old_versions. unfold mbind at 1. unfold M_bind at 1. cbv [get_db].
unfold mbind at 1. unfold M_bind at 1. rewrite Hrun. reflexivity.
Qed.

(** X13. Garbage collection by version count, whatever the order in which
    the database returns the rows: it sends DELETE requests only, it
    changes no listing, no lookup of a latest version and no row of the
    content store; and when no key (bucket/key identifier) has more than
    MAX_VERSIONS rows it removes nothing and sends nothing. *)
Theorem cleanup_old_versions_keeps_latest (w : World) :
  NoDup (map id (objects (w_db w))) ->
  Permutation (order_by (objects (w_db w))) (objects (w_db w)) ->
  let r := cleanup_old_versions NODES_LIST MAX_VERSIONS order_by w in
  (exists n, snd r = Ok n) /\
  existsb (fun q => negb (is_delete q)) (skipn (length (w_net w)) (w_net (fst r))) = false /\
  content_store (w_db (fst r)) = content_store (w_db w) /\
  (forall bucket, list_objects (w_db (fst r)) bucket = list_objects (w_db w) bucket) /\
  (forall bucket key,
     Metadata.get_object_metadata (w_db (fst r)) bucket key None =
     Metadata.get_object_metadata (w_db w) bucket key None) /\
  ((forall k, length (List.filter (fun o => String.eqb (key_identifier o) k)
                                  (objects (w_db w))) <= MAX_VERSIONS) ->
   r = (w, Ok 0)).
Proof.
intros Hnd Hperm r. subst r.
destruct (cleanup_old_versions_run w) as (deleted & -> & Hrun & Hdel).
cbn [fst snd w_db w_net set_objects objects content_store].
assert (Hkeep : forall p : Object -> bool,
  (forall o, p o = true -> is_latest o = true) ->
  List.filter p
    (List.filter (fun o => negb (existsb (fun d => id d =? id o) deleted))
                 (objects (w_db w))) =
  List.filter p (objects (w_db w))).
{ intros p Hp. apply filter_filter_latest. intros o Hin Ho.
  destruct (existsb (fun d => id d =? id o) deleted) eqn:E; [|reflexivity].
  exfalso. apply existsb_exists in E as (d & Hd & Hid). apply Nat.eqb_eq in Hid.
  rewrite Forall_forall in Hdel. apply list_elem_of_In in Hd.
  destruct (Hdel d Hd) as [Hind Hl].
  apply (Permutation_in _ Hperm) in Hind.
  assert (d = o) by (apply (id_inj_in (objects (w_db w))); assumption).
  subst d. rewrite (Hp o Ho) in Hl. discriminate. }
split; [eexists; reflexivity|]. repeat split.
- rewrite skipn_app, skipn_all, Nat.sub_diag. cbn [app skipn].
  apply gc_sends_deletes_only.
- intros bucket. unfold list_objects. cbn [objects]. apply Hkeep.
  intros o Ho. apply andb_prop in Ho as [_ Ho]. exact Ho.
- intros bucket key. unfold Metadata.get_object_metadata. cbn [truthy objects].
  rewrite !VersionFacts.find_head_filter. f_equal. apply Hkeep.
  intros o Ho. unfold is_latest_of in Ho. apply andb_prop in Ho as [_ Ho]. exact Ho.
- intros Hlim.
  rewrite (versions_loop_within_limit (order_by (objects (w_db w))) None 0 w) in Hrun.
  + assert (deleted = []) by congruence. subst deleted.
    cbn [flat_map existsb negb length]. rewrite app_nil_r.
    assert (Hall : List.filter (fun _ : Object => true) (objects (w_db w)) = objects (w_db w)).
    { clear. induction (objects (w_db w)) as [|x l IH]; [reflexivity|].
      cbn [List.filter]. rewrite IH. reflexivity. }
    rewrite Hall. destruct w as [db net ev u]. destruct db. reflexivity.
  + intros k. cbn [Nat.add].
    rewrite (count_perm (fun o => String.eqb (key_identifier o) k) _ _ Hperm).
    apply Hlim.
Qed.

End ByVersion.

(** Witness of X12: forty days after b/k was rewritten, its first version
    is collected. *)
Lemma cleanup_by_age_removes_old_versions_only_witness :
  snd (cleanup_by_age Examples.later Examples.nodes6 Examples.thirty_days
                      Examples.w_rewritten) = Ok 1 /\
  content_store
    (w_db (fst (cleanup_by_age Examples.later Examples.nodes6 Examples.thirty_days
                               Examples.w_rewritten))) =
    content_store (w_db Examples.w_rewritten) /\
  list_objects
    (w_db (fst (cleanup_by_age Examples.later Examples.nodes6 Examples.thirty_days
                               Examples.w_rewritten))) "b" =
    list_objects (w_db Examples.w_rewritten) "b".
Proof.
assert (Hnd : NoDup (map id (objects (w_db Examples.w_rewritten)))).
{ apply (bool_decide_unpack _). vm_compute. exact I. }
pose proof (cleanup_by_age_removes_old_versions_only Examples.later Examples.nodes6
              Examples.thirty_days Examples.w_rewritten Hnd) as H.
cbv zeta in H. destruct H as (H1 & _ & _ & H4 & H5 & _).
split; [rewrite H1; vm_compute; reflexivity|]. split; [exact H4 | apply H5].
Defined.

(** Witness of X13: the same store, read newest first, with the limit of
    five versions per key. *)
Lemma cleanup_old_versions_keeps_latest_witness :
  cleanup_old_versions Examples.nodes6 5 (@rev Object) Examples.w_rewritten =
    (Examples.w_rewritten, Ok 0) /\
  list_objects
    (w_db (fst (cleanup_old_versions Examples.nodes6 0 (@rev Object)
                                     Examples.w_rewritten))) "b" =
    list_objects (w_db Examples.w_rewritten) "b".
Proof.
assert (Hnd : NoDup (map id (objects (w_db Examples.w_rewritten)))).
{ apply (bool_decide_unpack _). vm_compute. exact I. }
assert (Hperm : Permutation (rev (objects (w_db Examples.w_rewritten)))
                            (objects (w_db Examples.w_rewritten))).
{ symmetry. apply Permutation_rev. }
split.
- pose proof (cleanup_old_versions_keeps_latest Examples.nodes6 5 (@rev Object)
                Examples.w_rewritten Hnd Hperm) as H.
  cbv zeta in H. destruct H as (_ & _ & _ & _ & _ & H6). apply H6.
  intros k. etransitivity; [apply filter_length_le|]. vm_compute. lia.
- pose proof (cleanup_old_versions_keeps_latest Examples.nodes6 0 (@rev Object)
                Examples.w_rewritten Hnd Hperm) as H.
  cbv zeta in H. destruct H as (_ & _ & _ & H4 & _). apply H4.
Defined.

End GcFacts.

(** ** gateway/config.py: the NODES dictionary and the nodes it selects *)

Module RegistryFacts.
Import Config ConfigFacts.

Lemma dict_get_set {V} (d : Dict.dict V) (k k' : string) (v : V) :
  Dict.get (Dict.set d k' v) k = if String.eqb k k' then Some v else Dict.get d k.
Proof.
unfold Dict.get. induction d as [|[k0 v0] d IH]; cbn [Dict.set find fst].
- destruct (String.eqb k k'); reflexivity.
- destruct (String.eqb_spec k' k0) as [->|Hne]; cbn [find fst].
  + destruct (String.eqb k k0); reflexivity.
  + destruct (String.eqb_spec k k0) as [->|Hne'].
    * destruct (String.eqb_spec k0 k'); [congruence | reflexivity].
    * exact IH.
Qed.

Lemma fold_set_get (l : list NodeInfo) (d : Dict.dict NodeInfo) (k : string) :
  Dict.get (fold_left (fun d n => Dict.set d (node_id n) n) l d) k =
  match find (fun n => String.eqb k (node_id n)) (rev l) with
  | Some n => Some n
  | None => Dict.get d k
  end.
Proof.
revert d. induction l as [|x l IH]; intros d; [reflexivity|].
cbn [fold_left rev]. rewrite IH, VersionFacts.find_app_first.
destruct (find _ (rev l)); [reflexivity|].
cbn [find]. rewrite dict_get_set. destruct (String.eqb k (node_id x)); reflexivity.
Qed.

Lemma NODES_get_find (NODES_LIST : list NodeInfo) (k : string) :
  Dict.get (NODES NODES_LIST) k =
  find (fun n => String.eqb k (node_id n)) (rev NODES_LIST).
Proof.
unfold NODES, NODES_of. rewrite fold_set_get.
destruct (find _ (rev NODES_LIST)); reflexivity.
Qed.

Lemma NODES_get_some (NODES_LIST : list NodeInfo) (k : string) (n : NodeInfo) :
  Dict.get (NODES NODES_LIST) k = Some n -> In n NODES_LIST /\ node_id n = k.
Proof.
rewrite NODES_get_find. intros H. apply find_some in H as [Hin Hk].
apply in_rev in Hin. apply String.eqb_eq in Hk. auto.
Qed.

(** X14. NODES = {n.node_id: n for n in NODES_LIST} maps an id to the last
    registry entry with that id, and to nothing when no entry has it; so
    whatever it returns is a registry entry that carries the id asked for. *)
Theorem NODES_maps_id_to_last_entry (NODES_LIST : list NodeInfo) (k : string) :
  Dict.get (NODES NODES_LIST) k =
    find (fun n => String.eqb k (node_id n)) (rev NODES_LIST) /\
  (forall n, Dict.get (NODES NODES_LIST) k = Some n ->
             In n NODES_LIST /\ node_id n = k).
Proof.
split.
- unfold NODES, NODES_of. rewrite fold_set_get.
  destruct (find _ (rev NODES_LIST)); reflexivity.
- intros n. apply NODES_get_some.
Qed.

Lemma NODES_get_in (NODES_LIST : list NodeInfo) (n : NodeInfo) :
  NoDup (map node_id NODES_LIST) -> In n NODES_LIST ->
  Dict.get (NODES NODES_LIST) (node_id n) = Some n.
Proof.
intros Hnd Hin. rewrite NODES_get_find.
destruct (find (fun n0 => String.eqb (node_id n) (node_id n0)) (rev NODES_LIST))
  as [n'|] eqn:E.
- apply find_some in E as [Hin' Hk]. apply in_rev in Hin'. apply String.eqb_eq in Hk.
  f_equal. clear - Hnd Hin Hin' Hk.
  induction NODES_LIST as [|x l IH]; [destruct Hin|].
  cbn [map] in Hnd. apply NoDup_cons in Hnd as [Hx Hnd].
  destruct Hin as [->|Hin], Hin' as [->|Hin']; [reflexivity | | |apply IH; assumption].
  + exfalso. apply Hx. rewrite Hk. apply list_elem_of_In, in_map, Hin'.
  + exfalso. apply Hx. rewrite <- Hk. apply list_elem_of_In, in_map, Hin.
- exfalso.
  assert (Hf : String.eqb (node_id n) (node_id n) = false).
  { apply (find_none _ _ E n). apply in_rev. rewrite rev_involutive. exact Hin. }
  rewrite String.eqb_refl in Hf. discriminate.
Qed.

Lemma region_ids_distinct (r : string) : NoDup (default [] (Dict.get REGIONS r)).
Proof.
unfold Dict.get, REGIONS. cbn [find fst].
destruct (String.eqb r "us-east"); [apply (bool_decide_unpack _); vm_compute; exact I|].
destruct (String.eqb r "eu-west"); [apply (bool_decide_unpack _); vm_compute; exact I|].
destruct (String.eqb r "ap-south"); [apply (bool_decide_unpack _); vm_compute; exact I|].
constructor.
Qed.

Lemma str_in_In (x : string) (l : list string) : str_in x l = true <-> In x l.
Proof.
unfold str_in. rewrite existsb_exists. split.
- intros (y & Hy & Heq). apply String.eqb_eq in Heq. subst y. exact Hy.
- intros H. exists x. split; [exact H | apply String.eqb_refl].
Qed.

Section Selection.
Variable NODES_LIST : list NodeInfo.
Hypothesis ids_distinct : NoDup (map node_id NODES_LIST).

Lemma preferred_nodes_In (ids : list string) (n : NodeInfo) :
  In n (preferred_nodes_of NODES_LIST ids) <-> In n NODES_LIST /\ In (node_id n) ids.
Proof.
unfold preferred_nodes_of.
rewrite <- !list_elem_of_In, list_elem_of_omap. split.
- intros (k & Hk & Hget). apply NODES_get_some in Hget as [Hin <-].
  split; [apply list_elem_of_In; exact Hin | exact Hk].
- intros [Hin Hk]. exists (node_id n). split; [exact Hk|].
  apply NODES_get_in; [exact ids_distinct | apply list_elem_of_In; exact Hin].
Qed.

Lemma preferred_nodes_NoDup (ids : list string) :
  NoDup ids -> NoDup (preferred_nodes_of NODES_LIST ids).
Proof.
unfold preferred_nodes_of. induction ids as [|k ids IH]; intros Hnd; [constructor|].
apply NoDup_cons in Hnd as [Hk Hnd].
change (omap ?f (k :: ids))
  with (match f k with Some y => y :: omap f ids | None => omap f ids end).
destruct (Dict.get (NODES NODES_LIST) k) as [n|] eqn:Hget; [|apply IH, Hnd].
apply NoDup_cons. split; [|apply IH, Hnd].
intros Hin. apply list_elem_of_omap in Hin as (k' & Hk' & Hget').
apply NODES_get_some in Hget as [_ <-]. apply NODES_get_some in Hget' as [_ Heq].
apply Hk. rewrite Heq. exact Hk'.
Qed.

(** With distinct ids in the registry, the region's nodes followed by the
    other nodes are the registry in another order. *)
Lemma preferred_then_others_perm (ids : list string) :
  NoDup ids ->
  Permutation (preferred_nodes_of NODES_LIST ids ++ other_nodes_of NODES_LIST ids)
              NODES_LIST.
Proof.
intros Hids.
assert (Hl : NoDup NODES_LIST) by (eapply NoDup_fmap_1; exact ids_distinct).
apply NoDup_Permutation; [|exact Hl|].
- apply NoDup_app. split; [apply preferred_nodes_NoDup, Hids|]. split.
  + intros n Hn Hn'. apply list_elem_of_In in Hn, Hn'.
    apply preferred_nodes_In in Hn as [_ Hid].
    unfold other_nodes_of in Hn'. apply filter_In in Hn' as [_ Hn'].
    apply str_in_In in Hid. rewrite Hid in Hn'. discriminate.
  + unfold other_nodes_of. apply NoDup_ListNoDup, List.NoDup_filter, NoDup_ListNoDup, Hl.
- intros n. rewrite elem_of_app, !list_elem_of_In, preferred_nodes_In.
  unfold other_nodes_of. rewrite filter_In. split.
  + intros [[H _]|[H _]]; exact H.
  + intros H. destruct (str_in (node_id n) ids) eqn:E.
    * left. split; [exact H | apply str_in_In, E].
    * right. split; [exact H | reflexivity].
Qed.

(** X15. With distinct node ids in the registry, get_nodes_for_shards(count,
    region) returns, for every count the registry can serve and every
    region (known, unknown or unset), exactly [count] registry nodes with
    pairwise distinct ids: no two shards of an object go to the same node. *)
Theorem selected_nodes_are_distinct (count : nat) (preferred_region : option string) :
  count <= length NODES_LIST ->
  exists nodes,
    get_nodes_for_shards NODES_LIST count preferred_region = Ok nodes /\
    length nodes = count /\
    NoDup (map node_id nodes) /\
    (forall n, In n nodes -> In n NODES_LIST).
Proof.
intros Hc. rewrite (get_nodes_for_shards_spec NODES_LIST count preferred_region Hc).
set (L := if known_region preferred_region then _ else NODES_LIST).
assert (HL : Permutation L NODES_LIST).
{ unfold L. destruct (known_region preferred_region); [|reflexivity].
  apply preferred_then_others_perm, region_ids_distinct. }
eexists. split; [reflexivity|]. split; [|split].
- rewrite length_firstn, (Permutation_length HL). lia.
- rewrite <- firstn_map. eapply sublist_NoDup; [|apply sublist_take].
  rewrite (Permutation_map node_id HL). exact ids_distinct.
- intros n Hn. apply (Permutation_in _ HL).
  rewrite <- (firstn_skipn count L). apply in_or_app. left. exact Hn.
Qed.

End Selection.

(** Witness of X15: four nodes for ap-south out of the default registry. *)
Lemma selected_nodes_are_distinct_witness :
  exists nodes,
    get_nodes_for_shards Examples.nodes6 4 (Some "ap-south"%string) = Ok nodes /\
    length nodes = 4 /\
    NoDup (map node_id nodes) /\
    (forall n, In n nodes -> In n Examples.nodes6).
Proof.
apply (selected_nodes_are_distinct Examples.nodes6).
- apply (bool_decide_unpack _). vm_compute. exact I.
- vm_compute. lia.
Defined.

End RegistryFacts.

(** ** Write, then read: what S3 PutObject stored is what the reads return *)

Module StoreFacts.
Import Config Metadata World Gateway PipelineSpec PipelineFacts Download
       DownloadFacts MetadataFacts VersionFacts RegistryFacts.

Lemma combine_tasks_In (n s : nat) (ns : list NodeInfo) (ss : list (list byte))
      (a : nat * NodeInfo * list byte) :
  In a (combine (combine (seq s n) ns) ss) ->
  exists j, j < n /\ fst (fst a) = s + j /\
            ns !! j = Some (snd (fst a)) /\ ss !! j = Some (snd a).
Proof.
revert s ns ss. induction n as [|n IH]; intros s ns ss; [intros []|].
destruct ns as [|node ns]; [intros []|]. destruct ss as [|val ss]; [intros []|].
cbn [seq combine In]. intros [<-|Hin].
- exists 0. cbn. repeat split; lia.
- destruct (IH (S s) ns ss Hin) as (j & Hj & Hi & Hn & Hv).
  exists (S j). cbn. repeat split; [lia | lia | exact Hn | exact Hv].
Qed.

(** Task i carries node i and shard i. *)
Lemma shard_tasks_In (nodes : list NodeInfo) (shards_data : list (list byte)) (n : nat)
      (a : nat * NodeInfo * list byte) :
  In a (shard_tasks nodes shards_data n) ->
  fst (fst a) < n /\ In (snd (fst a)) nodes /\
  snd a = nth (fst (fst a)) shards_data [].
Proof.
unfold shard_tasks. intros Hin.
apply combine_tasks_In in Hin as (j & Hj & Hi & Hn & Hv).
cbn [Nat.add] in Hi. rewrite Hi. split; [exact Hj|].
rewrite lookup_take_lt in Hn by exact Hj.
rewrite (lookup_take_lt shards_data n j Hj) in Hv. split.
- apply list_elem_of_In. eapply list_elem_of_lookup_2. exact Hn.
- symmetry. apply nth_lookup_Some with (d := []) in Hv. exact Hv.
Qed.

Lemma shard_tasks_indices (nodes : list NodeInfo) (shards_data : list (list byte))
      (n : nat) :
  NoDup (map (fun a => fst (fst a)) (shard_tasks nodes shards_data n)).
Proof.
unfold shard_tasks. generalize (firstn n nodes) as ns, (firstn n shards_data) as ss.
generalize 0 as s. induction n as [|n IH]; intros s ns ss; [constructor|].
destruct ns as [|node ns]; [constructor|]. destruct ss as [|val ss]; [constructor|].
cbn [seq combine map fst]. apply NoDup_cons. split; [|apply IH].
intros Hin. apply list_elem_of_In, in_map_iff in Hin as (a & Ha & Hin).
apply combine_tasks_In in Hin as (j & _ & Hi & _). lia.
Qed.

(** The layout a write records: the successful tasks, in task order. *)
Lemma layout_In (env : Env) (bucket : string) (keyf : nat -> string)
      (tasks : list (nat * NodeInfo * list byte)) (sm : ShardMeta) :
  In sm (map to_meta (List.filter success (map (put_outcome env bucket keyf) tasks))) ->
  exists a, In a tasks /\
            index sm = fst (fst a) /\ sm_node_id sm = node_id (snd (fst a)) /\
            shard_key sm = keyf (fst (fst a)).
Proof.
intros Hin. apply in_map_iff in Hin as (r & <- & Hr).
apply filter_In in Hr as [Hr _]. apply in_map_iff in Hr as (a & <- & Ha).
exists a. repeat split. exact Ha.
Qed.

Lemma layout_indices (env : Env) (bucket : string) (keyf : nat -> string)
      (tasks : list (nat * NodeInfo * list byte)) :
  NoDup (map (fun a => fst (fst a)) tasks) ->
  NoDup (map index
           (map to_meta (List.filter success (map (put_outcome env bucket keyf) tasks)))).
Proof.
induction tasks as [|a tasks IH]; intros Hnd; [constructor|].
cbn [map] in Hnd. apply NoDup_cons in Hnd as [Ha Hnd].
cbn [map List.filter]. destruct (success (put_outcome env bucket keyf a));
  [|apply IH, Hnd].
cbn [map]. apply NoDup_cons. split; [|apply IH, Hnd].
intros Hin. apply Ha. apply list_elem_of_In in Hin. apply list_elem_of_In.
apply in_map_iff in Hin as (sm & Hsm & Hin).
apply layout_In in Hin as (a' & Ha' & Hi & _).
apply in_map_iff. exists a'. split; [|exact Ha'].
rewrite <- Hi, Hsm. reflexivity.
Qed.

Lemma filter_map_preserved {A} (p : A -> bool) (g : A -> A) (l : list A) :
  (forall x, p (g x) = p x) ->
  List.filter p (map g l) = map g (List.filter p l).
Proof.
intros H. induction l as [|x l IH]; [reflexivity|].
cbn [map List.filter]. rewrite H. destruct (p x); cbn [map]; rewrite IH; reflexivity.
Qed.

(** Read your writes, for the tables a committed write leaves. *)
Lemma committed_db_latest (db : DB) (cs : gmap string ContentRow) (ver_id : string)
      (now_ : nat) (bucket key : string) (size : nat) (layout : list ShardMeta)
      (h : string) :
  latest_count bucket key (objects db) <= 1 ->
  Metadata.get_object_metadata (committed_db db cs ver_id now_ bucket key size layout h)
                               bucket key None =
    Some (new_version db ver_id now_ bucket key size layout h).
Proof.
intros Hinv. rewrite get_latest_eq. unfold committed_db. cbn [objects].
rewrite find_head_filter, List.filter_app.
rewrite filter_map_preserved
  by (intros x; destruct (id x =? next_id db); reflexivity).
rewrite (flip_same bucket key _ Hinv). cbn [map app List.filter].
unfold is_latest_of, same_key. cbn. rewrite !String.eqb_refl. reflexivity.
Qed.

Section Registry.
Variable env : Env.
Variable NODES_LIST : list NodeInfo.
Variable fetch : NodeInfo -> string -> string -> option (list byte).
Variable http_date : nat -> string.

(** X16. What S3 PutObject stored can be read back.  After a PUT of new
    content that answered 200, with distinct node ids in the registry and
    at most one latest row for the key, both read endpoints return exactly
    the body that was put, provided the nodes serve nothing under the keys
    of this PUT but what it sent them and at least K = 4 of the recorded
    shards can still be fetched. *)
Theorem s3_put_then_read_returns_body (bucket key : string) (body : list byte)
        (w : World) :
  latest_count bucket key (objects (w_db w)) <= 1 ->
  is_Some (Metadata.get_bucket (w_db w) bucket) ->
  select_content (w_db w) (sha256_hex env body) = None ->
  Ec.M <= length NODES_LIST ->
  NoDup (map node_id NODES_LIST) ->
  snd (S3Api.put_object_s3 env NODES_LIST bucket key body w) =
    Ok (HttpResponse 200 (S3Api.etag_header env body)) ->
  let w' := fst (S3Api.put_object_s3 env NODES_LIST bucket key body w) in
  (forall node k v c,
     In (NetPut node bucket k v) (skipn (length (w_net w)) (w_net w')) ->
     fetch node bucket k = Some c -> c = v) ->
  (forall obj,
     Metadata.get_object_metadata (w_db w') bucket key None = Some obj ->
     Ec.K <= length (omap (fetch_shard NODES_LIST fetch bucket) (shards obj))) ->
  download_object NODES_LIST fetch bucket key None w' = (w', Ok body) /\
  get_object_s3 env NODES_LIST fetch http_date bucket key w' =
    (w', Ok {| status_code := 200; content := body;
               headers :=
                 [ ("ETag", S3Api.dquote +:+ md5_hex env body +:+ S3Api.dquote);
                   ("Content-Length", pretty (length body));
                   ("Last-Modified", http_date (now env)) ]%string |}).
Proof.
intros Hinv Hb Hmiss Hnodes Hids H200 w' Hfetch Hk. subst w'.
destruct (UploadFacts.encode_data_total body) as (shards_data & Henc & Hlen).
pose proof (put_object_s3_miss_run env NODES_LIST bucket key body w shards_data
              Hb Hmiss Hnodes Henc) as Hrun.
cbv zeta in Hrun.
set (keyf := S3Api.shard_key_of key (uuid4 env (w_uuid w))) in *.
set (tasks := shard_tasks (firstn Ec.M NODES_LIST) shards_data Ec.M) in *.
set (ok := List.filter success (map (put_outcome env bucket keyf) tasks)) in *.
set (w_sent := sent_world w (map (put_request bucket keyf) tasks) 1) in *.
rewrite Hrun in *. clear Hrun.
destruct (length ok <? 4); [discriminate|]. clear H200.
set (layout := map to_meta ok) in *.
set (obj := new_version (w_db w) (uuid4 env (w_uuid w_sent)) (now env) bucket key
                        (length body) layout (sha256_hex env body)).
cbn [fst] in *.
assert (Hget : Metadata.get_object_metadata
                 (w_db (stored_world env w_sent bucket key (length body)
                                     (sha256_hex env body) layout "s3"))
                 bucket key None = Some obj).
{ cbn [stored_world w_db]. apply (committed_db_latest (w_db w)), Hinv. }
specialize (Hk obj Hget). cbn [shards obj new_version] in Hk.
assert (Hnet : skipn (length (w_net w))
                 (w_net (stored_world env w_sent bucket key (length body)
                                      (sha256_hex env body) layout "s3")) =
               map (put_request bucket keyf) tasks).
{ cbn [stored_world w_net w_sent sent_world].
  rewrite skipn_app, skipn_all, Nat.sub_diag. reflexivity. }
rewrite Hnet in Hfetch.
assert (Hnd : NoDup (map index layout)).
{ apply layout_indices, shard_tasks_indices. }
assert (Hall : Forall (fun sm => index sm < Ec.M) layout).
{ apply Forall_forall. intros sm Hsm. apply list_elem_of_In in Hsm.
  apply layout_In in Hsm as (a & Ha & -> & _).
  apply shard_tasks_In in Ha as [Hlt _]. exact Hlt. }
assert (Hs : served_right NODES_LIST fetch shards_data bucket layout).
{ intros sm node c Hsm Hnode Hc.
  apply layout_In in Hsm as (a & Ha & Hi & Hn & Hkey).
  pose proof (shard_tasks_In _ _ _ _ Ha) as (_ & Hin & Hval).
  assert (Hin' : In (snd (fst a)) NODES_LIST).
  { rewrite <- (firstn_skipn Ec.M NODES_LIST). apply in_or_app. left. exact Hin. }
  rewrite Hn, (NODES_get_in NODES_LIST _ Hids Hin') in Hnode.
  assert (node = snd (fst a)) by congruence. subst node.
  rewrite Hi, <- Hval. rewrite Hkey in Hc.
  apply (Hfetch (snd (fst a)) (keyf (fst (fst a))) (snd a) c); [|exact Hc].
  apply in_map_iff. exists a. split; [reflexivity | exact Ha]. }
split.
- rewrite (download_object_found NODES_LIST fetch bucket key None _ obj Hget).
  pose proof (sort_by_index_perm layout) as Hp.
  destruct (decode_fetched NODES_LIST fetch body shards_data Henc bucket
              (sort_by_index layout)) as [Hl Hdec].
  + rewrite (Permutation_map index Hp). exact Hnd.
  + rewrite Hp. exact Hall.
  + apply (served_right_perm NODES_LIST fetch _ _ layout);
      [symmetry; exact Hp | exact Hs].
  + rewrite (Permutation_length (omap_Permutation _ _ _ Hp)). exact Hk.
  + rewrite length_map in Hl. cbn [shards obj new_version size_bytes].
    rewrite Hl, Nat.ltb_irrefl, Hdec. reflexivity.
- rewrite (get_object_s3_found env NODES_LIST fetch http_date bucket key _ obj Hget).
  destruct (decode_fetched NODES_LIST fetch body shards_data Henc bucket layout
              Hnd Hall Hs Hk) as [Hl Hdec].
  rewrite length_map in Hl. cbn [shards obj new_version size_bytes created_at].
  change 4 with Ec.K. rewrite Hl, Nat.ltb_irrefl, Hdec. reflexivity.
Qed.

End Registry.

(** Witness of X16: "hello" put to b/k with every node up, then read while
    node2 and node5 are unreachable. *)
Lemma s3_put_then_read_returns_body_witness :
  download_object Examples.nodes6
    (Scenarios.serving ["node2"; "node5"]%string (w_net Examples.w_stored)) "b" "k" None
    (fst (S3Api.put_object_s3 Examples.all_up Examples.nodes6 "b" "k" Examples.hello
                              Examples.w_bucket)) =
  (fst (S3Api.put_object_s3 Examples.all_up Examples.nodes6 "b" "k" Examples.hello
                            Examples.w_bucket), Ok Examples.hello) /\
  get_object_s3 Examples.all_up Examples.nodes6
    (Scenarios.serving ["node2"; "node5"]%string (w_net Examples.w_stored))
    Scenarios.day_stamp "b" "k"
    (fst (S3Api.put_object_s3 Examples.all_up Examples.nodes6 "b" "k" Examples.hello
                              Examples.w_bucket)) =
  (fst (S3Api.put_object_s3 Examples.all_up Examples.nodes6 "b" "k" Examples.hello
                            Examples.w_bucket),
   Ok {| status_code := 200; content := Examples.hello;
         headers :=
           [ ("ETag", S3Api.dquote +:+ md5_hex Examples.all_up Examples.hello
                      +:+ S3Api.dquote);
             ("Content-Length", pretty (length Examples.hello));
             ("Last-Modified", Scenarios.day_stamp (now Examples.all_up)) ]%string |}).
Proof.
apply (s3_put_then_read_returns_body Examples.all_up Examples.nodes6
         (Scenarios.serving ["node2"; "node5"]%string (w_net Examples.w_stored))
         Scenarios.day_stamp "b" "k" Examples.hello Examples.w_bucket).
- vm_compute. lia.
- eexists. vm_compute. reflexivity.
- vm_compute. reflexivity.
- vm_compute. lia.
- apply (bool_decide_unpack _). vm_compute. exact I.
- vm_compute. reflexivity.
- intros node k v c Hin.
  assert (Hputs :
    skipn (length (w_net Examples.w_bucket))
      (w_net (fst (S3Api.put_object_s3 Examples.all_up Examples.nodes6 "b" "k"
                                       Examples.hello Examples.w_bucket))) =
    w_net Examples.w_stored) by (vm_compute; reflexivity).
  rewrite Hputs in Hin. unfold Examples.w_stored in Hin. cbn [w_net In] in Hin.
  repeat (destruct Hin as [Hin|Hin];
          [injection Hin as <- <- <-; vm_compute; intros; congruence|]).
  destruct Hin.
- intros obj Hobj. vm_compute in Hobj. injection Hobj as <-. vm_compute. lia.
Defined.

Section AfterDelete.
Variable env : Env.
Variable NODES_LIST : list NodeInfo.
Variable fetch : NodeInfo -> string -> string -> option (list byte).
Variable http_date : nat -> string.

(** X26. After DELETE of a key every read of the key answers 404: with at
    most one latest row for the key, download_object raises 404 and
    get_object_s3 and head_object_s3 answer 404 in the world delete_object
    leaves, whether or not earlier versions of the key remain in the
    table. *)
Theorem delete_object_then_read_is_404 (bucket key : string) (w : World) :
  latest_count bucket key (objects (w_db w)) <= 1 ->
  let w' := fst (delete_object NODES_LIST bucket key w) in
  download_object NODES_LIST fetch bucket key None w' =
    (w', Raise (HTTPException 404 [])) /\
  get_object_s3 env NODES_LIST fetch http_date bucket key w' =
    (w', Ok {| status_code := 404; content := []; headers := [] |}) /\
  head_object_s3 http_date bucket key w' =
    (w', Ok {| status_code := 404; content := []; headers := [] |}).
Proof.
intros Hinv w'.
assert (Hnone : Metadata.get_object_metadata (w_db w') bucket key None = None).
{ subst w'.
  destruct (Metadata.get_object_metadata (w_db w) bucket key None) as [obj|] eqn:Hobj.
  - destruct (delete_object_run NODES_LIST bucket key w obj Hobj) as [-> _].
    cbn [fst w_db]. apply delete_hides_key, Hinv.
  - unfold delete_object. unfold mbind at 1. unfold M_bind at 1.
    rewrite get_object_metadata_run, Hobj. exact Hobj. }
clearbody w'.
unfold download_object, get_object_s3, head_object_s3, mbind, M_bind.
rewrite !get_object_metadata_run, Hnone. repeat split.
Qed.

End AfterDelete.

(** Witness of X26: b/k is deleted from the store in which it was
    rewritten once. *)
Lemma delete_object_then_read_is_404_witness :
  download_object Examples.nodes6
    (Scenarios.serving [] (w_net Examples.w_rewritten)) "b" "k" None
    (fst (delete_object Examples.nodes6 "b" "k" Examples.w_rewritten)) =
  (fst (delete_object Examples.nodes6 "b" "k" Examples.w_rewritten),
   Raise (HTTPException 404 [])).
Proof.
apply (proj1 (delete_object_then_read_is_404 Examples.all_up Examples.nodes6
                (Scenarios.serving [] (w_net Examples.w_rewritten)) Scenarios.day_stamp
                "b" "k" Examples.w_rewritten ltac:(vm_compute; lia))).
Defined.

End StoreFacts.

(** ** gateway/multipart.py: sessions, parts and their assembly *)

Module MultipartFacts.
Import World Multipart.

Lemma insert_by_perm {A} (key : A -> Z) (x : A) (l : list A) :
  Permutation (insert_by key x l) (x :: l).
Proof.
induction l as [|y l IH]; [reflexivity|].
cbn [insert_by]. destruct (key x <=? key y)%Z; [reflexivity|].
rewrite IH. apply perm_swap.
Qed.

Lemma sort_by_perm {A} (key : A -> Z) (l : list A) : Permutation (sort_by key l) l.
Proof.
induction l as [|x l IH]; [reflexivity|].
cbn [sort_by fold_right]. fold (sort_by key l).
rewrite insert_by_perm, IH. reflexivity.
Qed.

Lemma insert_by_sorted {A} (key : A -> Z) (x : A) (l : list A) :
  Forall (fun y => key y <> key x) l ->
  StronglySorted (fun a b => (key a < key b)%Z) l ->
  StronglySorted (fun a b => (key a < key b)%Z) (insert_by key x l).
Proof.
induction l as [|y l IH]; intros Hne Hs.
- repeat constructor.
- cbn [insert_by]. apply Forall_cons in Hne as [Hy Hne].
  apply StronglySorted_inv in Hs as [Hs Hall].
  destruct (Z.leb_spec (key x) (key y)) as [Hle|Hgt].
  + constructor; [constructor; assumption|].
    constructor; [lia|]. eapply Forall_impl; [exact Hall|]. cbn. intros z Hz. lia.
  + constructor; [apply IH; assumption|].
    rewrite (insert_by_perm key x l). constructor; [lia | exact Hall].
Qed.

Lemma sort_by_sorted {A} (key : A -> Z) (l : list A) :
  NoDup (map key l) ->
  StronglySorted (fun a b => (key a < key b)%Z) (sort_by key l).
Proof.
induction l as [|x l IH]; intros Hnd; [constructor|].
cbn [map] in Hnd. apply NoDup_cons in Hnd as [Hx Hnd].
cbn [sort_by fold_right]. fold (sort_by key l).
apply insert_by_sorted; [|apply IH, Hnd].
rewrite (sort_by_perm key l). apply Forall_forall. intros y Hy Heq.
apply Hx. rewrite <- Heq. apply list_elem_of_In, in_map, list_elem_of_In, Hy.
Qed.

Lemma insert_by_map {A B} (f : A -> B) (keyA : A -> Z) (keyB : B -> Z) (x : A)
      (l : list A) :
  (forall a, keyB (f a) = keyA a) ->
  insert_by keyB (f x) (map f l) = map f (insert_by keyA x l).
Proof.
intros H. induction l as [|y l IH]; [reflexivity|].
cbn [map insert_by]. rewrite !H.
destruct (keyA x <=? keyA y)%Z; [reflexivity|]. cbn [map]. rewrite IH. reflexivity.
Qed.

Lemma sort_by_map {A B} (f : A -> B) (keyA : A -> Z) (keyB : B -> Z) (l : list A) :
  (forall a, keyB (f a) = keyA a) ->
  sort_by keyB (map f l) = map f (sort_by keyA l).
Proof.
intros H. induction l as [|x l IH]; [reflexivity|].
cbn [map sort_by fold_right]. fold (sort_by keyB (map f l)). fold (sort_by keyA l).
rewrite IH. apply insert_by_map, H.
Qed.

Lemma part_path_inj (upload_id_ : string) (n m : Z) :
  part_path upload_id_ n = part_path upload_id_ m -> n = m.
Proof.
unfold part_path. intros H.
repeat apply String.app_inj in H. apply pretty_Z_inj in H. exact H.
Qed.

Section Session.
Variable upload_id_ : string.

(** The entry upload_part appends for (part_number, data) *)
Let entry (p : Z * list byte) : Part :=
  {| part_number := fst p; size := length (snd p);
     path := part_path upload_id_ (fst p) |}.

Lemma find_update_has_id (g : MultipartUpload -> MultipartUpload)
      (l : list MultipartUpload) :
  (forall u, upload_id (g u) = upload_id u) ->
  find (has_id upload_id_) (Metadata.update_first (has_id upload_id_) g l) =
  option_map g (find (has_id upload_id_) l).
Proof.
intros Hg. induction l as [|x l IH]; [reflexivity|].
cbn [Metadata.update_first find]. destruct (has_id upload_id_ x) eqn:Hx; cbn [find].
- unfold has_id in *. rewrite Hg, Hx. reflexivity.
- rewrite Hx. exact IH.
Qed.

Lemma upload_parts_run (ps : list (Z * list byte)) (st : State) (u : MultipartUpload) :
  find_upload st upload_id_ = Some u ->
  find_upload (upload_parts upload_id_ ps st) upload_id_ =
    Some (set_parts u (parts u ++ map entry ps)) /\
  tmp_files (upload_parts upload_id_ ps st) =
    fold_left (fun fs p => <[part_path upload_id_ (fst p) := snd p]> fs) ps (tmp_files st) /\
  uuids_drawn (upload_parts upload_id_ ps st) = uuids_drawn st.
Proof.
revert st u. induction ps as [|p ps IH]; intros st u Hu.
- cbn. rewrite app_nil_r. destruct u. repeat split. exact Hu.
- cbn [upload_parts fold_left map].
  fold (upload_parts upload_id_ ps
          (fst (upload_part upload_id_ (fst p) (snd p) st))).
  assert (H1 : find_upload (fst (upload_part upload_id_ (fst p) (snd p) st)) upload_id_
               = Some (set_parts u (parts u ++ [entry p]))).
  { unfold upload_part. rewrite Hu. cbn [fst]. unfold find_upload.
    cbn [multipart_uploads]. rewrite find_update_has_id by reflexivity.
    unfold find_upload in Hu. rewrite Hu. reflexivity. }
  destruct (IH _ _ H1) as (H2 & H3 & H4).
  rewrite H2, H3, H4. unfold upload_part. rewrite Hu.
  cbn [fst set_parts parts tmp_files uuids_drawn]. rewrite <- app_assoc.
  repeat split.
Qed.

Lemma files_after_uploads (ps : list (Z * list byte)) (fs : gmap string (list byte)) :
  NoDup (map fst ps) ->
  forall p, In p ps ->
    fold_left (fun fs p => <[part_path upload_id_ (fst p) := snd p]> fs) ps fs
      !! part_path upload_id_ (fst p) = Some (snd p).
Proof.
revert fs. induction ps as [|q ps IH]; intros fs Hnd p Hin; [destruct Hin|].
cbn [map] in Hnd. apply NoDup_cons in Hnd as [Hq Hnd].
cbn [fold_left]. destruct Hin as [->|Hin]; [|apply IH; assumption].
clear IH. revert fs. induction ps as [|r ps IH]; intros fs.
- cbn. apply lookup_insert_eq.
- cbn [fold_left].
  assert (Hr : fst r <> fst p).
  { intros Heq. apply Hq. rewrite <- Heq. cbn [map]. left. }
  rewrite insert_insert_ne by (intros H; apply part_path_inj in H; congruence).
  apply IH.
  + intros H. apply Hq. cbn [map]. right. exact H.
  + cbn [map] in Hnd. apply NoDup_cons in Hnd as [_ Hnd]. exact Hnd.
Qed.

Lemma read_entries (fs : gmap string (list byte)) (l : list (Z * list byte)) :
  (forall p, In p l -> fs !! part_path upload_id_ (fst p) = Some (snd p)) ->
  read_parts fs (map entry l) = inl (concat (map snd l)).
Proof.
induction l as [|p l IH]; intros H; [reflexivity|].
cbn [map read_parts concat].
change (path (entry p)) with (part_path upload_id_ (fst p)).
rewrite (H p (or_introl eq_refl)).
rewrite IH by (intros q Hq; apply H; right; exact Hq). reflexivity.
Qed.

Lemma removed_parts (parts_ : list Part) (fs : gmap string (list byte)) (f : string) :
  remove_parts fs parts_ !! f =
  if existsb (fun part => String.eqb (path part) f) parts_ then None else fs !! f.
Proof.
unfold remove_parts. revert fs. induction parts_ as [|part parts_ IH]; intros fs;
  [reflexivity|].
cbn [fold_left existsb]. rewrite IH.
destruct (existsb (fun part0 => String.eqb (path part0) f) parts_);
  [rewrite orb_true_r; reflexivity|].
rewrite orb_false_r. destruct (String.eqb_spec (path part) f) as [->|Hne].
- apply lookup_delete_eq.
- apply lookup_delete_ne, Hne.
Qed.

Lemma find_delete_first_gone (l : list MultipartUpload) :
  NoDup (map upload_id l) ->
  find (has_id upload_id_) (Metadata.delete_first (has_id upload_id_) l) = None.
Proof.
induction l as [|x l IH]; intros Hnd; [reflexivity|].
cbn [map] in Hnd. apply NoDup_cons in Hnd as [Hx Hnd].
cbn [Metadata.delete_first]. destruct (has_id upload_id_ x) eqn:E.
- unfold has_id in E. apply String.eqb_eq in E.
  destruct (find (has_id upload_id_) l) as [y|] eqn:Hy; [|reflexivity].
  apply find_some in Hy as [Hin Hid]. unfold has_id in Hid. apply String.eqb_eq in Hid.
  exfalso. apply Hx. rewrite E, <- Hid. apply list_elem_of_In, in_map, Hin.
- cbn [find]. rewrite E. apply IH, Hnd.
Qed.

End Session.

Lemma upload_part_ids (upload_id_ : string) (n : Z) (d : list byte) (st : State) :
  map upload_id (multipart_uploads (fst (upload_part upload_id_ n d st))) =
  map upload_id (multipart_uploads st).
Proof.
unfold upload_part. destruct (find_upload st upload_id_) as [u|]; [|reflexivity].
cbn [fst multipart_uploads]. generalize (multipart_uploads st) as l.
induction l as [|x l IH]; [reflexivity|].
cbn [Metadata.update_first]. destruct (has_id upload_id_ x); cbn [map];
  [reflexivity | rewrite IH; reflexivity].
Qed.

Lemma upload_parts_ids (upload_id_ : string) (ps : list (Z * list byte)) (st : State) :
  map upload_id (multipart_uploads (upload_parts upload_id_ ps st)) =
  map upload_id (multipart_uploads st).
Proof.
revert st. induction ps as [|p ps IH]; intros st; [reflexivity|].
cbn [upload_parts fold_left].
fold (upload_parts upload_id_ ps (fst (upload_part upload_id_ (fst p) (snd p) st))).
rewrite IH. apply upload_part_ids.
Qed.

(** X17. A multipart upload is assembled in ascending part-number order,
    whatever the order in which the parts arrived: on a session without
    parts, after upload_part for parts with pairwise distinct numbers,
    complete_upload returns the concatenation of their data sorted by
    number, removes their temporary files and deletes the session, so that
    a second complete_upload raises ValueError. *)
Theorem complete_upload_assembles_parts (upload_id_ : string)
        (ps : list (Z * list byte)) (st : State) (u : MultipartUpload) :
  NoDup (map upload_id (multipart_uploads st)) ->
  find_upload st upload_id_ = Some u ->
  parts u = [] ->
  NoDup (map fst ps) ->
  let r := complete_upload upload_id_ (upload_parts upload_id_ ps st) in
  exists sorted,
    Permutation sorted ps /\
    StronglySorted (fun a b => (fst a < fst b)%Z) sorted /\
    snd r = Done (concat (map snd sorted)) /\
    (forall p, In p ps -> tmp_files (fst r) !! part_path upload_id_ (fst p) = None) /\
    find_upload (fst r) upload_id_ = None /\
    complete_upload upload_id_ (fst r) = (fst r, Failed (ValueError "Upload not found")).
Proof.
intros Hids Hu Hparts Hnd r. subst r.
destruct (upload_parts_run upload_id_ ps st u Hu) as (Hfind & Hfiles & _).
rewrite Hparts in Hfind. cbn [app] in Hfind.
set (mk := fun p : Z * list byte =>
             {| part_number := fst p; size := length (snd p);
                path := part_path upload_id_ (fst p) |}) in *.
assert (Hsort : sort_by part_number (map mk ps) = map mk (sort_by fst ps)).
{ apply sort_by_map. reflexivity. }
assert (Hread : read_parts (tmp_files (upload_parts upload_id_ ps st))
                  (map mk (sort_by fst ps)) =
                inl (concat (map snd (sort_by fst ps)))).
{ apply (read_entries upload_id_). intros p Hp. rewrite Hfiles.
  apply files_after_uploads; [exact Hnd|].
  apply (Permutation_in _ (sort_by_perm fst ps)), Hp. }
assert (Hrun : complete_upload upload_id_ (upload_parts upload_id_ ps st) =
  ({| multipart_uploads :=
        Metadata.delete_first (has_id upload_id_)
          (multipart_uploads (upload_parts upload_id_ ps st));
      tmp_files := remove_parts (tmp_files (upload_parts upload_id_ ps st))
                                (map mk (sort_by fst ps));
      uuids_drawn := uuids_drawn (upload_parts upload_id_ ps st) |},
   Done (concat (map snd (sort_by fst ps))))).
{ unfold complete_upload. rewrite Hfind. cbn [parts set_parts].
  rewrite Hsort, Hread. reflexivity. }
rewrite Hrun. cbn [fst snd].
assert (Hgone : find_upload
                  {| multipart_uploads :=
                       Metadata.delete_first (has_id upload_id_)
                         (multipart_uploads (upload_parts upload_id_ ps st));
                     tmp_files := remove_parts (tmp_files (upload_parts upload_id_ ps st))
                                               (map mk (sort_by fst ps));
                     uuids_drawn := uuids_drawn (upload_parts upload_id_ ps st) |}
                  upload_id_ = None).
{ unfold find_upload. cbn [multipart_uploads]. apply find_delete_first_gone.
  rewrite upload_parts_ids. exact Hids. }
exists (sort_by fst ps). split; [apply sort_by_perm|].
split; [apply sort_by_sorted, Hnd|]. split; [reflexivity|]. split; [|split].
- intros p Hp. cbn [tmp_files]. rewrite removed_parts.
  destruct (existsb _ (map mk (sort_by fst ps))) eqn:E; [reflexivity|].
  exfalso. apply Bool.not_true_iff_false in E. apply E.
  apply existsb_exists. exists (mk p). split; [|apply String.eqb_refl].
  apply in_map. apply (Permutation_in _ (Permutation_sym (sort_by_perm fst ps))), Hp.
- exact Hgone.
- unfold complete_upload. rewrite Hgone. reflexivity.
Qed.

(** X18. A part number uploaded twice is not replaced but listed twice:
    the file holds the second data, and complete_upload reads it for both
    entries. *)
Theorem repeated_part_number_is_read_twice (upload_id_ : string) (n : Z)
        (d1 d2 : list byte) (st : State) (u : MultipartUpload) :
  find_upload st upload_id_ = Some u ->
  parts u = [] ->
  snd (complete_upload upload_id_ (upload_parts upload_id_ [(n, d1); (n, d2)] st)) =
    Done (d2 ++ d2).
Proof.
intros Hu Hparts.
destruct (upload_parts_run upload_id_ [(n, d1); (n, d2)] st u Hu) as (Hfind & Hfiles & _).
rewrite Hparts in Hfind. cbn [app map fst snd] in Hfind.
unfold complete_upload. rewrite Hfind. cbn [parts set_parts sort_by fold_right insert_by
                                           part_number].
rewrite Z.leb_refl. cbn [read_parts path]. rewrite Hfiles. cbn [fold_left fst snd].
rewrite lookup_insert_eq. cbn [snd]. rewrite app_nil_r. reflexivity.
Qed.

(** X19. abort_upload removes the temporary files of the session's parts
    and no other file, deletes the session (ids being unique) and leaves
    every other session as it was; on an unknown id it changes nothing. *)
Theorem abort_upload_cleans_up (upload_id_ : string) (st : State) :
  NoDup (map upload_id (multipart_uploads st)) ->
  (forall u, find_upload st upload_id_ = Some u ->
     (forall f, tmp_files (fst (abort_upload upload_id_ st)) !! f =
                if existsb (fun part => String.eqb (path part) f) (parts u) then None
                else tmp_files st !! f) /\
     find_upload (fst (abort_upload upload_id_ st)) upload_id_ = None /\
     (forall other, other <> upload_id_ ->
        find_upload (fst (abort_upload upload_id_ st)) other = find_upload st other)) /\
  (find_upload st upload_id_ = None -> abort_upload upload_id_ st = (st, Done tt)).
Proof.
intros Hids. split.
- intros u Hu. unfold abort_upload. rewrite Hu. cbn [fst tmp_files]. split; [|split].
  + intros f. apply removed_parts.
  + unfold find_upload. cbn [multipart_uploads]. apply find_delete_first_gone, Hids.
  + intros other Hne. unfold find_upload. cbn [multipart_uploads].
    apply VersionFacts.find_delete_first_other. intros o Ho.
    apply find_some in Ho as [_ Ho]. unfold has_id in *. apply String.eqb_eq in Ho.
    rewrite Ho. apply String.eqb_neq. congruence.
- intros Hnone. unfold abort_upload. rewrite Hnone. reflexivity.
Qed.

(** Witness of X17: parts 2, 3 and 1 of "hello", sent in that order. *)
Lemma complete_upload_assembles_parts_witness :
  exists sorted,
    Permutation sorted Scenarios.three_parts /\
    StronglySorted (fun a b => (fst a < fst b)%Z) sorted /\
    snd (complete_upload "uuid-0"
           (upload_parts "uuid-0" Scenarios.three_parts Scenarios.mp_session)) =
      Done (concat (map snd sorted)) /\
    (forall p, In p Scenarios.three_parts ->
       tmp_files (fst (complete_upload "uuid-0"
                         (upload_parts "uuid-0" Scenarios.three_parts
                                       Scenarios.mp_session)))
         !! part_path "uuid-0" (fst p) = None) /\
    find_upload (fst (complete_upload "uuid-0"
                        (upload_parts "uuid-0" Scenarios.three_parts
                                      Scenarios.mp_session))) "uuid-0" = None /\
    complete_upload "uuid-0"
      (fst (complete_upload "uuid-0"
              (upload_parts "uuid-0" Scenarios.three_parts Scenarios.mp_session))) =
    (fst (complete_upload "uuid-0"
            (upload_parts "uuid-0" Scenarios.three_parts Scenarios.mp_session)),
     Failed (ValueError "Upload not found")).
Proof.
apply (complete_upload_assembles_parts "uuid-0" Scenarios.three_parts
         Scenarios.mp_session
         {| upload_id := "uuid-0"; mu_bucket_name := "b"; mu_object_key := "big";
            parts := [] |}).
- apply (bool_decide_unpack _). vm_compute. exact I.
- reflexivity.
- reflexivity.
- apply (bool_decide_unpack _). vm_compute. exact I.
Defined.

(** Witness of X18: part 1 sent twice. *)
Lemma repeated_part_number_is_read_twice_witness :
  snd (complete_upload "uuid-0"
         (upload_parts "uuid-0" [(1%Z, [x68]); (1%Z, [x69; x69])] Scenarios.mp_session)) =
    Done ([x69; x69] ++ [x69; x69]).
Proof.
apply (repeated_part_number_is_read_twice "uuid-0" 1 [x68] [x69; x69]
         Scenarios.mp_session
         {| upload_id := "uuid-0"; mu_bucket_name := "b"; mu_object_key := "big";
            parts := [] |}); reflexivity.
Defined.

(** Witness of X19: the session is aborted after its three parts. *)
Lemma abort_upload_cleans_up_witness :
  find_upload (fst (abort_upload "uuid-0"
                      (upload_parts "uuid-0" Scenarios.three_parts Scenarios.mp_session)))
              "uuid-0" = None /\
  abort_upload "uuid-7" Scenarios.mp_session = (Scenarios.mp_session, Done tt).
Proof.
split.
- assert (Hu : exists u,
    find_upload (upload_parts "uuid-0" Scenarios.three_parts Scenarios.mp_session)
                "uuid-0" = Some u).
  { eexists. vm_compute. reflexivity. }
  destruct Hu as [u Hu].
  apply (proj1 (abort_upload_cleans_up "uuid-0"
                  (upload_parts "uuid-0" Scenarios.three_parts Scenarios.mp_session)
                  ltac:(apply (bool_decide_unpack _); vm_compute; exact I)) u Hu).
- apply (proj2 (abort_upload_cleans_up "uuid-7" Scenarios.mp_session
                  ltac:(apply (bool_decide_unpack _); vm_compute; exact I))).
  reflexivity.
Defined.

End MultipartFacts.

(** ** gateway/rate_limiter.py: the sliding window *)

Module RateLimiterFacts.
Import RateLimiter.

Lemma filter_filter_impl {A} (p q : A -> bool) (l : list A) :
  (forall x, p x = true -> q x = true) ->
  List.filter p (List.filter q l) = List.filter p l.
Proof.
intros H. induction l as [|x l IH]; [reflexivity|].
cbn [List.filter]. destruct (q x) eqn:Hq; cbn [List.filter].
- rewrite IH. reflexivity.
- destruct (p x) eqn:Hp; [|exact IH]. rewrite (H x Hp) in Hq. discriminate.
Qed.

Lemma filter_length_impl {A} (p q : A -> bool) (l : list A) :
  (forall x, In x l -> p x = true -> q x = true) ->
  length (List.filter p l) <= length (List.filter q l).
Proof.
induction l as [|x l IH]; intros H; [reflexivity|].
assert (H' : forall y, In y l -> p y = true -> q y = true).
{ intros y Hy. apply H. right. exact Hy. }
specialize (IH H'). cbn [List.filter].
destruct (p x) eqn:Hp.
- rewrite (H x (or_introl eq_refl) Hp). cbn [length]. lia.
- destruct (q x); cbn [length]; lia.
Qed.

Section Limiter.
Variable requests_per_minute : nat.
Variable window_size : Z.

Abbreviation is_allowed := (RateLimiter.is_allowed requests_per_minute window_size).
Abbreviation serve := (RateLimiter.serve requests_per_minute window_size).
Abbreviation serve_one := (RateLimiter.serve_one requests_per_minute window_size).
Abbreviation in_window := (RateLimiter.in_window window_size).

(** The timestamps of the allowed calls of [ip] *)
Let hist (adm : list (Z * string)) (ip : string) : list Z :=
  map fst (List.filter (fun c => String.eqb (snd c) ip) adm).

Let recent (t : Z) (ts : Z) : bool := (t - window_size <? ts)%Z.

(** What the table holds for an ip is, within any window that ends after
    the calls served so far, the allowed calls of that ip. *)
Let table_ok (pre : list (Z * string)) (st : requests_t) (adm : list (Z * string))
  : Prop :=
  Forall (fun c => In c pre) adm /\
  forall ip t, Forall (fun c => (fst c <= t)%Z) pre ->
    List.filter (recent t) (default [] (st !! ip)) = List.filter (recent t) (hist adm ip).

Lemma serve_snoc (pre : list (Z * string)) (c : Z * string) (st : requests_t) :
  serve (pre ++ [c]) st = serve_one (serve pre st) c.
Proof. unfold RateLimiter.serve. rewrite fold_left_app. reflexivity. Qed.

Lemma hist_snoc (adm : list (Z * string)) (c : Z * string) (ip : string) :
  hist (adm ++ [c]) ip =
  hist adm ip ++ (if String.eqb (snd c) ip then [fst c] else []).
Proof.
unfold hist. rewrite List.filter_app, map_app. cbn [List.filter].
destruct (String.eqb (snd c) ip); reflexivity.
Qed.

Lemma count_in_window (adm : list (Z * string)) (ip : string) (t : Z) :
  Forall (fun c => (fst c <= t)%Z) adm ->
  length (List.filter (in_window ip t) adm) = length (List.filter (recent t) (hist adm ip)).
Proof.
unfold hist. induction adm as [|c adm IH]; intros H; [reflexivity|].
apply Forall_cons in H as [Hc H]. specialize (IH H).
cbn [List.filter]. unfold RateLimiter.in_window at 1.
destruct (String.eqb (snd c) ip); cbn [andb map List.filter]; [|exact IH].
unfold recent at 1. destruct (t - window_size <? fst c)%Z; cbn [andb].
- destruct (Z.leb_spec (fst c) t); [|lia]. cbn [length]. rewrite IH. reflexivity.
- exact IH.
Qed.

Lemma serve_one_step (pre : list (Z * string)) (c : Z * string) (st : requests_t)
      (adm : list (Z * string)) :
  table_ok pre st adm ->
  Forall (fun c' => (fst c' <= fst c)%Z) pre ->
  snd (serve_one (st, adm) c) =
    (if length (List.filter (in_window (snd c) (fst c)) adm) <? requests_per_minute
     then adm ++ [c] else adm) /\
  table_ok (pre ++ [c]) (fst (serve_one (st, adm) c)) (snd (serve_one (st, adm) c)).
Proof.
intros [Hadm Htab] Hpre.
assert (Hadm_le : Forall (fun c' => (fst c' <= fst c)%Z) adm).
{ rewrite Forall_forall in *. intros a Ha. apply Hpre, list_elem_of_In, Hadm, Ha. }
assert (Hkept : List.filter (recent (fst c)) (default [] (st !! snd c)) =
                List.filter (recent (fst c)) (hist adm (snd c))).
{ apply Htab, Hpre. }
rewrite (count_in_window adm (snd c) (fst c) Hadm_le), <- Hkept.
unfold RateLimiter.serve_one, RateLimiter.is_allowed. cbn [fst snd].
fold (recent (fst c)).
set (kept := List.filter (recent (fst c)) (default [] (st !! snd c))) in *.
assert (Hin : forall adm', Forall (fun c' => In c' pre) adm ->
                (forall a, In a adm' -> In a adm \/ a = c) ->
                Forall (fun c' => In c' (pre ++ [c])) adm').
{ intros adm' _ H. apply Forall_forall. intros a Ha. apply list_elem_of_In in Ha.
  apply in_or_app. destruct (H a Ha) as [Ha' | ->]; [left | right; left; reflexivity].
  rewrite Forall_forall in Hadm. apply Hadm, list_elem_of_In, Ha'. }
destruct (Nat.leb_spec requests_per_minute (length kept)) as [Hfull|Hroom];
  destruct (Nat.ltb_spec (length kept) requests_per_minute) as [Hlt|Hge]; try lia;
  cbn [fst snd]; (split; [reflexivity|]); split; cbn [fst snd].
- apply Hin; [exact Hadm | auto].
- intros ip t Ht. apply Forall_app in Ht as [Ht Hc].
  apply Forall_cons in Hc as [Hc _].
  destruct (String.eqb_spec (snd c) ip) as [<-|Hne].
  + rewrite lookup_insert_eq. cbn [default from_option id]. unfold kept.
    rewrite filter_filter_impl
      by (unfold recent; intros x Hx; apply Z.ltb_lt in Hx; apply Z.ltb_lt; lia).
    apply Htab, Ht.
  + rewrite lookup_insert_ne by exact Hne. apply Htab, Ht.
- apply Hin; [exact Hadm|]. intros a Ha. apply in_app_or in Ha as [Ha|[<-|[]]]; auto.
- intros ip t Ht. apply Forall_app in Ht as [Ht Hc].
  apply Forall_cons in Hc as [Hc _]. rewrite hist_snoc, List.filter_app.
  destruct (String.eqb_spec (snd c) ip) as [<-|Hne].
  + rewrite lookup_insert_eq. cbn [default from_option id]. rewrite List.filter_app. f_equal.
    unfold kept.
    rewrite filter_filter_impl
      by (unfold recent; intros x Hx; apply Z.ltb_lt in Hx; apply Z.ltb_lt; lia).
    apply Htab, Ht.
  + rewrite lookup_insert_ne by exact Hne. cbn [List.filter]. rewrite app_nil_r.
    apply Htab, Ht.
Qed.

Lemma sorted_snoc (pre : list (Z * string)) (c : Z * string) :
  StronglySorted (fun a b => (fst a <= fst b)%Z) (pre ++ [c]) ->
  StronglySorted (fun a b => (fst a <= fst b)%Z) pre /\
  Forall (fun c' => (fst c' <= fst c)%Z) pre.
Proof.
induction pre as [|x pre IH]; intros H; [split; constructor|].
cbn [app] in H. apply StronglySorted_inv in H as [Hs Hall].
destruct (IH Hs) as [IH1 IH2]. apply Forall_app in Hall as [Hall Hc].
apply Forall_cons in Hc as [Hc _]. split.
- constructor; assumption.
- constructor; assumption.
Qed.

Lemma serve_table_ok (calls : list (Z * string)) :
  StronglySorted (fun a b => (fst a <= fst b)%Z) calls ->
  table_ok calls (fst (serve calls ∅)) (snd (serve calls ∅)).
Proof.
induction calls as [|c pre IH] using rev_ind; intros Hs.
- split; [constructor|]. intros ip t _. cbn. rewrite lookup_empty. reflexivity.
- apply sorted_snoc in Hs as [Hs Hpre]. specialize (IH Hs).
  rewrite serve_snoc.
  destruct (serve pre ∅) as [st adm] eqn:E. cbn [fst snd] in IH.
  apply (serve_one_step pre c st adm IH Hpre).
Qed.

(** X20. The admission rule of the limiter.  When calls arrive with
    non-decreasing clock readings on an empty table, a call is allowed
    exactly when fewer than requests_per_minute calls of its ip were
    allowed within the window that ends at its reading. *)
Theorem limiter_allows_below_limit (pre : list (Z * string)) (c : Z * string) :
  StronglySorted (fun a b => (fst a <= fst b)%Z) (pre ++ [c]) ->
  snd (serve (pre ++ [c]) ∅) =
    if length (List.filter (in_window (snd c) (fst c)) (snd (serve pre ∅)))
       <? requests_per_minute
    then snd (serve pre ∅) ++ [c]
    else snd (serve pre ∅).
Proof.
intros Hs. apply sorted_snoc in Hs as [Hs Hpre].
pose proof (serve_table_ok pre Hs) as Hok.
rewrite serve_snoc. destruct (serve pre ∅) as [st adm]. cbn [fst snd] in *.
apply (serve_one_step pre c st adm Hok Hpre).
Qed.

(** X21. The sliding window holds: with non-decreasing clock readings, no
    window of window_size ticks, wherever it ends, contains more than
    requests_per_minute allowed calls of one ip. *)
Theorem limiter_window_bound (calls : list (Z * string)) (ip : string) (t : Z) :
  StronglySorted (fun a b => (fst a <= fst b)%Z) calls ->
  length (List.filter (in_window ip t) (snd (serve calls ∅))) <= requests_per_minute.
Proof.
revert ip t. induction calls as [|c pre IH] using rev_ind; intros ip t Hs; [cbn; lia|].
pose proof (sorted_snoc pre c Hs) as [Hs' Hpre].
pose proof (serve_table_ok pre Hs') as Hok.
pose proof (fun ip t => IH ip t Hs') as IH'. clear IH.
rewrite serve_snoc. destruct (serve pre ∅) as [st adm]. cbn [fst snd] in *.
destruct (serve_one_step pre c st adm Hok Hpre) as [Hstep _].
destruct Hok as [Hadm _]. rewrite Hstep.
destruct (Nat.ltb_spec (length (List.filter (in_window (snd c) (fst c)) adm))
                       requests_per_minute) as [Hroom|Hfull]; [|apply IH'].
rewrite List.filter_app, length_app. cbn [List.filter].
destruct (in_window ip t c) eqn:Hc; cbn [length]; [|specialize (IH' ip t); lia].
unfold RateLimiter.in_window in Hc.
apply andb_prop in Hc as [Hc Hle]. apply andb_prop in Hc as [Hip Hlt].
apply String.eqb_eq in Hip. apply Z.ltb_lt in Hlt. apply Z.leb_le in Hle. subst ip.
assert (Hsub : length (List.filter (in_window (snd c) t) adm) <=
               length (List.filter (in_window (snd c) (fst c)) adm)).
{ apply filter_length_impl. intros a Ha Hw.
  unfold RateLimiter.in_window in *.
  apply andb_prop in Hw as [Hw Hle']. apply andb_prop in Hw as [Hip' Hlt'].
  apply Z.ltb_lt in Hlt'. rewrite Hip'. cbn [andb].
  rewrite Forall_forall in Hadm, Hpre.
  pose proof (Hpre a (proj2 (list_elem_of_In _ _) (Hadm a (proj2 (list_elem_of_In _ _) Ha))))
    as Hac.
  apply andb_true_intro. split; [apply Z.ltb_lt; lia | apply Z.leb_le; exact Hac]. }
lia.
Qed.

(** Two tables that agree on what is younger than twice the window *)
Let same_recent (now : Z) (s1 s2 : requests_t) : Prop :=
  forall ip,
    List.filter (fun ts => (now - window_size * 2 <? ts)%Z) (default [] (s1 !! ip)) =
    List.filter (fun ts => (now - window_size * 2 <? ts)%Z) (default [] (s2 !! ip)).

Lemma serve_same_recent (now : Z) (calls : list (Z * string)) (s1 s2 : requests_t)
      (adm : list (Z * string)) :
  (0 <= window_size)%Z ->
  Forall (fun c => (now <= fst c)%Z) calls ->
  same_recent now s1 s2 ->
  snd (fold_left serve_one calls (s1, adm)) = snd (fold_left serve_one calls (s2, adm)).
Proof.
intros Hw. revert s1 s2 adm. induction calls as [|c calls IH]; intros s1 s2 adm Hc HR;
  [reflexivity|].
apply Forall_cons in Hc as [Hc Hcalls]. cbn [fold_left].
assert (Hkept : List.filter (recent (fst c)) (default [] (s1 !! snd c)) =
                List.filter (recent (fst c)) (default [] (s2 !! snd c))).
{ rewrite <- (filter_filter_impl (recent (fst c))
                (fun ts => (now - window_size * 2 <? ts)%Z) (default [] (s1 !! snd c)))
    by (unfold recent; intros x Hx; apply Z.ltb_lt in Hx; apply Z.ltb_lt; lia).
  rewrite <- (filter_filter_impl (recent (fst c))
                (fun ts => (now - window_size * 2 <? ts)%Z) (default [] (s2 !! snd c)))
    by (unfold recent; intros x Hx; apply Z.ltb_lt in Hx; apply Z.ltb_lt; lia).
  rewrite (HR (snd c)). reflexivity. }
unfold RateLimiter.serve_one at 2 4. unfold RateLimiter.is_allowed. cbn [fst snd].
fold (recent (fst c)). rewrite Hkept.
set (kept := List.filter (recent (fst c)) (default [] (s2 !! snd c))).
destruct (requests_per_minute <=? length kept); apply IH; try exact Hcalls;
  intros ip; destruct (String.eqb_spec (snd c) ip) as [<-|Hne];
  rewrite ?lookup_insert_eq, ?lookup_insert_ne by exact Hne;
  try reflexivity; apply HR.
Qed.

(** X22. cleanup_old_entries is invisible to the calls that follow it:
    whatever calls come at or after its clock reading, the same ones are
    allowed with and without the cleanup. *)
Theorem cleanup_old_entries_is_transparent (now : Z) (calls : list (Z * string))
        (requests : requests_t) :
  (0 <= window_size)%Z ->
  Forall (fun c => (now <= fst c)%Z) calls ->
  snd (serve calls (RateLimiter.cleanup_old_entries window_size now requests)) =
  snd (serve calls requests).
Proof.
intros Hw Hc. unfold RateLimiter.serve.
apply (serve_same_recent now); [exact Hw | exact Hc|].
intros ip. unfold RateLimiter.cleanup_old_entries. rewrite lookup_omap.
destruct (requests !! ip) as [tss|]; cbn [option_bind default from_option id mbind];
  [|reflexivity].
destruct (List.filter (fun ts => (now - window_size * 2 <? ts)%Z) tss) as [|x l] eqn:E.
- reflexivity.
- cbn [default from_option id]. rewrite <- E. apply filter_filter_impl. auto.
Qed.

End Limiter.

(** Witness of X20: a limit of two calls per window of 60 ticks; the third
    call of 10.0.0.1 within the window is refused, the next one after the
    window is allowed. *)
Lemma limiter_allows_below_limit_witness :
  snd (RateLimiter.serve 2 60
         ([(0%Z, "10.0.0.1"); (10%Z, "10.0.0.1"); (20%Z, "10.0.0.1")]
          ++ [(61%Z, "10.0.0.1")]) ∅) =
  [(0%Z, "10.0.0.1"); (10%Z, "10.0.0.1"); (61%Z, "10.0.0.1")].
Proof.
rewrite (limiter_allows_below_limit 2 60
           [(0%Z, "10.0.0.1"); (10%Z, "10.0.0.1"); (20%Z, "10.0.0.1")]
           (61%Z, "10.0.0.1")).
- vm_compute. reflexivity.
- cbn [app]. repeat (constructor; [|repeat constructor; cbn; lia]). constructor.
Defined.

(** Witness of X21: the same calls, and the window that ends at 61. *)
Lemma limiter_window_bound_witness :
  length (List.filter (RateLimiter.in_window 60 "10.0.0.1" 61)
            (snd (RateLimiter.serve 2 60
                    [(0%Z, "10.0.0.1"); (10%Z, "10.0.0.1"); (20%Z, "10.0.0.1");
                     (61%Z, "10.0.0.1")] ∅))) <= 2.
Proof.
apply (limiter_window_bound 2 60).
repeat (constructor; [|repeat constructor; cbn; lia]). constructor.
Defined.

(** Witness of X22: a cleanup at reading 100 before two calls. *)
Lemma cleanup_old_entries_is_transparent_witness :
  snd (RateLimiter.serve 2 60 [(100%Z, "10.0.0.1"); (130%Z, "10.0.0.2")]
         (RateLimiter.cleanup_old_entries 60 100
            {[ "10.0.0.1" := [(-30)%Z; 50%Z; 99%Z] ]})) =
  snd (RateLimiter.serve 2 60 [(100%Z, "10.0.0.1"); (130%Z, "10.0.0.2")]
         {[ "10.0.0.1" := [(-30)%Z; 50%Z; 99%Z] ]}).
Proof.
apply (cleanup_old_entries_is_transparent 2 60 100); [lia|].
repeat constructor; cbn; lia.
Defined.

End RateLimiterFacts.

(** ** storage_node/main.py: the path components are free of ".." *)

Module StorageNodeFacts.
Import StorageNode.

Lemma replace_dotdot_head (c : Ascii.ascii) (s : string) :
  is_dot c = false ->
  exists r, replace_dotdot (String c s) = String c r.
Proof.
intros Hc. destruct s as [|c' s]; cbn [replace_dotdot]; [eexists; reflexivity|].
rewrite Hc. cbn [andb]. eexists. reflexivity.
Qed.

Lemma replace_dotdot_step (c c' : Ascii.ascii) (s : string) :
  replace_dotdot (String c (String c' s)) =
  if is_dot c && is_dot c' then String underscore (replace_dotdot s)
  else String c (replace_dotdot (String c' s)).
Proof. reflexivity. Qed.

Lemma has_dotdot_cons (c : Ascii.ascii) (t : string) :
  has_dotdot (String c t) =
  match t with
  | EmptyString => false
  | String c' _ => (is_dot c && is_dot c') || has_dotdot t
  end.
Proof. reflexivity. Qed.

Lemma replace_dotdot_clean_aux (n : nat) (s : string) :
  String.length s <= n -> has_dotdot (replace_dotdot s) = false.
Proof.
revert s. induction n as [|n IH]; intros s Hn.
- destruct s; [reflexivity | cbn in Hn; lia].
- destruct s as [|c [|c' s]]; [reflexivity | reflexivity|].
  cbn [String.length] in Hn. rewrite replace_dotdot_step.
  destruct (is_dot c && is_dot c') eqn:E.
  + assert (Hs : has_dotdot (replace_dotdot s) = false) by (apply IH; lia).
    rewrite has_dotdot_cons. destruct (replace_dotdot s) as [|x r]; [reflexivity|].
    change (is_dot underscore) with false. cbn [andb orb]. exact Hs.
  + assert (Hs : has_dotdot (replace_dotdot (String c' s)) = false)
      by (apply IH; cbn [String.length]; lia).
    rewrite has_dotdot_cons.
    destruct (is_dot c') eqn:Hc'.
    * rewrite andb_true_r in E.
      destruct (replace_dotdot (String c' s)) as [|x r]; [reflexivity|].
      rewrite E. cbn [andb orb]. exact Hs.
    * destruct (replace_dotdot_head c' s Hc') as [r Hr]. rewrite Hr in *.
      rewrite Hc', andb_false_r. cbn [orb]. exact Hs.
Qed.

Lemma replace_dotdot_fixed_aux (n : nat) (s : string) :
  String.length s <= n -> has_dotdot s = false -> replace_dotdot s = s.
Proof.
revert s. induction n as [|n IH]; intros s Hn.
- destruct s; [reflexivity | cbn in Hn; lia].
- destruct s as [|c [|c' s]]; [reflexivity | reflexivity|].
  cbn [String.length] in Hn. intros H. rewrite has_dotdot_cons in H.
  apply orb_false_elim in H as [H1 H2].
  rewrite replace_dotdot_step, H1. f_equal.
  apply IH; [cbn [String.length]; lia | exact H2].
Qed.

(** X23. object_path is built from components without "..": after
    replace("..", "_") neither the bucket nor the key contains two
    consecutive dots, for any input; a name that had none is unchanged,
    and sanitising twice is sanitising once. *)
Theorem object_path_has_no_dotdot (bucket key : string) :
  has_dotdot (fst (object_path bucket key)) = false /\
  has_dotdot (snd (object_path bucket key)) = false /\
  (has_dotdot key = false -> snd (object_path bucket key) = key) /\
  replace_dotdot (replace_dotdot key) = replace_dotdot key.
Proof.
unfold object_path. cbn [fst snd]. repeat split.
- apply (replace_dotdot_clean_aux (String.length bucket)). lia.
- apply (replace_dotdot_clean_aux (String.length key)). lia.
- apply (replace_dotdot_fixed_aux (String.length key)). lia.
- apply (replace_dotdot_fixed_aux (String.length (replace_dotdot key))); [lia|].
  apply (replace_dotdot_clean_aux (String.length key)). lia.
Qed.

End StorageNodeFacts.

(** ** gateway/ec.py: the shape of the shards *)

Module EcShapeFacts.
Import GF256 Zfec LinAlg LinAlgFacts Ec EcFacts.

(** X24. encode_data never fails.  For every blob it returns M = 6 shards
    of ceil(len/K) bytes each, and the first K = 4 of them, joined, are
    the blob followed by its zero padding (zfec being the systematic code
    of the Zfec module). *)
Theorem encode_data_shape (data : list byte) :
  exists shards,
    encode_data data = Ok shards /\
    length shards = M /\
    Forall (fun s => length s = ceil_div (length data) K) shards /\
    concat (firstn K shards) =
      data ++ repeat x00 (ceil_div (length data) K * K - length data).
Proof.
eexists. split; [apply encode_data_blocks|].
pose proof (blocks_length data) as Hb.
set (blocks := map _ (seq 0 K)) in *.
assert (Hlen : length blocks = K) by (unfold blocks; rewrite length_map; reflexivity).
split; [|split].
- rewrite length_app, length_map, Hlen. reflexivity.
- apply Forall_app. split; [exact Hb|].
  apply Forall_map. apply Forall_forall. intros p _. cbn.
  apply length_lincomb, Hb.
- rewrite take_app_length' by exact Hlen. apply concat_blocks.
Qed.

End EcShapeFacts.

(** ** gateway/config.py: parse_nodes reads back the documented format *)

Module ParseNodesFacts.
Import Config ParseNodes.

Lemma append_cons (c : Ascii.ascii) (p s : string) :
  String c p +:+ s = String c (p +:+ s).
Proof. reflexivity. Qed.

Lemma append_empty_r (s : string) : s +:+ "" = s.
Proof.
induction s as [|c s IH]; [reflexivity|]. rewrite append_cons, IH. reflexivity.
Qed.

Lemma split_comma_nonempty (s : string) : split_comma s <> [].
Proof.
induction s as [|c s IH]; cbn [split_comma]; [discriminate|].
destruct (Ascii.eqb c comma); [discriminate|].
destruct (split_comma s); [contradiction | discriminate].
Qed.

Lemma split_comma_app (p s : string) :
  occurs comma p = false ->
  split_comma (p +:+ s) =
  match split_comma s with
  | part :: parts => (p +:+ part) :: parts
  | [] => [p]
  end.
Proof.
induction p as [|c p IH]; intros Hp.
- change ("" +:+ s) with s.
  destruct (split_comma s) eqn:E; [|reflexivity].
  exfalso. exact (split_comma_nonempty s E).
- cbn [occurs] in Hp. apply orb_false_elim in Hp as [Hc Hp].
  rewrite !append_cons. cbn [split_comma]. rewrite Hc, (IH Hp).
  destruct (split_comma s) eqn:E; [|reflexivity].
  exfalso. exact (split_comma_nonempty s E).
Qed.

Lemma split_comma_clean (p : string) : occurs comma p = false -> split_comma p = [p].
Proof.
intros Hp. pose proof (split_comma_app p "" Hp) as H.
rewrite append_empty_r in H. cbn [split_comma] in H.
rewrite append_empty_r in H. exact H. 
Qed.

Lemma split_comma_concat (parts : list string) :
  parts <> [] ->
  forallb (fun p => negb (occurs comma p)) parts = true ->
  split_comma (String.concat (String comma EmptyString) parts) = parts.
Proof.
induction parts as [|p parts IH]; intros Hne Hall; [contradiction|].
cbn [forallb] in Hall. apply andb_prop in Hall as [Hp Hall].
apply negb_true_iff in Hp.
destruct parts as [|q parts].
- cbn [String.concat]. apply split_comma_clean, Hp.
- change (String.concat (String comma "") (p :: q :: parts))
    with (p +:+ String comma (String.concat (String comma "") (q :: parts))).
  rewrite (split_comma_app p _ Hp). cbn [split_comma].
  rewrite Ascii.eqb_refl, IH by (discriminate || exact Hall).
  rewrite append_empty_r. reflexivity.
Qed.

Lemma rstrip_app_fixed (s t : string) :
  t <> EmptyString -> rstrip t = t -> rstrip (s +:+ t) = s +:+ t.
Proof.
intros Hne Ht. induction s as [|c s IH]; [exact Ht|].
rewrite append_cons. cbn [rstrip]. rewrite IH.
destruct (s +:+ t) eqn:E; [|reflexivity].
destruct s; cbn in E; [contradiction | discriminate].
Qed.

Lemma occurs_app (c : Ascii.ascii) (s t : string) :
  occurs c (s +:+ t) = occurs c s || occurs c t.
Proof.
induction s as [|x s IH]; [reflexivity|].
rewrite append_cons. cbn [occurs]. rewrite IH, orb_assoc. reflexivity.
Qed.

Lemma cut_at_colon_app (nid url : string) :
  occurs colon nid = false ->
  cut_at_colon (nid +:+ String colon url) = Some (nid, url).
Proof.
induction nid as [|c nid IH]; intros H.
- reflexivity.
- cbn [occurs] in H. apply orb_false_elim in H as [Hc H].
  rewrite append_cons. cbn [cut_at_colon]. rewrite Hc, (IH H). reflexivity.
Qed.

Lemma parse_formatted_part (n : NodeInfo) :
  well_formed n = true ->
  strip (format_node n) = format_node n /\
  format_node n <> EmptyString /\
  occurs comma (format_node n) = false /\
  cut_at_colon (format_node n) = Some (node_id n, base_url n).
Proof.
unfold well_formed, format_node. intros H.
apply andb_prop in H as [H Hr]. apply andb_prop in H as [H Hl].
apply andb_prop in H as [H Hu]. apply andb_prop in H as [Hc Hk].
apply negb_true_iff in Hl, Hu, Hc, Hk. apply String.eqb_eq in Hr.
assert (Hcolon : rstrip (String colon (base_url n)) = String colon (base_url n)).
{ cbn [rstrip]. rewrite Hr. destruct (base_url n); reflexivity. }
repeat split.
- unfold strip.
  assert (Hls : lstrip (node_id n +:+ String colon (base_url n)) =
                node_id n +:+ String colon (base_url n)).
  { destruct (node_id n) as [|c s]; [reflexivity|].
    rewrite append_cons. cbn [lstrip]. rewrite Hl. reflexivity. }
  rewrite Hls. apply rstrip_app_fixed; [discriminate | exact Hcolon].
- destruct (node_id n); discriminate.
- rewrite occurs_app. cbn [occurs]. rewrite Hc, Hu. reflexivity.
- apply cut_at_colon_app, Hk.
Qed.

(** X25. parse_nodes reads back the documented STORAGE_NODES format: for
    every list of entries whose fields contain no ",", whose ids contain
    no ":" and which carry no white space where strip() would remove it,
    parsing "id:url,id:url,..." returns the entries, in order, urls with
    their own colons included. *)
Theorem parse_nodes_reads_the_format (nodes : list NodeInfo) :
  forallb well_formed nodes = true ->
  parse_nodes (format_nodes nodes) = nodes.
Proof.
intros Hwf. unfold parse_nodes, format_nodes.
destruct nodes as [|n0 nodes0]; [reflexivity|].
set (nodes := n0 :: nodes0) in *.
rewrite split_comma_concat.
- clearbody nodes. induction nodes as [|n nodes IH]; [reflexivity|].
  cbn [forallb] in Hwf. apply andb_prop in Hwf as [Hn Hwf].
  destruct (parse_formatted_part n Hn) as (Hs & Hne & _ & Hcut).
  cbn [map].
  change (omap ?f (format_node n :: ?l))
    with (match f (format_node n) with Some y => y :: omap f l | None => omap f l end).
  cbv beta zeta. rewrite Hs, Hcut.
  destruct (String.eqb_spec (format_node n) ""); [contradiction|].
  rewrite (IH Hwf). destruct n. reflexivity.
- discriminate.
- clearbody nodes. induction nodes as [|n nodes IH]; [reflexivity|].
  cbn [forallb] in Hwf. apply andb_prop in Hwf as [Hn Hwf].
  destruct (parse_formatted_part n Hn) as (_ & _ & Hc & _).
  cbn [map forallb]. rewrite Hc, (IH Hwf). reflexivity.
Qed.

(** Witness of X25: the default registry of config.py. *)
Lemma parse_nodes_reads_the_format_witness :
  parse_nodes (format_nodes Examples.nodes6) = Examples.nodes6.
Proof.
apply parse_nodes_reads_the_format. vm_compute. reflexivity.
Defined.

End ParseNodesFacts.
